(** * SudoSOS back-end: fines, ledger hooks and revisioned entities

    A shallow embedding of the debtor service ([calculateFine],
    [calculateFinesOnDate], [handOutFines], [waiveFines], [deleteFine],
    [sendFineWarnings]), of the [Transfer] after-insert hook
    ([validateDebtPaid]), of the [ProductRevision] before-update hook
    ([denyUpdate]) and of the draft / approval workflow of products and
    containers ([createProduct], [updateProduct],
    [approveProductUpdate], [getAllProducts], [createContainer],
    [updateContainer], the two variants of [approveContainerUpdate],
    [canViewContainer], [verifyContainer], [combineProducts]), with the
    properties the specification states about them (C1 to C10) and further
    properties read off the code (X1 to X27).

    Conventions.
    - A JavaScript number holding an amount in minor units, an id or a
      revision number is a [Z]; all values stay far inside the range in
      which a double represents integers exactly.
    - A table of the relational store is a finite map from primary key to
      row ([gmap]); the append-only tables of the ledger (transfers, fines,
      hand-out events) are lists of rows in insertion order.
    - An operation on the store is a function from the store to a result
      and a store: the store that comes back next to an [Err] is what the
      failed operation left behind.
    - Callbacks that the source starts together ([Promise.all] over a
      [map]) are run one after the other, in the order of the list, where
      they only read the store or the result does not depend on their
      order; the callbacks of a hand-out interleave at their [await]s, in
      an order that is a parameter of the run.

    Layout.  The modules [Debtor] and [Revisions] hold the two models, with
    the predicates and the concrete stores that the statements use; the
    modules [DebtorProps] and [RevisionsProps] hold the lemmas and
    theorems. *)

From stdpp Require Import gmap strings list fin_maps.
From Stdlib Require Import ZArith Lia.

Open Scope Z_scope.

(** ** Outcomes shared by both services *)

Inductive error : Type :=
| NotFoundError          (* throw new Error(`User with ID ... does not exist`) *)
| ValidationError        (* a transfer with neither endpoint *)
| StoreFailure           (* the store refuses a write *)
| TypeError              (* a property read on [undefined] *)
| UnapprovedProductError (* 'Container update has unapproved product(s).' *)
| ImmutableError.        (* 'Immutable entities cannot be updated.' *)

Inductive result (A : Type) : Type :=
| Ok (a : A)
| Err (e : error).

Arguments Ok {A} a.
Arguments Err {A} e.

(** ** Keys, sums and the monad of store operations *)

(** Primary keys are handed out in increasing order. *)
Definition next_row_id {A : Type} (rows : list (Z * A)) : Z :=
  1 + foldr Z.max 0 (rows.*1).

Definition next_key {A : Type} (m : gmap Z A) : Z :=
  next_row_id (map_to_list m).

Definition sumZ (l : list Z) : Z := foldr Z.add 0 l.

(** ** The state-and-error monad of store operations *)

Definition M (S A : Type) : Type := S -> result A * S.

Definition ret {S A : Type} (a : A) : M S A := fun s => (Ok a, s).

Definition bind {S A B : Type} (c : M S A) (k : A -> M S B) : M S B :=
  fun s =>
    match c s with
    | (Ok a, s1) => k a s1
    | (Err e, s1) => (Err e, s1)
    end.

Notation "'let*' x ':=' c 'in' k" := (bind c (fun x => k))
  (at level 10, x pattern, c at level 100, k at level 200).

Definition throw {S A : Type} (e : error) : M S A := fun s => (Err e, s).

Definition modify {S : Type} (f : S -> S) : M S unit := fun s => (Ok tt, f s).

Fixpoint mapM {S A B : Type} (f : A -> M S B) (l : list A) : M S (list B) :=
  match l with
  | [] => ret []
  | a :: l' => let* b := f a in let* bs := mapM f l' in ret (b :: bs)
  end.

Module Debtor.

(** ** [calculateFine] (container-service.ts, lines 954-965)

    [Math.max(Math.min(Math.floor(-balance.amount / 500) * 100, 500), 0)].
    [Z.div] rounds towards minus infinity for a positive divisor, as
    [Math.floor] of the quotient does. *)
Definition calculateFine (balance : Z) : Z :=
  Z.max (Z.min ((- balance) / 500 * 100) 500) 0.

(** ** Rows of the ledger

    Rows do not repeat their primary key: a table maps the key to the row.
    A relation is the key of the row it points to; columns that no modelled
    operation reads (names, descriptions, timestamps of fines) are left
    out. *)

Record User : Type := mkUser {
  userType : Z;
  currentFines : option Z          (* the active UserFineGroup, if any *)
}.

Record Transfer : Type := mkTransfer {
  fromId : option Z;
  toId : option Z;
  amount : Z;
  transfer_createdAt : Z
}.

Record Transaction : Type := mkTransaction {
  transaction_from : Z;
  transaction_createdAt : Z;
  subTransactions : list (Z * Z)   (* receiving account, value *)
}.

Record UserFineGroup : Type := mkUserFineGroup {
  userId : Z;
  waivedTransfer : option Z
}.

Record Fine : Type := mkFine {
  fineHandoutEvent : Z;
  userFineGroup : Z;
  fine_amount : Z;
  previousFine : option Z;
  transfer : Z
}.

Record FineHandoutEvent : Type := mkFineHandoutEvent {
  referenceDate : Z;
  createdBy : Z;
  event_createdAt : Z
}.

Record DB : Type := mkDB {
  clock : Z;                                   (* what [new Date()] reads *)
  users : gmap Z User;
  userFineGroups : gmap Z UserFineGroup;
  transfers : list (Z * Transfer);
  transactions : list (Z * Transaction);
  fines : list (Z * Fine);
  fineHandoutEvents : list (Z * FineHandoutEvent)
}.

Definition set_users (f : gmap Z User -> gmap Z User) (db : DB) : DB :=
  mkDB (clock db) (f (users db)) (userFineGroups db) (transfers db)
       (transactions db) (fines db) (fineHandoutEvents db).

Definition set_userFineGroups
    (f : gmap Z UserFineGroup -> gmap Z UserFineGroup) (db : DB) : DB :=
  mkDB (clock db) (users db) (f (userFineGroups db)) (transfers db)
       (transactions db) (fines db) (fineHandoutEvents db).

Definition set_transfers
    (f : list (Z * Transfer) -> list (Z * Transfer)) (db : DB) : DB :=
  mkDB (clock db) (users db) (userFineGroups db) (f (transfers db))
       (transactions db) (fines db) (fineHandoutEvents db).

Definition set_fines (f : list (Z * Fine) -> list (Z * Fine)) (db : DB) : DB :=
  mkDB (clock db) (users db) (userFineGroups db) (transfers db)
       (transactions db) (f (fines db)) (fineHandoutEvents db).

Definition set_fineHandoutEvents
    (f : list (Z * FineHandoutEvent) -> list (Z * FineHandoutEvent))
    (db : DB) : DB :=
  mkDB (clock db) (users db) (userFineGroups db) (transfers db)
       (transactions db) (fines db) (f (fineHandoutEvents db)).

(** ** Balances

    Modelled from the spec: [BalanceService.getBalance] and
    [BalanceService.getBalances] are not among the sources.  The balance of
    an account is the signed sum of the transfers (positive to the
    destination, negative from the source) and of the transactions (the total
    is taken from the payer, each sub-transaction is paid to its receiver)
    dated at or before the given date; without a date every entry counts.
    [getBalances] lists the accounts selected by [ids] and [userTypes] whose
    balance on [date] is at most [maxBalance] ("at most -5 euros" in the
    comment of [calculateFinesOnDate]). *)

Definition dated (date : option Z) (createdAt : Z) : bool :=
  match date with
  | None => true
  | Some d => createdAt <=? d
  end.

Definition transfer_contribution (uid : Z) (t : Transfer) : Z :=
  (if bool_decide (toId t = Some uid) then amount t else 0)
  - (if bool_decide (fromId t = Some uid) then amount t else 0).

Definition transaction_contribution (uid : Z) (t : Transaction) : Z :=
  sumZ ((fun s : Z * Z => if bool_decide (s.1 = uid) then s.2 else 0)
          <$> subTransactions t)
  - (if bool_decide (transaction_from t = uid)
     then sumZ ((subTransactions t).*2) else 0).

Definition getBalance (db : DB) (uid : Z) (date : option Z) : Z :=
  sumZ ((fun r : Z * Transfer => transfer_contribution uid r.2)
          <$> filter (fun r : Z * Transfer => dated date (transfer_createdAt r.2))
                     (transfers db))
  + sumZ ((fun r : Z * Transaction => transaction_contribution uid r.2)
            <$> filter (fun r : Z * Transaction =>
                          dated date (transaction_createdAt r.2))
                       (transactions db)).

Record GetBalancesParams : Type := mkGetBalancesParams {
  maxBalance : option Z;
  date : option Z;
  userTypes : option (list Z);
  ids : option (list Z)
}.

Record BalanceResponse : Type := mkBalanceResponse {
  b_id : Z;
  b_amount : Z
}.

Definition listed (l : option (list Z)) (x : Z) : bool :=
  match l with
  | None => true
  | Some xs => bool_decide (x ∈ xs)
  end.

Definition at_most (bound : option Z) (x : Z) : bool :=
  match bound with
  | None => true
  | Some m => x <=? m
  end.

Definition balance_selected (db : DB) (p : GetBalancesParams) (r : Z * User) : bool :=
  listed (ids p) r.1 && listed (userTypes p) (userType r.2)
  && at_most (maxBalance p) (getBalance db r.1 (date p)).

Definition getBalances (db : DB) (p : GetBalancesParams) : list BalanceResponse :=
  (fun r : Z * User => mkBalanceResponse r.1 (getBalance db r.1 (date p)))
    <$> filter (fun r : Z * User => balance_selected db p r) (map_to_list (users db)).

(** ** [calculateFinesOnDate] (container-service.ts, lines 1044-1072) *)

Record UserToFineResponse : Type := mkUserToFineResponse {
  f_id : Z;
  f_amount : Z
}.

Definition calculateFinesOnDate (db : DB)
    (userTypes : option (list Z)) (userIds : option (list Z))
    (referenceDate : option Z) : list UserToFineResponse :=
  let debtorsOnReferenceDate :=
    getBalances db (mkGetBalancesParams (Some (-500)) referenceDate userTypes userIds) in
  let debtorsNow :=
    getBalances db (mkGetBalancesParams (Some (-500)) None userTypes userIds) in
  let debtorsNowIds := b_id <$> debtorsNow in
  let userBalancesToFine :=
    filter (fun b => b_id b ∈ debtorsNowIds) debtorsOnReferenceDate in
  (fun u => mkUserToFineResponse (b_id u) (calculateFine (b_amount u)))
    <$> userBalancesToFine.

(** ** Relations loaded with a row *)

(** [relations: ['currentFines']]: the joined group, [null] when the user
    points to none. *)
Definition user_currentFines (db : DB) (u : User) : option (Z * UserFineGroup) :=
  match currentFines u with
  | None => None
  | Some gid =>
      match userFineGroups db !! gid with
      | None => None
      | Some g => Some (gid, g)
      end
  end.

(** [relations: ['currentFines.fines']]. *)
Definition group_fines (db : DB) (gid : Z) : list (Z * Fine) :=
  filter (fun r : Z * Fine => userFineGroup r.2 = gid) (fines db).

(** ** Transactions of the store

    [getConnection().transaction(async (manager) => ...)] runs its body in
    a transaction of the store, and, as the ORM has it, only what is issued
    through the [manager] it passes in belongs to that transaction: a write
    made through the entity itself ([entity.save()]) goes through the
    connection's own manager and stays whatever becomes of the transaction.
    [committed] is what the store keeps in any case, [view] is what the
    transaction works on and what is committed when its body returns; the
    transaction is rolled back when the body throws. *)

Record Tx : Type := mkTx {
  committed : DB;
  view : DB
}.

Definition via_manager {A : Type} (c : M DB A) : M Tx A :=
  fun t =>
    match c (view t) with
    | (r, v) => (r, mkTx (committed t) v)
    end.

Definition via_entity (f : DB -> DB) : M Tx unit :=
  fun t => (Ok tt, mkTx (f (committed t)) (f (view t))).

Definition transaction {A : Type} (body : M Tx A) : M DB A :=
  fun db =>
    match body (mkTx db db) with
    | (Ok a, t) => (Ok a, view t)
    | (Err e, t) => (Err e, committed t)
    end.

(** ** [Transfer] and its after-insert hook (part_003, lines 90-105)

    The hook reads and writes through the entities ([User.findOne],
    [BalanceService.getBalance], [user.save()]), that is, through the
    connection's own manager and not through the transaction in which the
    row was inserted: it works on the store as committed, and what it saves
    stays whatever becomes of that transaction. *)

Definition insertTransfer (from to : option Z) (amt : Z) : M DB (Z * Transfer) :=
  fun db =>
    let id := next_row_id (transfers db) in
    let t := mkTransfer from to amt (clock db) in
    (Ok (id, t), set_transfers (fun l => l ++ [(id, t)]) db).

Definition validateDebtPaid (this : Transfer) : M Tx unit :=
  fun t =>
    match toId this with
    | None => (Ok tt, t)
    | Some uid =>
        match users (committed t) !! uid with
        | None => (Err TypeError, t)
        | Some user =>
            match user_currentFines (committed t) user with
            | None => (Ok tt, t)
            | Some _ =>
                if 0 <=? getBalance (committed t) uid None
                then via_entity (set_users (insert uid (mkUser (userType user) None))) t
                else (Ok tt, t)
            end
        end
    end.

(** Saving a new [Transfer] instance.  The ORM runs the save in a
    transaction of its own: the row is inserted, then the after-insert
    listeners run, and the transaction commits when they have returned and
    is rolled back when one throws. *)
Definition saveTransfer (from to : option Z) (amt : Z) : M DB (Z * Transfer) :=
  transaction
    (let* r := via_manager (insertTransfer from to amt) in
     let* _ := validateDebtPaid r.2 in
     ret r).

(** Modelled from the spec: [TransferService.createTransfer] is not among
    the sources.  It persists a transfer that has at least one endpoint and
    fails with a validation error, persisting nothing, when it has none; the
    after-insert hook runs on the new row.  [rejected] lists the accounts for
    which the store is made to refuse the insert (the simulated failure of
    the specification's hand-out property). *)
Definition store_refuses (rejected : list Z) (from to : option Z) : bool :=
  match from with Some a => bool_decide (a ∈ rejected) | None => false end
  || match to with Some a => bool_decide (a ∈ rejected) | None => false end.

Definition createTransfer (rejected : list Z) (from to : option Z) (amt : Z)
    : M DB (Z * Transfer) :=
  match from, to with
  | None, None => throw ValidationError
  | _, _ =>
      if store_refuses rejected from to then throw StoreFailure
      else saveTransfer from to amt
  end.

(** ** [waiveFines] (container-service.ts, lines 1184-1209) *)

Definition waiveFines (rejected : list Z) (uid : Z) : M DB unit :=
  fun db =>
    match users db !! uid with
    | None => (Err NotFoundError, db)
    | Some user =>
        match user_currentFines db user with
        | None => (Ok tt, db)
        | Some (gid, group) =>
            let amount := sumZ ((fun r : Z * Fine => fine_amount r.2)
                                  <$> group_fines db gid) in
            (let* t := createTransfer rejected None (Some uid) amount in
             let* _ := modify (set_userFineGroups
                         (insert gid (mkUserFineGroup (userId group) (Some t.1)))) in
             modify (set_users (insert uid (mkUser (userType user) None)))) db
        end
    end.

(** ** [handOutFines] (container-service.ts, lines 1080-1163) *)

Record Email : Type := mkEmail {
  email_user : Z;
  email_fine : Z;
  email_balance : Z;
  email_referenceDate : Z;
  email_totalFine : Z
}.

Record FineResponse : Type := mkFineResponse {
  fr_id : Z;
  fr_user : Z;
  fr_amount : Z
}.

Record FineHandoutEventResponse : Type := mkFineHandoutEventResponse {
  r_id : Z;
  r_referenceDate : Z;
  r_createdBy : Z;
  r_fines : list FineResponse
}.

(** [FineHandoutEvent.find({ order: { id: 'desc' }, take: 1 })[0]]. *)
Definition latestEvent (db : DB) : option (Z * FineHandoutEvent) :=
  foldr (fun (e : Z * FineHandoutEvent) acc =>
           match acc with
           | Some e' => if e'.1 <? e.1 then Some e else Some e'
           | None => Some e
           end) None (fineHandoutEvents db).

(** [previousFineGroup?.fines.find((fine) => fine.userFineGroup.userId === b.id)],
    on the rows read before the transaction starts. *)
Definition previousFineOf (db : DB) (previous : option (Z * FineHandoutEvent))
    (uid : Z) : option Z :=
  match previous with
  | None => None
  | Some (eid, _) =>
      fst <$> head (filter
        (fun r : Z * Fine =>
           fineHandoutEvent r.2 = eid
           /\ userId <$> userFineGroups db !! userFineGroup r.2 = Some uid)
        (fines db))
  end.

(** The group a fine is filed under: the user's active group, or a new one,
    saved with [userFineGroup.save()] and linked to the user (through
    [manager]) only when the fine is positive.  Returns the key of the group,
    its user and the fines it already holds. *)
Definition groupFor (b : BalanceResponse) (user : User) (amount : Z)
    : M Tx (Z * Z * list (Z * Fine)) :=
  fun t =>
    match user_currentFines (view t) user with
    | Some (gid, group) => (Ok (gid, userId group, group_fines (view t) gid), t)
    | None =>
        let gid := next_key (userFineGroups (view t)) in
        (let* _ := via_entity (set_userFineGroups
                      (insert gid (mkUserFineGroup (b_id b) None))) in
         let* _ := (if 0 <? amount
                    then via_manager (modify (set_users
                           (insert (b_id b) (mkUser (userType user) (Some gid)))))
                    else ret tt) in
         ret (gid, b_id b, [])) t
    end.

(** The body of [balances.records.map(async (b) => ...)] for one record.
    The transfer has no destination, so the after-insert hook returns at
    once and [createTransfer] touches nothing outside the transaction. *)
Definition fineUser (rejected : list Z) (db0 : DB)
    (previous : option (Z * FineHandoutEvent)) (eventId date : Z)
    (b : BalanceResponse) : M Tx (Fine * Z * Email) :=
  fun t =>
    let previousFine := previousFineOf db0 previous (b_id b) in
    match users (view t) !! b_id b with
    | None => (Err TypeError, t)
    | Some user =>
        let amount := calculateFine (b_amount b) in
        (let* g := groupFor b user amount in
         let* tr := via_manager (createTransfer rejected (Some (b_id b)) None amount) in
         ret (mkFine eventId g.1.1 (calculateFine (b_amount b)) previousFine tr.1,
              g.1.2,
              mkEmail (b_id b) amount (b_amount b) date
                (sumZ ((fun r : Z * Fine => fine_amount r.2) <$> g.2) + amount))) t
    end.

Definition insertEvent (e : FineHandoutEvent) : M DB Z :=
  fun db =>
    let id := next_row_id (fineHandoutEvents db) in
    (Ok id, set_fineHandoutEvents (fun l => l ++ [(id, e)]) db).

Definition insertFine (f : Fine * Z) : M DB FineResponse :=
  fun db =>
    let id := next_row_id (fines db) in
    (Ok (mkFineResponse id f.2 (fine_amount f.1)),
     set_fines (fun l => l ++ [(id, f.1)]) db).

(** [referenceDate || previousFineGroup?.createdAt || new Date()]. *)
Definition handoutDate (referenceDate : option Z) (db : DB) : Z :=
  match referenceDate, latestEvent db with
  | Some d, _ => d
  | None, Some e => event_createdAt e.2
  | None, None => clock db
  end.

(** [BalanceService.getBalances({ date, ids: userIds })]. *)
Definition handoutRecords (referenceDate : option Z) (userIds : list Z) (db : DB)
    : list BalanceResponse :=
  getBalances db
    (mkGetBalancesParams None (Some (handoutDate referenceDate db)) None (Some userIds)).

(** *** The callbacks of a hand-out, one [await] at a time

    [Promise.all(balances.records.map(async (b) => ...))] starts the
    callbacks together.  Each of them runs up to its next [await], and the
    program does not fix which of the waiting callbacks goes on next: they
    interleave at their [await]s.  A [Stage] says where a callback waits and
    holds the local variables it needs from there on; [advance] runs it from
    one [await] to the next; [fineUser] above is the whole body, from start
    to end with no other callback in between. *)
Inductive Stage : Type :=
  | Started
      (* await manager.findOne(User, ...) *)
  | SavingGroup (user : User)
      (* await userFineGroup.save() *)
  | LinkingUser (user : User) (gid : Z)
      (* await manager.save(user) *)
  | CreatingTransfer (gid guser : Z) (gfines : list (Z * Fine))
      (* await TransferService.createTransfer(..., manager) *)
  | Returned (out : Fine * Z * Email).

Definition advance (rejected : list Z) (db0 : DB)
    (previous : option (Z * FineHandoutEvent)) (eventId date : Z)
    (b : BalanceResponse) (s : Stage) : M Tx Stage :=
  fun t =>
    let amount := calculateFine (b_amount b) in
    match s with
    | Started =>
        match users (view t) !! b_id b with
        | None => (Err TypeError, t)
        | Some user =>
            match user_currentFines (view t) user with
            | Some (gid, group) =>
                (Ok (CreatingTransfer gid (userId group) (group_fines (view t) gid)), t)
            | None => (Ok (SavingGroup user), t)
            end
        end
    | SavingGroup user =>
        let gid := next_key (userFineGroups (view t)) in
        (let* _ := via_entity (set_userFineGroups
                      (insert gid (mkUserFineGroup (b_id b) None))) in
         ret (if 0 <? amount then LinkingUser user gid
              else CreatingTransfer gid (b_id b) [])) t
    | LinkingUser user gid =>
        (let* _ := via_manager (modify (set_users
                      (insert (b_id b) (mkUser (userType user) (Some gid))))) in
         ret (CreatingTransfer gid (b_id b) [])) t
    | CreatingTransfer gid guser gfines =>
        (let* tr := via_manager (createTransfer rejected (Some (b_id b)) None amount) in
         ret (Returned
                (mkFine eventId gid (calculateFine (b_amount b))
                   (previousFineOf db0 previous (b_id b)) tr.1,
                 guser,
                 mkEmail (b_id b) amount (b_amount b) date
                   (sumZ ((fun r : Z * Fine => fine_amount r.2) <$> gfines) + amount)))) t
    | Returned _ => (Ok s, t)
    end.

Definition pending (s : Stage) : bool :=
  match s with Returned _ => false | _ => true end.

(** The positions, from [i] on, of the callbacks that have not returned. *)
Fixpoint pendingFrom (i : nat) (cbs : list (BalanceResponse * Stage)) : list nat :=
  match cbs with
  | [] => []
  | c :: rest => (if pending c.2 then [i] else []) ++ pendingFrom (S i) rest
  end.

(** The mail a callback pushes when its transfer is there. *)
Definition pushed (s : Stage) : list Email :=
  match s with Returned out => [out.2] | _ => [] end.

(** The callbacks [cbs] run to their ends.  An [order] names, step by step,
    which of the callbacks not yet returned goes on to its next [await],
    counted from the first of them (a number past the last wraps around, and
    past the end of [order] it is the first): every list of numbers is an
    order.  The first callback to throw rejects the [Promise.all].  [emails]
    is the array the callbacks push their mails to.  No callback takes more
    than four steps, which bounds [fuel]. *)
Fixpoint interleave (rejected : list Z) (db0 : DB)
    (previous : option (Z * FineHandoutEvent)) (eventId date : Z)
    (fuel : nat) (order : list nat) (cbs : list (BalanceResponse * Stage))
    (emails : list Email) : M Tx (list (BalanceResponse * Stage) * list Email) :=
  fun t =>
    match fuel with
    | O => (Ok (cbs, emails), t)
    | S fuel' =>
        let waiting := pendingFrom 0 cbs in
        match waiting !! (hd O order mod length waiting)%nat with
        | None => (Ok (cbs, emails), t)
        | Some i =>
            match cbs !! i with
            | None => (Ok (cbs, emails), t)
            | Some (b, s) =>
                match advance rejected db0 previous eventId date b s t with
                | (Ok s', t') =>
                    interleave rejected db0 previous eventId date fuel' (tl order)
                      (<[i := (b, s')]> cbs) (emails ++ pushed s') t'
                | (Err e, t') => (Err e, t')
                end
            end
        end
    end.

(** What [Promise.all] resolves to: the values the callbacks returned, in
    the order of the records. *)
Definition returnedBy (cbs : list (BalanceResponse * Stage)) : list (Fine * Z * Email) :=
  omap (fun c : BalanceResponse * Stage =>
          match c.2 with Returned out => Some out | _ => None end) cbs.

Definition handOutFinesIn (order : list nat) (rejected : list Z)
    (referenceDate : option Z) (userIds : list Z) (createdBy : Z)
    : M DB (FineHandoutEventResponse * list Email) :=
  fun db =>
    let previousFineGroup := latestEvent db in
    let date := handoutDate referenceDate db in
    let balances := handoutRecords referenceDate userIds db in
    (let* r := transaction
       (let* eventId := via_manager
                          (insertEvent (mkFineHandoutEvent date createdBy (clock db))) in
        let* all := interleave rejected db previousFineGroup eventId date
                      (4 * length balances) order
                      ((fun b => (b, Started)) <$> balances) [] in
        let fines := fst <$> returnedBy all.1 in
        let* saved := via_manager (mapM insertFine fines) in
        ret (mkFineHandoutEventResponse eventId date createdBy saved, all.2)) in
     (* emails1.forEach(({ user, email }) => Mailer.getInstance().send(user, email)):
        the mails handed to the mailer are the second component of the result *)
     ret r) db.

(** The run in which every callback goes on until it returns before the
    next one takes its first step. *)
Definition handOutFines (rejected : list Z) (referenceDate : option Z)
    (userIds : list Z) (createdBy : Z)
    : M DB (FineHandoutEventResponse * list Email) :=
  handOutFinesIn [] rejected referenceDate userIds createdBy.

(** ** [sendFineWarnings] (container-service.ts, lines 1220-1249)

    The store is only read; the result is the list of mails handed to the
    mailer.  A callback throws ['Missing balance'] when the balance list has
    no record of the user, and fails on [user.firstName] when the user row
    is gone. *)

Record FineWarning : Type := mkFineWarning {
  warning_user : Z;
  warning_referenceDate : Z;
  warning_fine : Z;
  warning_balance : Z
}.

Inductive warning_error : Type :=
| MissingBalance         (* throw new Error('Missing balance') *)
| MissingUser.           (* [user.firstName] on [undefined] *)

Fixpoint collect {E A B : Type} (f : A -> E + B) (l : list A) : E + list B :=
  match l with
  | [] => inr []
  | a :: l' =>
      match f a with
      | inl e => inl e
      | inr b =>
          match collect f l' with
          | inl e => inl e
          | inr bs => inr (b :: bs)
          end
      end
  end.

Definition warnUser (db : DB) (date : Z) (balances : list BalanceResponse)
    (f : UserToFineResponse) : warning_error + FineWarning :=
  let user := users db !! f_id f in
  let balance := head (filter (fun b : BalanceResponse => b_id b = f_id f) balances) in
  match balance with
  | None => inl MissingBalance
  | Some balance =>
      match user with
      | None => inl MissingUser
      | Some _ => inr (mkFineWarning (f_id f) date (f_amount f) (b_amount balance))
      end
  end.

Definition sendFineWarnings (referenceDate : option Z) (userIds : list Z) (db : DB)
    : warning_error + list FineWarning :=
  let date := handoutDate referenceDate db in
  let balances := handoutRecords referenceDate userIds db in
  let fines := calculateFinesOnDate db None (Some userIds) referenceDate in
  collect (warnUser db date balances) fines.

(** ** [deleteFine] (container-service.ts, lines 1169-1178)

    The fine is loaded with its transfer, its group and the fines of the
    group; then the fine, the transfer and, when the group held this fine
    only, the group are removed.  [Transfer.remove] of a relation that did
    not load is refused by the store, and reading [fines] of a group that
    did not load throws.  What the schema does to the rows that point to a
    removed row is not modelled: the entities are not among the sources. *)
Definition deleteFine (id : Z) : M DB unit :=
  fun db =>
    match head (filter (fun r : Z * Fine => r.1 = id) (fines db)) with
    | None => (Ok tt, db)
    | Some (_, fine) =>
        let fineTransfer := head (filter (fun r : Z * Transfer => r.1 = transfer fine)
                                         (transfers db)) in
        let fineGroup := userFineGroups db !! userFineGroup fine in
        let groupFines := group_fines db (userFineGroup fine) in
        (let* _ := modify (set_fines (filter (fun r : Z * Fine => r.1 <> id))) in
         let* _ := match fineTransfer with
                   | None => throw StoreFailure
                   | Some (tid, _) =>
                       modify (set_transfers
                                 (filter (fun r : Z * Transfer => r.1 <> tid)))
                   end in
         match fineGroup with
         | None => throw TypeError
         | Some _ =>
             if bool_decide (length groupFines = 1%nat)
             then modify (set_userFineGroups (delete (userFineGroup fine)))
             else ret tt
         end) db
    end.

(** The banding formula in the words of the specification. *)
Definition clamp (x lo hi : Z) : Z := Z.max lo (Z.min x hi).

Definition fine_by_spec (balance : Z) : Z :=
  clamp ((- balance) / 500 * 100) 0 500.

(** ** Predicates and stores used in the statements *)


(** Where the fine of record [b] is filed: in the user's active group, which
    stays as it is, or, for a user without one, in a new group, which
    becomes the user's [currentFines] only when the fine is positive. *)
Definition filed (v v' : DB) (b : BalanceResponse) (gid : Z) : Prop :=
  forall user, users v !! b_id b = Some user ->
    (forall gid0 g, user_currentFines v user = Some (gid0, g) ->
       gid = gid0 /\ users v' !! b_id b = Some user)
    /\ (currentFines user = None ->
          userFineGroups v !! gid = None
          /\ userFineGroups v' !! gid = Some (mkUserFineGroup (b_id b) None)
          /\ users v' !! b_id b
             = Some (if 0 <? calculateFine (b_amount b)
                     then mkUser (userType user) (Some gid) else user)).

(** What a hand-out that the store accepts leaves behind, whatever the
    [order] of its callbacks: one event and, for every balance record, one
    new transfer and one new fine, the i-th new fine being that of the i-th
    record; a fine group is new only where it holds the fine of a record
    whose user had no active group, and no user outside the records
    changes. *)
Definition handed_out (order : list nat) (rejected : list Z)
    (referenceDate : option Z) (userIds : list Z) (createdBy : Z) (db : DB) : Prop :=
  let date := handoutDate referenceDate db in
  let records := handoutRecords referenceDate userIds db in
  exists resp emails db' (trs : list (Z * Transfer)) (rows : list (Z * Fine)),
    handOutFinesIn order rejected referenceDate userIds createdBy db
    = (Ok (resp, emails), db')
    /\ clock db' = clock db
    /\ transactions db' = transactions db
    /\ fineHandoutEvents db'
       = fineHandoutEvents db ++ [(r_id resp, mkFineHandoutEvent date createdBy (clock db))]
    /\ transfers db' = transfers db ++ trs
    /\ fines db' = fines db ++ rows
    /\ length rows = length records
    /\ trs ≡ₚ zip_with (fun (b : BalanceResponse) (row : Z * Fine) =>
                          (transfer row.2,
                           mkTransfer (Some (b_id b)) None (calculateFine (b_amount b))
                             (clock db)))
                       records rows
    /\ (forall i b row, records !! i = Some b -> rows !! i = Some row ->
          row.2 = mkFine (r_id resp) (userFineGroup row.2) (calculateFine (b_amount b))
                    (previousFineOf db (latestEvent db) (b_id b)) (transfer row.2)
          /\ filed db db' b (userFineGroup row.2))
    /\ (forall gid g, userFineGroups db !! gid = Some g -> userFineGroups db' !! gid = Some g)
    /\ (forall gid g, userFineGroups db !! gid = None -> userFineGroups db' !! gid = Some g ->
          exists i b row user,
            records !! i = Some b /\ rows !! i = Some row
            /\ userFineGroup row.2 = gid
            /\ users db !! b_id b = Some user /\ user_currentFines db user = None
            /\ g = mkUserFineGroup (b_id b) None)
    /\ (forall uid, uid ∉ b_id <$> records -> users db' !! uid = users db !! uid)
    /\ email_user <$> emails ≡ₚ b_id <$> records
    /\ (forall b e, b ∈ records -> e ∈ emails -> email_user e = b_id b ->
          email_fine e = calculateFine (b_amount b)).

(** A user who was fined while 1000 in debt and has paid 1000 back since:
    the balance is -200 and the fine group 7 is still active. *)
Definition store_with_active_group : DB :=
  mkDB 100
    (<[1 := mkUser 1 (Some 7)]> ∅)
    (<[7 := mkUserFineGroup 1 None]> ∅)
    [(1, mkTransfer (Some 1) None 1000 10); (2, mkTransfer (Some 1) None 200 20);
     (3, mkTransfer None (Some 1) 1000 30)]
    []
    [(1, mkFine 1 7 200 None 2)]
    [(1, mkFineHandoutEvent 20 9 20)].

(** Two debtors and an account in credit, none of them fined before. *)
Definition store_with_two_debtors : DB :=
  mkDB 100
    (<[1 := mkUser 1 None]> (<[2 := mkUser 1 None]> (<[3 := mkUser 1 None]> ∅)))
    ∅
    [(1, mkTransfer (Some 1) None 1000 10); (2, mkTransfer (Some 2) None 600 10);
     (3, mkTransfer None (Some 3) 50 10)]
    [] [] [].

(** Account 1 is in debt throughout, account 2 was in debt at time 20 and
    has paid since, account 3 went into debt after time 20. *)
Definition store_with_transient_debtors : DB :=
  mkDB 100
    (<[1 := mkUser 1 None]> (<[2 := mkUser 1 None]> (<[3 := mkUser 1 None]> ∅)))
    ∅
    [(1, mkTransfer (Some 1) None 1000 10); (2, mkTransfer (Some 2) None 800 10);
     (3, mkTransfer None (Some 2) 800 30); (4, mkTransfer (Some 3) None 700 30)]
    [] [] [].

(** Account 1 holds the fines of 100 and 200 in its active group 7. *)
Definition store_with_two_fines : DB :=
  mkDB 100
    (<[1 := mkUser 1 (Some 7)]> ∅)
    (<[7 := mkUserFineGroup 1 None]> ∅)
    [(1, mkTransfer (Some 1) None 600 10); (2, mkTransfer (Some 1) None 100 20);
     (3, mkTransfer (Some 1) None 200 30)]
    []
    [(1, mkFine 1 7 100 None 2); (2, mkFine 2 7 200 (Some 1) 3)]
    [(1, mkFineHandoutEvent 20 9 20); (2, mkFineHandoutEvent 30 9 30)].

(** A fine group for account [uid] that [db'] has and [db] had not. *)
Definition group_created_for (db db' : DB) (uid : Z) : Prop :=
  exists gid g, userFineGroups db !! gid = None
    /\ userFineGroups db' !! gid = Some g /\ userId g = uid.

(** What the store keeps of a transaction whatever its fate: everything but
    the fine groups is as before, and fine groups were only added. *)
Definition kept (c c' : DB) : Prop :=
  clock c' = clock c /\ users c' = users c /\ transfers c' = transfers c
  /\ transactions c' = transactions c /\ fines c' = fines c
  /\ fineHandoutEvents c' = fineHandoutEvents c
  /\ (forall gid g, userFineGroups c !! gid = Some g -> userFineGroups c' !! gid = Some g).


(** What the mail of a hand-out tells the user of record [b], whose row in
    the store [v] is [user]. *)
Definition mail_of (v : DB) (date : Z) (b : BalanceResponse) (user : User) (e : Email)
    : Prop :=
  email_user e = b_id b
  /\ email_fine e = calculateFine (b_amount b)
  /\ email_balance e = b_amount b
  /\ email_referenceDate e = date
  /\ (forall gid g, user_currentFines v user = Some (gid, g) ->
        email_totalFine e
        = sumZ ((fun r : Z * Fine => fine_amount r.2) <$> group_fines v gid)
          + calculateFine (b_amount b))
  /\ (currentFines user = None -> email_totalFine e = calculateFine (b_amount b)).

(** ** Between the [await]s of a hand-out

    What holds of the store, the callbacks and the mails between two steps
    of a hand-out that started on the store [v0], whatever the order of the
    steps. *)

(** The steps a callback has still to take, at most. *)
Definition remaining (s : Stage) : nat :=
  match s with
  | Started => 4
  | SavingGroup _ => 3
  | LinkingUser _ _ => 2
  | CreatingTransfer _ _ _ => 1
  | Returned _ => 0
  end.

(** The steps that a callback run in turn leaves of its four. *)
Definition spare (b : BalanceResponse) (v : DB) : nat :=
  match users v !! b_id b with
  | None => 0
  | Some user =>
      match user_currentFines v user with
      | Some _ => 2
      | None => if 0 <? calculateFine (b_amount b) then 0 else 1
      end
  end.

(** The fine group a callback has settled on. *)
Definition stage_group (s : Stage) : option Z :=
  match s with
  | Started | SavingGroup _ => None
  | LinkingUser _ gid | CreatingTransfer gid _ _ => Some gid
  | Returned out => Some (userFineGroup out.1.1)
  end.

(** The transfer a callback has inserted. *)
Definition inserted (clock : Z) (c : BalanceResponse * Stage) : list (Z * Transfer) :=
  match c.2 with
  | Returned out =>
      [(transfer out.1.1,
        mkTransfer (Some (b_id c.1)) None (calculateFine (b_amount c.1)) clock)]
  | _ => []
  end.

(** The callback of record [b], whose user row was [user], files its fine
    under group [gid] of user [guser], which held fines of [total]: the
    active group of the user, or a new one. *)
Definition placed (v0 v : DB) (b : BalanceResponse) (user : User) (gid guser total : Z)
    : Prop :=
  match user_currentFines v0 user with
  | Some (gid0, g0) =>
      gid = gid0 /\ guser = userId g0
      /\ total = sumZ ((fun r : Z * Fine => fine_amount r.2) <$> group_fines v0 gid0)
      /\ users v !! b_id b = Some user
  | None =>
      currentFines user = None ->
      guser = b_id b /\ total = 0
      /\ userFineGroups v0 !! gid = None
      /\ userFineGroups v !! gid = Some (mkUserFineGroup (b_id b) None)
      /\ users v !! b_id b
         = Some (if 0 <? calculateFine (b_amount b)
                 then mkUser (userType user) (Some gid) else user)
  end.

Definition stage_inv (db0 : DB) (previous : option (Z * FineHandoutEvent))
    (eid date : Z) (v0 v : DB) (b : BalanceResponse) (user : User) (s : Stage) : Prop :=
  match s with
  | Started => users v !! b_id b = Some user
  | SavingGroup u =>
      u = user /\ user_currentFines v0 user = None /\ users v !! b_id b = Some user
  | LinkingUser u gid =>
      u = user /\ user_currentFines v0 user = None /\ users v !! b_id b = Some user
      /\ (0 <? calculateFine (b_amount b)) = true
      /\ userFineGroups v0 !! gid = None
      /\ userFineGroups v !! gid = Some (mkUserFineGroup (b_id b) None)
  | CreatingTransfer gid guser gfines =>
      placed v0 v b user gid guser (sumZ ((fun r : Z * Fine => fine_amount r.2) <$> gfines))
  | Returned out =>
      out.1.1 = mkFine eid (userFineGroup out.1.1) (calculateFine (b_amount b))
                  (previousFineOf db0 previous (b_id b)) (transfer out.1.1)
      /\ out.2 = mkEmail (b_id b) (calculateFine (b_amount b)) (b_amount b) date
                   (email_totalFine out.2)
      /\ placed v0 v b user (userFineGroup out.1.1) out.1.2
           (email_totalFine out.2 - calculateFine (b_amount b))
  end.

Definition between (db0 : DB) (previous : option (Z * FineHandoutEvent))
    (eid date : Z) (v0 : DB) (records : list BalanceResponse)
    (v : DB) (cbs : list (BalanceResponse * Stage)) (emails : list Email) : Prop :=
  cbs.*1 = records
  /\ clock v = clock v0
  /\ transactions v = transactions v0
  /\ fines v = fines v0
  /\ fineHandoutEvents v = fineHandoutEvents v0
  /\ (exists trs, transfers v = transfers v0 ++ trs
                  /\ trs ≡ₚ cbs ≫= inserted (clock v0))
  /\ emails ≡ₚ cbs ≫= (fun c => pushed c.2)
  /\ (forall gid g, userFineGroups v0 !! gid = Some g -> userFineGroups v !! gid = Some g)
  /\ (forall gid g, userFineGroups v !! gid = Some g -> userFineGroups v0 !! gid = None ->
        exists i b s user,
          cbs !! i = Some (b, s) /\ stage_group s = Some gid
          /\ users v0 !! b_id b = Some user /\ user_currentFines v0 user = None
          /\ g = mkUserFineGroup (b_id b) None)
  /\ (forall uid, uid ∉ b_id <$> records -> users v !! uid = users v0 !! uid)
  /\ (forall i b s user,
        cbs !! i = Some (b, s) -> users v0 !! b_id b = Some user ->
        stage_inv db0 previous eid date v0 v b user s).

End Debtor.

Module Revisions.

(** ** Rows of the revisioned entities

    A base row, a draft ("updated") row keyed by the base, and revision rows
    keyed by (base id, revision number).  A draft of a container lists
    products, a container revision lists product revisions; both are
    many-to-many relations, so sets. *)

Record Product : Type := mkProduct {
  product_owner : Z;
  product_currentRevision : option Z
}.

Record UpdatedProduct : Type := mkUpdatedProduct {
  up_name : string;
  up_price : Z;
  up_category : Z
}.

Record ProductRevision : Type := mkProductRevision {
  pr_name : string;
  pr_price : Z;
  pr_category : Z
}.

Record Container : Type := mkContainer {
  container_owner : Z;
  container_public : bool;
  container_currentRevision : option Z
}.

Record UpdatedContainer : Type := mkUpdatedContainer {
  uc_name : string;
  uc_products : gset Z
}.

Record ContainerRevision : Type := mkContainerRevision {
  cr_name : string;
  cr_products : gset (Z * Z)
}.

#[global] Instance ProductRevision_eq_dec : EqDecision ProductRevision.
Proof. solve_decision. Defined.

#[global] Instance ContainerRevision_eq_dec : EqDecision ContainerRevision.
Proof. solve_decision. Defined.

Record Store : Type := mkStore {
  products : gmap Z Product;
  updatedProducts : gmap Z UpdatedProduct;
  productRevisions : gmap (Z * Z) ProductRevision;
  containers : gmap Z Container;
  updatedContainers : gmap Z UpdatedContainer;
  containerRevisions : gmap (Z * Z) ContainerRevision
}.

Definition emptyStore : Store := mkStore ∅ ∅ ∅ ∅ ∅ ∅.

Definition set_products (f : gmap Z Product -> gmap Z Product) (s : Store) : Store :=
  mkStore (f (products s)) (updatedProducts s) (productRevisions s)
          (containers s) (updatedContainers s) (containerRevisions s).

Definition set_updatedProducts
    (f : gmap Z UpdatedProduct -> gmap Z UpdatedProduct) (s : Store) : Store :=
  mkStore (products s) (f (updatedProducts s)) (productRevisions s)
          (containers s) (updatedContainers s) (containerRevisions s).

Definition set_productRevisions
    (f : gmap (Z * Z) ProductRevision -> gmap (Z * Z) ProductRevision)
    (s : Store) : Store :=
  mkStore (products s) (updatedProducts s) (f (productRevisions s))
          (containers s) (updatedContainers s) (containerRevisions s).

Definition set_containers (f : gmap Z Container -> gmap Z Container) (s : Store) : Store :=
  mkStore (products s) (updatedProducts s) (productRevisions s)
          (f (containers s)) (updatedContainers s) (containerRevisions s).

Definition set_updatedContainers
    (f : gmap Z UpdatedContainer -> gmap Z UpdatedContainer) (s : Store) : Store :=
  mkStore (products s) (updatedProducts s) (productRevisions s)
          (containers s) (f (updatedContainers s)) (containerRevisions s).

Definition set_containerRevisions
    (f : gmap (Z * Z) ContainerRevision -> gmap (Z * Z) ContainerRevision)
    (s : Store) : Store :=
  mkStore (products s) (updatedProducts s) (productRevisions s)
          (containers s) (updatedContainers s) (f (containerRevisions s)).

(** [base.currentRevision ? base.currentRevision + 1 : 1]: an absent
    revision and the number 0 are both falsy. *)
Definition next_revision (currentRevision : option Z) : Z :=
  match currentRevision with
  | Some n => if bool_decide (n = 0) then 1 else n + 1
  | None => 1
  end.

(** ** Saving a revision (part_002, lines 146-150)

    [ProductRevision.save(r)] inserts the row when its key is new.  When a
    row with that key is persisted and [r] differs from it, the save is an
    update, and the [@BeforeUpdate] hook [denyUpdate] throws before anything
    is written; a save that changes no column writes nothing. *)
Definition denyUpdate {A : Type} : M Store A := throw ImmutableError.

Definition saveProductRevision (key : Z * Z) (r : ProductRevision) : M Store unit :=
  fun s =>
    match productRevisions s !! key with
    | None => (Ok tt, set_productRevisions (insert key r) s)
    | Some old => if bool_decide (old = r) then (Ok tt, s) else denyUpdate s
    end.

(** Modelled from the spec: the entity [ContainerRevision] is not among the
    sources; as an immutable-revision entity it refuses in-place mutation
    the way [ProductRevision] does. *)
Definition saveContainerRevision (key : Z * Z) (r : ContainerRevision) : M Store unit :=
  fun s =>
    match containerRevisions s !! key with
    | None => (Ok tt, set_containerRevisions (insert key r) s)
    | Some old => if bool_decide (old = r) then (Ok tt, s) else denyUpdate s
    end.

(** The static [ProductRevision.update(key, fields)] and
    [ProductRevision.delete(key)], which the entity has from the base class
    of the ORM like the [save], [findByIds] and [delete] that the services
    call on the entities.  The ORM runs them as plain UPDATE and DELETE
    statements on the rows that match: no entity is loaded, so no listener
    runs and [denyUpdate] is not called. *)
Definition updateProductRevision (key : Z * Z) (r : ProductRevision) : M Store unit :=
  modify (set_productRevisions
            (fun revs => if bool_decide (is_Some (revs !! key))
                         then <[key := r]> revs else revs)).

Definition deleteProductRevision (key : Z * Z) : M Store unit :=
  modify (set_productRevisions (delete key)).

(** The ways to write new contents over a persisted revision. *)
Inductive mutation : Type :=
| BySave      (* ProductRevision.save(r), r.save() *)
| ByUpdate.   (* ProductRevision.update(key, r) *)

Definition mutate (how : mutation) (key : Z * Z) (r : ProductRevision) : M Store unit :=
  match how with
  | BySave => saveProductRevision key r
  | ByUpdate => updateProductRevision key r
  end.

(** ** Products (product-service.ts) *)

Record ProductRequest : Type := mkProductRequest {
  req_name : string;
  req_price : Z;
  req_category : Z
}.

Record ProductResponse : Type := mkProductResponse {
  p_id : Z;
  p_revision : option Z;     (* absent in the view of a draft *)
  p_name : string;
  p_price : Z;
  p_category : Z
}.

(** [(await this.getUpdatedProducts({ productId }))[0]]. *)
Definition getUpdatedProduct (productId : Z) (s : Store) : option ProductResponse :=
  match products s !! productId, updatedProducts s !! productId with
  | Some _, Some u =>
      Some (mkProductResponse productId None (up_name u) (up_price u) (up_category u))
  | _, _ => None
  end.

(** [(await this.getProducts({ productId }))[0]]: the product joined with
    its current revision. *)
Definition getProduct (productId : Z) (s : Store) : option ProductResponse :=
  match products s !! productId with
  | Some base =>
      match product_currentRevision base with
      | Some n =>
          match productRevisions s !! (productId, n) with
          | Some r =>
              Some (mkProductResponse productId (Some n) (pr_name r) (pr_price r)
                                      (pr_category r))
          | None => None
          end
      | None => None
      end
  | None => None
  end.

(** [updateProduct], lines 347-372. *)
Definition updateProduct (productId : Z) (update : ProductRequest)
    : M Store (option ProductResponse) :=
  fun s =>
    match products s !! productId with
    | None => (Ok None, s)
    | Some base =>
        let s1 := set_updatedProducts
                    (insert productId
                       (mkUpdatedProduct (req_name update) (req_price update)
                                         (req_category update))) s in
        (Ok (getUpdatedProduct productId s1), s1)
    end.

(** [createProduct], lines 384-404. *)
Definition createProduct (owner : Z) (product : ProductRequest)
    : M Store (option ProductResponse) :=
  fun s =>
    let id := next_key (products s) in
    let s1 := set_products (insert id (mkProduct owner None)) s in
    let s2 := set_updatedProducts
                (insert id
                   (mkUpdatedProduct (req_name product) (req_price product)
                                     (req_category product))) s1 in
    (Ok (getUpdatedProduct id s2), s2).

(** [approveProductUpdate], lines 410-444.  The revision takes the fields
    of the draft; owner and category, which the source joins in, are kept
    as keys. *)
Definition approveProductUpdate (productId : Z) : M Store (option ProductResponse) :=
  fun s =>
    match products s !! productId, updatedProducts s !! productId with
    | Some base, Some rawUpdateProduct =>
        let revision := next_revision (product_currentRevision base) in
        (let* _ := saveProductRevision (productId, revision)
                     (mkProductRevision (up_name rawUpdateProduct)
                        (up_price rawUpdateProduct) (up_category rawUpdateProduct)) in
         let* _ := modify (set_products
                     (insert productId (mkProduct (product_owner base) (Some revision)))) in
         let* _ := modify (set_updatedProducts (delete productId)) in
         fun s' => (Ok (getProduct productId s'), s')) s
    | _, _ => (Ok None, s)
    end.

(** ** Containers (container-service.ts) *)

Record ContainerRequest : Type := mkContainerRequest {
  creq_name : string;
  creq_products : list Z;
  creq_public : bool
}.

Record ContainerResponse : Type := mkContainerResponse {
  c_id : Z;
  c_revision : option Z;
  c_name : string
}.

(** [getProductsResponse(containerId, updated)], without the product list
    it fills in; with no matching record the assignment to
    [containerProducts.products] throws. *)
Definition getProductsResponse (containerId : Z) (updated : bool)
    : M Store ContainerResponse :=
  fun s =>
    match containers s !! containerId with
    | None => (Err TypeError, s)
    | Some base =>
        if updated then
          match updatedContainers s !! containerId with
          | Some u => (Ok (mkContainerResponse containerId None (uc_name u)), s)
          | None => (Err TypeError, s)
          end
        else
          match container_currentRevision base with
          | Some n =>
              match containerRevisions s !! (containerId, n) with
              | Some r => (Ok (mkContainerResponse containerId (Some n) (cr_name r)), s)
              | None => (Err TypeError, s)
              end
          | None => (Err TypeError, s)
          end
    end.

(** [updateContainer], lines 819-845: products that do not exist are dropped
    from the draft. *)
Definition updateContainer (containerId : Z) (update : ContainerRequest)
    : M Store (option ContainerResponse) :=
  fun s =>
    match containers s !! containerId with
    | None => (Ok None, s)
    | Some base =>
        let found := filter (fun id => is_Some (products s !! id)) (creq_products update) in
        (let* _ := modify (set_updatedContainers
                     (insert containerId
                        (mkUpdatedContainer (creq_name update) (list_to_set found)))) in
         let* r := getProductsResponse containerId true in
         ret (Some r)) s
    end.

(** [createContainer], lines 752-762. *)
Definition createContainer (owner : Z) (container : ContainerRequest)
    : M Store (option ContainerResponse) :=
  fun s =>
    let id := next_key (containers s) in
    updateContainer id container
      (set_containers (insert id (mkContainer owner (creq_public container) None)) s).

(** [rawContainerUpdate.products.map((product) =>
      ({ revision: product.currentRevision, product: { id: product.id } }))],
    the products being those of the draft that exist. *)
Definition draftProductIds (s : Store) (raw : UpdatedContainer) : list (option Z * Z) :=
  omap (fun id => (fun p => (product_currentRevision p, id)) <$> products s !! id)
       (elements (uc_products raw)).

(** [UpdatedProduct.findByIds(productIds)]: the drafts of the listed
    products. *)
Definition findUpdatedProducts (s : Store) (productIds : list (option Z * Z)) : list Z :=
  filter (fun id => is_Some (updatedProducts s !! id)) (productIds.*2).

(** [ProductRevision.findByIds(productIds)]: the persisted revisions among
    the listed keys; an entry without a revision number matches none. *)
Definition findProductRevisions (s : Store) (productIds : list (option Z * Z))
    : gset (Z * Z) :=
  list_to_set
    (omap (fun k : option Z * Z =>
             match k.1 with
             | Some n => if bool_decide (is_Some (productRevisions s !! (k.2, n)))
                         then Some (k.2, n) else None
             | None => None
             end) productIds).

(** The column [container.public] as the driver returns it. *)
Definition public_column (base : Container) : Z :=
  if container_public base then 1 else 0.

(** [getProductsResponse({ containerId, updated: false })] of the variant
    that approves the pending products itself (lines 460-485): the container
    joined with its current revision, as [asContainerResponse] of that
    variant (lines 89-103) renders it, with [id] filled from the column
    [container_public]. *)
Definition getProductsResponse_lax (containerId : Z) : M Store ContainerResponse :=
  fun s =>
    match containers s !! containerId with
    | None => (Err TypeError, s)
    | Some base =>
        match container_currentRevision base with
        | Some n =>
            match containerRevisions s !! (containerId, n) with
            | Some r => (Ok (mkContainerResponse (public_column base) (Some n) (cr_name r)), s)
            | None => (Err TypeError, s)
            end
        | None => (Err TypeError, s)
        end
    end.

(** The common end of both variants: the revision is saved, the base moves
    to it and the draft is deleted; the answer is [getProductsResponse] of
    the variant, [lax] being the one that approves the pending products. *)
Definition reviseContainer (lax : bool) (containerId : Z) (base : Container)
    (rawContainerUpdate : UpdatedContainer) (productIds : list (option Z * Z))
    : M Store (option ContainerResponse) :=
  fun s =>
    let productRevisions := findProductRevisions s productIds in
    let revision := next_revision (container_currentRevision base) in
    (let* _ := saveContainerRevision (containerId, revision)
                 (mkContainerRevision (uc_name rawContainerUpdate) productRevisions) in
     let* _ := modify (set_containers
                 (insert containerId
                    (mkContainer (container_owner base) (container_public base)
                                 (Some revision)))) in
     let* _ := modify (set_updatedContainers (delete containerId)) in
     let* r := (if lax then getProductsResponse_lax containerId
                else getProductsResponse containerId false) in
     ret (Some r)) s.

(** [approveContainerUpdate], lines 768-812: the variant that refuses
    unapproved products. *)
Definition approveContainerUpdate_strict (containerId : Z)
    : M Store (option ContainerResponse) :=
  fun s =>
    match containers s !! containerId, updatedContainers s !! containerId with
    | Some base, Some rawContainerUpdate =>
        let productIds := draftProductIds s rawContainerUpdate in
        let updatedProducts := findUpdatedProducts s productIds in
        match updatedProducts with
        | _ :: _ => (Err UnapprovedProductError, s)
        | [] => reviseContainer false containerId base rawContainerUpdate productIds s
        end
    | _, _ => (Ok None, s)
    end.

(** [ProductService.approveProductUpdate(p.product.id)
       .then((up) => productIds.push({ revision: up.revision, product: { id: up.id } }))]. *)
Definition approveAndPush (productId : Z) : M Store (option Z * Z) :=
  let* up := approveProductUpdate productId in
  match up with
  | Some up => ret (p_revision up, p_id up)
  | None => throw TypeError
  end.

(** [approveContainerUpdate], lines 358-406: the variant that approves the
    pending products itself. *)
Definition approveContainerUpdate_lax (containerId : Z)
    : M Store (option ContainerResponse) :=
  fun s =>
    match containers s !! containerId, updatedContainers s !! containerId with
    | Some base, Some rawContainerUpdate =>
        let productIds := draftProductIds s rawContainerUpdate in
        let updatedProducts := findUpdatedProducts s productIds in
        (let* pushed := mapM approveAndPush updatedProducts in
         reviseContainer true containerId base rawContainerUpdate (productIds ++ pushed)) s
    | _, _ => (Ok None, s)
    end.

(** ** [canViewContainer] (container-service.ts, lines 886-894) *)

Record ContainerVisibility : Type := mkContainerVisibility {
  vis_own : bool;
  vis_public : bool
}.

Definition canViewContainer (userId containerId : Z) (s : Store) : ContainerVisibility :=
  match containers s !! containerId with
  | None => mkContainerVisibility false false
  | Some container =>
      mkContainerVisibility (bool_decide (container_owner container = userId))
                            (container_public container)
  end.

(** ** [verifyContainer] (container-service.ts, lines 852-857)

    [Array.prototype.every] tests the value its callback returns.  The
    callback here is an [async] function without a [return]: it returns a
    promise of [undefined], and a promise is an object, truthy whatever it
    settles to.  The product that the callback awaits is never looked at. *)

Inductive js_value : Type :=
| JsBoolean (b : bool)
| JsUndefined
| JsPromise (settles_to : js_value).

Definition truthy (v : js_value) : bool :=
  match v with
  | JsBoolean b => b
  | JsUndefined => false
  | JsPromise _ => true
  end.

Definition every {A : Type} (callback : A -> js_value) (l : list A) : bool :=
  forallb (fun a => truthy (callback a)) l.

Definition verifyContainer (containerRequest : ContainerRequest) (s : Store) : bool :=
  bool_decide (creq_name containerRequest <> EmptyString)
  && every (fun productId =>
              let _ := products s !! productId in JsPromise JsUndefined)
           (creq_products containerRequest).

(** ** [combineProducts] (container-service.ts, lines 192-234)

    The rows of the join of containers with their products are grouped by
    container and revision.  The key is the JSON text of revision and id,
    which tells two pairs apart exactly when they differ, so it is the pair;
    the [Map] keeps its entries in the order in which their keys were first
    set.  [asContainerResponse] of this variant fills [id] from the column
    [container_public]. *)

Record RawContainerRow : Type := mkRawContainerRow {
  raw_container_id : Z;
  raw_container_revision : option Z;
  raw_container_name : string;
  raw_container_public : Z;          (* the column as the driver returns it *)
  raw_products_productId : Z;
  raw_products_revision : option Z;
  raw_products_name : string;
  raw_products_price : Z;
  raw_products_categoryId : Z
}.

Record ContainerWithProductsResponse : Type := mkContainerWithProductsResponse {
  cw_id : Z;
  cw_revision : option Z;
  cw_name : string;
  cw_public : bool;
  cw_products : list ProductResponse
}.

Definition asContainerResponse (rawContainer : RawContainerRow)
    : ContainerWithProductsResponse :=
  mkContainerWithProductsResponse
    (raw_container_public rawContainer)
    (raw_container_revision rawContainer)
    (raw_container_name rawContainer)
    (negb (bool_decide (raw_container_public rawContainer = 0)))
    [].

Definition rowKey (response : RawContainerRow) : option Z * Z :=
  (raw_container_revision response, raw_container_id response).

(** [ProductService.asProductResponse(rawProduct)]. *)
Definition rowProduct (response : RawContainerRow) : ProductResponse :=
  mkProductResponse (raw_products_productId response) (raw_products_revision response)
    (raw_products_name response) (raw_products_price response)
    (raw_products_categoryId response).

Definition with_products (c : ContainerWithProductsResponse)
    (ps : list ProductResponse) : ContainerWithProductsResponse :=
  mkContainerWithProductsResponse (cw_id c) (cw_revision c) (cw_name c) (cw_public c) ps.

(** The body of [rawResponse.forEach]. *)
Definition collectRow (mapping : list ((option Z * Z) * ContainerWithProductsResponse))
    (response : RawContainerRow)
    : list ((option Z * Z) * ContainerWithProductsResponse) :=
  let key := rowKey response in
  let productResponse := rowProduct response in
  if bool_decide (key ∈ mapping.*1)
  then (fun e : (option Z * Z) * ContainerWithProductsResponse =>
          if bool_decide (e.1 = key)
          then (e.1, with_products e.2 (cw_products e.2 ++ [productResponse]))
          else e) <$> mapping
  else mapping ++ [(key, with_products (asContainerResponse response) [productResponse])].

Definition combineMapping (rawResponse : list RawContainerRow)
    : list ((option Z * Z) * ContainerWithProductsResponse) :=
  foldl collectRow [] rawResponse.

Definition combineProducts (rawResponse : list RawContainerRow)
    : list ContainerWithProductsResponse :=
  (combineMapping rawResponse).*2.

(** ** Listing products (product-service.ts, lines 213-340)

    [getProducts], [getUpdatedProducts] and [getAllProducts] as they are
    called without a container or point-of-sale filter; the rows come in
    the order of the store.

    Modelled from the spec: [QueryFilter.applyFilter] is not among the
    sources; for each key of the filter mapping that the parameters set it
    adds the condition that the mapped column equals the value. *)

Record ProductParameters : Type := mkProductParameters {
  param_productId : option Z;
  param_productRevision : option Z;
  param_ownerId : option Z
}.

Definition applyFilter (value : option Z) (column : Z) : Prop :=
  match value with
  | Some v => column = v
  | None => True
  end.

#[global] Instance applyFilter_dec value column : Decision (applyFilter value column).
Proof. destruct value; simpl; apply _. Defined.

(** [params.productRevision ? params.productRevision : 'product.currentRevision']. *)
Definition latest (params : ProductParameters) (base : Product) : option Z :=
  match param_productRevision params with
  | Some n => if bool_decide (n = 0) then product_currentRevision base else Some n
  | None => product_currentRevision base
  end.

Definition getProducts (params : ProductParameters) (s : Store) : list ProductResponse :=
  omap (fun row : Z * Product =>
          match latest params row.2 with
          | Some n =>
              (fun r => mkProductResponse row.1 (Some n) (pr_name r) (pr_price r)
                                          (pr_category r))
                <$> productRevisions s !! (row.1, n)
          | None => None
          end)
       (filter (fun row : Z * Product =>
                  applyFilter (param_productId params) row.1
                  /\ applyFilter (param_ownerId params) (product_owner row.2))
               (map_to_list (products s))).

Definition getUpdatedProducts (params : ProductParameters) (s : Store)
    : list ProductResponse :=
  omap (fun row : Z * Product =>
          (fun u => mkProductResponse row.1 None (up_name u) (up_price u) (up_category u))
            <$> updatedProducts s !! row.1)
       (filter (fun row : Z * Product => applyFilter (param_productId params) row.1)
               (map_to_list (products s))).

Definition getAllProducts (params : ProductParameters) (s : Store)
    : list ProductResponse :=
  let updatedProducts := getUpdatedProducts params s in
  let updatedProductIds := p_id <$> updatedProducts in
  let products := getProducts params s in
  let filteredProducts :=
    filter (fun prod : ProductResponse => p_id prod ∉ updatedProductIds) products in
  filteredProducts ++ updatedProducts.

(** ** Runs of the public operations *)

Inductive op : Type :=
| CreateProduct (owner : Z) (product : ProductRequest)
| UpdateProduct (productId : Z) (update : ProductRequest)
| ApproveProduct (productId : Z)
| CreateContainer (owner : Z) (container : ContainerRequest)
| UpdateContainer (containerId : Z) (update : ContainerRequest)
| ApproveContainerStrict (containerId : Z)
| ApproveContainerLax (containerId : Z).

(** What a call came to: it returned a response, returned [undefined], or
    threw. *)
Inductive outcome : Type :=
| Returned
| Undefined
| Threw (e : error).

Definition outcome_of {A : Type} (r : result (option A)) : outcome :=
  match r with
  | Ok (Some _) => Returned
  | Ok None => Undefined
  | Err e => Threw e
  end.

Definition run_op (o : op) (s : Store) : outcome * Store :=
  match o with
  | CreateProduct owner product =>
      let '(r, s') := createProduct owner product s in (outcome_of r, s')
  | UpdateProduct productId update =>
      let '(r, s') := updateProduct productId update s in (outcome_of r, s')
  | ApproveProduct productId =>
      let '(r, s') := approveProductUpdate productId s in (outcome_of r, s')
  | CreateContainer owner container =>
      let '(r, s') := createContainer owner container s in (outcome_of r, s')
  | UpdateContainer containerId update =>
      let '(r, s') := updateContainer containerId update s in (outcome_of r, s')
  | ApproveContainerStrict containerId =>
      let '(r, s') := approveContainerUpdate_strict containerId s in (outcome_of r, s')
  | ApproveContainerLax containerId =>
      let '(r, s') := approveContainerUpdate_lax containerId s in (outcome_of r, s')
  end.

(** A run keeps the store of a call that threw: nothing here is wrapped in
    a transaction. *)
Fixpoint run (ops : list op) (s : Store) : list outcome * Store :=
  match ops with
  | [] => ([], s)
  | o :: ops' =>
      let '(r, s1) := run_op o s in
      let '(rs, s2) := run ops' s1 in
      (r :: rs, s2)
  end.

(** ** Predicates used in the statements *)

(** Every revision row belongs to a base row whose current revision is at
    least the row's number. *)
Definition revisions_behind (s : Store) : Prop :=
  (forall p r, is_Some (productRevisions s !! (p, r)) ->
     exists base n, products s !! p = Some base
       /\ product_currentRevision base = Some n /\ r <= n)
  /\ (forall c r, is_Some (containerRevisions s !! (c, r)) ->
        exists base n, containers s !! c = Some base
          /\ container_currentRevision base = Some n /\ r <= n).

(** The store after an approval of product [p] that left the revisions
    [revs]. *)
Definition approved_store (s : Store) (p : Z) (base : Product)
    (revs : gmap (Z * Z) ProductRevision) : Store :=
  mkStore
    (<[p := mkProduct (product_owner base)
              (Some (next_revision (product_currentRevision base)))]> (products s))
    (delete p (updatedProducts s))
    revs
    (containers s) (updatedContainers s) (containerRevisions s).

(** The store after an approval of container [c] that left the revisions
    [revs]. *)
Definition revised_store (s : Store) (c : Z) (base : Container)
    (revs : gmap (Z * Z) ContainerRevision) : Store :=
  mkStore (products s) (updatedProducts s) (productRevisions s)
    (<[c := mkContainer (container_owner base) (container_public base)
              (Some (next_revision (container_currentRevision base)))]> (containers s))
    (delete c (updatedContainers s))
    revs.

(** An operation on products leaves the container tables alone, and the
    other way round. *)
Definition same_containers (s s' : Store) : Prop :=
  containers s' = containers s /\ updatedContainers s' = updatedContainers s
  /\ containerRevisions s' = containerRevisions s.

Definition same_products (s s' : Store) : Prop :=
  products s' = products s /\ updatedProducts s' = updatedProducts s
  /\ productRevisions s' = productRevisions s.

(** The current-revision pointer after [n] approvals. *)
Definition pointer (n : nat) : option Z :=
  match n with
  | O => None
  | S _ => Some (Z.of_nat n)
  end.

(** Product [p] has been approved [n] times: the base points to [n] and the
    revisions of [p] are those numbered 1 to [n]. *)
Definition product_at (s : Store) (p : Z) (n : nat) : Prop :=
  (exists base, products s !! p = Some base /\ product_currentRevision base = pointer n)
  /\ forall r, is_Some (productRevisions s !! (p, r)) <-> 1 <= r <= Z.of_nat n.

Definition container_at (s : Store) (c : Z) (n : nat) : Prop :=
  (exists base, containers s !! c = Some base /\ container_currentRevision base = pointer n)
  /\ forall r, is_Some (containerRevisions s !! (c, r)) <-> 1 <= r <= Z.of_nat n.

Definition approves_product (p : Z) (o : op) : bool :=
  match o with
  | ApproveProduct q => bool_decide (q = p)
  | _ => false
  end.

Definition approves_container (c : Z) (o : op) : bool :=
  match o with
  | ApproveContainerStrict q | ApproveContainerLax q => bool_decide (q = c)
  | _ => false
  end.

Definition cascades (o : op) : bool :=
  match o with
  | ApproveContainerLax _ => true
  | _ => false
  end.

Definition returned (r : outcome) : bool :=
  match r with
  | Returned => true
  | _ => false
  end.

(** The number of calls selected by [target] that returned a response. *)
Fixpoint approvals (target : op -> bool) (ops : list op) (outs : list outcome) : nat :=
  match ops, outs with
  | o :: ops', r :: outs' =>
      ((if target o && returned r then 1 else 0) + approvals target ops' outs')%nat
  | _, _ => O
  end.

(** Rounds of draft and approval of one base: each of the requests is
    made a draft and approved before the next. *)
Definition approve_each (p : Z) (reqs : list ProductRequest) : list op :=
  reqs ≫= (fun r => [UpdateProduct p r; ApproveProduct p]).

Definition approve_each_container (c : Z) (reqs : list ContainerRequest) : list op :=
  reqs ≫= (fun r => [UpdateContainer c r; ApproveContainerStrict c]).

(** ** Stores used in the examples *)

Definition beer : ProductRequest := mkProductRequest "beer" 150 1.

Definition cheaper_beer : ProductRequest := mkProductRequest "beer" 120 1.

Definition fridge : ContainerRequest := mkContainerRequest "fridge" [1] true.

Definition shelf : ContainerRequest := mkContainerRequest "shelf" [1] false.

(** One product, created and not yet approved. *)
Definition store_with_new_product : Store :=
  (run [CreateProduct 7 beer] emptyStore).2.

(** Product 1 has revision 1 and a new draft; container 1 is a draft that
    lists product 1. *)
Definition store_with_nested_draft : Store :=
  (run [CreateProduct 7 beer; ApproveProduct 1; UpdateProduct 1 cheaper_beer;
        CreateContainer 7 fridge] emptyStore).2.

(** No reference of the store dangles: a draft belongs to a base, a
    container draft lists products that exist, a container revision pins
    product revisions that are persisted, and the current revision of a base
    is persisted. *)
Definition well_linked (s : Store) : Prop :=
  (forall p, is_Some (updatedProducts s !! p) -> is_Some (products s !! p))
  /\ (forall c, is_Some (updatedContainers s !! c) -> is_Some (containers s !! c))
  /\ (forall c raw q, updatedContainers s !! c = Some raw -> q ∈ uc_products raw ->
        is_Some (products s !! q))
  /\ (forall k crev pin, containerRevisions s !! k = Some crev -> pin ∈ cr_products crev ->
        is_Some (productRevisions s !! pin))
  /\ (forall p base n, products s !! p = Some base ->
        product_currentRevision base = Some n ->
        is_Some (productRevisions s !! (p, n)))
  /\ (forall c base n, containers s !! c = Some base ->
        container_currentRevision base = Some n ->
        is_Some (containerRevisions s !! (c, n))).

(** Product 1 has revision 1; container 1, which is not public, is a draft
    that lists it. *)
Definition store_with_private_draft : Store :=
  (run [CreateProduct 7 beer; ApproveProduct 1; CreateContainer 7 shelf] emptyStore).2.

(** Product 1 and container 1, which lists it, both approved once. *)
Definition store_with_approved_container : Store :=
  (run [CreateProduct 7 beer; ApproveProduct 1; CreateContainer 7 fridge;
        ApproveContainerStrict 1] emptyStore).2.

End Revisions.

(** * Properties *)

Lemma sumZ_app (l1 l2 : list Z) : sumZ (l1 ++ l2) = sumZ l1 + sumZ l2.
Proof.
  unfold sumZ. induction l1 as [|x l1 IH]; simpl; [done|]. rewrite IH. lia.
Qed.

Lemma le_foldr_max (l : list Z) (k : Z) : k ∈ l -> k <= foldr Z.max 0 l.
Proof.
  induction l as [|x l IH]; [by intros ?%elem_of_nil|].
  intros [->|Hin]%elem_of_cons; simpl; [lia|]. specialize (IH Hin). lia.
Qed.

Lemma next_key_fresh {A : Type} (m : gmap Z A) : m !! next_key m = None.
Proof.
  destruct (m !! next_key m) as [v|] eqn:Hv; [|done].
  apply elem_of_map_to_list in Hv.
  assert (Hin : next_key m ∈ (map_to_list m).*1)
    by (apply list_elem_of_fmap; by exists (next_key m, v)).
  apply le_foldr_max in Hin. unfold next_key, next_row_id in Hin. lia.
Qed.
Module DebtorProps.
Import Debtor.

(** C1. For every balance [b] in minor units the fine is
    [clamp(floor(-b / 500) * 100, 0, 500)]; a balance of -2500 or lower is
    fined exactly 500, and the balances -499, -500, -999 and -1000 are fined
    0, 100, 100 and 200. *)
Theorem calculateFine_banding (b : Z) :
  calculateFine b = fine_by_spec b
  /\ (b <= -2500 -> calculateFine b = 500)
  /\ calculateFine (-499) = 0
  /\ calculateFine (-500) = 100
  /\ calculateFine (-999) = 100
  /\ calculateFine (-1000) = 200.
Proof.
  unfold fine_by_spec, clamp, calculateFine.
  split; [apply Z.max_comm|].
  split; [|repeat split; reflexivity].
  intros Hb.
  assert (5 <= (- b) / 500) by (apply Z.div_le_lower_bound; lia).
  lia.
Qed.

Lemma calculateFine_banding_witness : calculateFine (-2600) = 500.
Proof.
  apply (proj1 (proj2 (calculateFine_banding (-2600)))). lia.
Defined.

(** ** Persistent debtors *)

Lemma balance_selected_spec db p (r : Z * User) :
  balance_selected db p r
  <-> listed (ids p) r.1 /\ listed (userTypes p) (userType r.2)
      /\ at_most (maxBalance p) (getBalance db r.1 (date p)).
Proof.
  unfold balance_selected. rewrite !andb_True. tauto.
Qed.

Lemma elem_of_getBalances db p (b : BalanceResponse) :
  b ∈ getBalances db p
  <-> exists u, users db !! b_id b = Some u
        /\ listed (ids p) (b_id b) /\ listed (userTypes p) (userType u)
        /\ at_most (maxBalance p) (getBalance db (b_id b) (date p))
        /\ b_amount b = getBalance db (b_id b) (date p).
Proof.
  unfold getBalances. rewrite list_elem_of_fmap. split.
  - intros ([uid u] & -> & Hin). apply list_elem_of_filter in Hin as [Hsel Hin].
    apply elem_of_map_to_list in Hin. apply balance_selected_spec in Hsel.
    simpl in *. exists u. tauto.
  - intros (u & Hu & H1 & H2 & H3 & H4). exists (b_id b, u). split.
    + destruct b as [i a]; simpl in *. by rewrite H4.
    + apply list_elem_of_filter. split.
      * apply balance_selected_spec. simpl. tauto.
      * by apply elem_of_map_to_list.
Qed.

Lemma NoDup_getBalances_ids db p : NoDup (b_id <$> getBalances db p).
Proof.
  unfold getBalances. rewrite <- list_fmap_compose.
  eapply sublist_NoDup; [apply (NoDup_fst_map_to_list (users db))|].
  apply fmap_sublist, sublist_filter.
Qed.

(** C2. [calculateFinesOnDate] returns, once each, exactly the selected
    users whose balance is at most -500 both on the reference date and now,
    each with the fine of the reference-date balance; a user who has
    recovered since, or who is a debtor only now, is not returned. *)
Theorem calculateFinesOnDate_persistent_debtors db uts uids ref :
  (forall r : UserToFineResponse,
      r ∈ calculateFinesOnDate db uts uids ref
      <-> exists u, users db !! f_id r = Some u
            /\ listed uids (f_id r) /\ listed uts (userType u)
            /\ getBalance db (f_id r) ref <= -500
            /\ getBalance db (f_id r) None <= -500
            /\ f_amount r = calculateFine (getBalance db (f_id r) ref))
  /\ NoDup (f_id <$> calculateFinesOnDate db uts uids ref)
  /\ (forall uid, -500 < getBalance db uid None ->
        uid ∉ f_id <$> calculateFinesOnDate db uts uids ref)
  /\ (forall uid, -500 < getBalance db uid ref ->
        uid ∉ f_id <$> calculateFinesOnDate db uts uids ref).
Proof.
  assert (Hchar : forall r : UserToFineResponse,
      r ∈ calculateFinesOnDate db uts uids ref
      <-> exists u, users db !! f_id r = Some u
            /\ listed uids (f_id r) /\ listed uts (userType u)
            /\ getBalance db (f_id r) ref <= -500
            /\ getBalance db (f_id r) None <= -500
            /\ f_amount r = calculateFine (getBalance db (f_id r) ref)).
  { intros r. unfold calculateFinesOnDate. rewrite list_elem_of_fmap. split.
    - intros (b & -> & Hb). apply list_elem_of_filter in Hb as [Hnow Href].
      apply list_elem_of_fmap in Hnow as (b' & Hid & Hnow).
      apply elem_of_getBalances in Href as (u & Hu & H1 & H2 & H3 & H4).
      apply elem_of_getBalances in Hnow as (u' & Hu' & _ & _ & H3' & _).
      simpl in *. rewrite <- Hid in H3'.
      apply Is_true_eq_true, Z.leb_le in H3, H3'.
      exists u. rewrite H4. tauto.
    - intros (u & Hu & H1 & H2 & H3 & H4 & H5).
      exists (mkBalanceResponse (f_id r) (getBalance db (f_id r) ref)). split.
      + destruct r as [i a]; simpl in *. by rewrite H5.
      + apply list_elem_of_filter. split.
        * apply list_elem_of_fmap.
          exists (mkBalanceResponse (f_id r) (getBalance db (f_id r) None)).
          split; [done|]. apply elem_of_getBalances. exists u. simpl.
          repeat split; try done. by apply Is_true_true, Z.leb_le.
        * apply elem_of_getBalances. exists u. simpl.
          repeat split; try done. by apply Is_true_true, Z.leb_le. }
  split; [exact Hchar|]. split; [|split].
  - unfold calculateFinesOnDate. rewrite <- list_fmap_compose.
    eapply sublist_NoDup; [apply NoDup_getBalances_ids|].
    apply fmap_sublist, sublist_filter.
  - intros uid Hlt Hin. apply list_elem_of_fmap in Hin as (r & -> & Hr).
    apply Hchar in Hr as (u & _ & _ & _ & _ & Hnow & _). lia.
  - intros uid Hlt Hin. apply list_elem_of_fmap in Hin as (r & -> & Hr).
    apply Hchar in Hr as (u & _ & _ & _ & Href & _). lia.
Qed.

Lemma calculateFinesOnDate_persistent_debtors_witness :
  2 ∉ f_id <$> calculateFinesOnDate store_with_transient_debtors None None (Some 20).
Proof.
  apply (proj1 (proj2 (proj2 (calculateFinesOnDate_persistent_debtors
           store_with_transient_debtors None None (Some 20))))).
  vm_compute. reflexivity.
Defined.

Example calculateFinesOnDate_transient :
  calculateFinesOnDate store_with_transient_debtors None None (Some 20)
  = [mkUserToFineResponse 1 200].
Proof. vm_compute. reflexivity. Qed.

(** ** The after-insert hook *)

Lemma getBalance_insert db uid id (t : Transfer) :
  getBalance (set_transfers (fun l => l ++ [(id, t)]) db) uid None
  = getBalance db uid None + transfer_contribution uid t.
Proof.
  unfold getBalance. simpl.
  rewrite filter_app, fmap_app, sumZ_app.
  rewrite filter_cons_True by done. simpl. lia.
Qed.

(** The hook does nothing for a transfer without destination. *)
Lemma validateDebtPaid_no_destination (this : Transfer) t :
  toId this = None -> validateDebtPaid this t = (Ok tt, t).
Proof. unfold validateDebtPaid. by intros ->. Qed.

(** Saving a transfer, case by case of the hook: the hook decides on the
    balance of the store as committed, which does not count the new
    transfer, and a hook that throws takes the insert with it. *)
Lemma saveTransfer_eq (from to : option Z) (amt : Z) (db : DB) :
  let id := next_row_id (transfers db) in
  let t := mkTransfer from to amt (clock db) in
  let db1 := set_transfers (fun l => l ++ [(id, t)]) db in
  saveTransfer from to amt db
  = match to with
    | None => (Ok (id, t), db1)
    | Some uid =>
        match users db !! uid with
        | None => (Err TypeError, db)
        | Some user =>
            match user_currentFines db user with
            | None => (Ok (id, t), db1)
            | Some _ =>
                if 0 <=? getBalance db uid None
                then (Ok (id, t),
                      set_users (insert uid (mkUser (userType user) None)) db1)
                else (Ok (id, t), db1)
            end
        end
    end.
Proof.
  intros id t db1. subst id t db1.
  unfold saveTransfer, transaction, bind, via_manager, insertTransfer, validateDebtPaid,
    via_entity, ret.
  cbn [view committed toId snd].
  destruct to as [uid|]; [|done].
  destruct (users db !! uid) as [user|]; [|done].
  destruct (user_currentFines db user); [|done].
  by destruct (0 <=? getBalance db uid None).
Qed.

(** C8, at the failing input: account 1 has an active fine group and a
    balance of -200, and a transfer of 200 to it is saved.  The transfer is
    appended and the balance is now 0, but the hook, which reads the balance
    through the connection's own manager while the insert is not yet
    committed, saw -200: the account's [currentFines] is still set.  The
    store is the old one with the transfer appended. *)
Lemma saveTransfer_misses_paid_debt :
  let db := store_with_active_group in
  exists db',
    saveTransfer None (Some 1) 200 db = (Ok (4, mkTransfer None (Some 1) 200 100), db')
    /\ user_currentFines db (mkUser 1 (Some 7)) = Some (7, mkUserFineGroup 1 None)
    /\ getBalance db 1 None = -200
    /\ getBalance db' 1 None = 0
    /\ users db' !! 1 = Some (mkUser 1 (Some 7))
    /\ db' = set_transfers (fun l => l ++ [(4, mkTransfer None (Some 1) 200 100)]) db.
Proof.
  eexists. split; [vm_compute; reflexivity|].
  split_and!; by vm_compute.
Qed.

(** ** Waiving fines *)

(** C6. [waiveFines] throws when the user does not exist and does nothing
    when the user has no active fine group.  Otherwise, when the store takes
    the transfer, it appends exactly one transfer, to the user and from no
    one, of the sum of the fines of the group, records it as the group's
    waived transfer, clears the user's [currentFines] and leaves the fines in
    place; waiving again then does nothing. *)
Theorem waiveFines_spec (rejected : list Z) (uid : Z) (db : DB) :
  (users db !! uid = None -> waiveFines rejected uid db = (Err NotFoundError, db))
  /\ (forall user, users db !! uid = Some user ->
        user_currentFines db user = None ->
        waiveFines rejected uid db = (Ok tt, db))
  /\ (forall user gid group, users db !! uid = Some user ->
        user_currentFines db user = Some (gid, group) ->
        uid ∉ rejected ->
        let total := sumZ ((fun r : Z * Fine => fine_amount r.2) <$> group_fines db gid) in
        let tid := next_row_id (transfers db) in
        exists db', waiveFines rejected uid db = (Ok tt, db')
          /\ transfers db' = transfers db ++ [(tid, mkTransfer None (Some uid) total (clock db))]
          /\ userFineGroups db'
             = <[gid := mkUserFineGroup (userId group) (Some tid)]> (userFineGroups db)
          /\ users db' = <[uid := mkUser (userType user) None]> (users db)
          /\ fines db' = fines db
          /\ waiveFines rejected uid db' = (Ok tt, db')).
Proof.
  repeat split.
  - intros Hu. unfold waiveFines. by rewrite Hu.
  - intros user Hu Hg. unfold waiveFines. by rewrite Hu, Hg.
  - intros user gid group Hu Hg Hacc total tid.
    assert (Hagain : forall db', users db' = <[uid := mkUser (userType user) None]> (users db) ->
              waiveFines rejected uid db' = (Ok tt, db')).
    { intros db' Hus. unfold waiveFines. by rewrite Hus, lookup_insert_eq. }
    assert (Hmain : exists db', waiveFines rejected uid db = (Ok tt, db')
          /\ transfers db' = transfers db ++ [(tid, mkTransfer None (Some uid) total (clock db))]
          /\ userFineGroups db'
             = <[gid := mkUserFineGroup (userId group) (Some tid)]> (userFineGroups db)
          /\ users db' = <[uid := mkUser (userType user) None]> (users db)
          /\ fines db' = fines db).
    { unfold waiveFines. rewrite Hu, Hg. fold total.
      unfold bind, createTransfer, store_refuses.
      rewrite bool_decide_eq_false_2 by done. simpl.
      rewrite saveTransfer_eq. cbv zeta. rewrite Hu, Hg.
      destruct (0 <=? _); eexists; (split; [reflexivity|]); simpl;
        by rewrite ?insert_insert_eq. }
    destruct Hmain as (db' & Hrun & Hts & Hgs & Hus & Hfs).
    exists db'. split_and!; try done. by apply Hagain.
Qed.

Lemma waiveFines_spec_witness :
  exists db',
    waiveFines [] 1 store_with_two_fines = (Ok tt, db')
    /\ transfers db'
       = transfers store_with_two_fines ++ [(4, mkTransfer None (Some 1) 300 100)]
    /\ userFineGroups db'
       = <[7 := mkUserFineGroup 1 (Some 4)]> (userFineGroups store_with_two_fines)
    /\ users db' = <[1 := mkUser 1 None]> (users store_with_two_fines)
    /\ fines db' = fines store_with_two_fines
    /\ waiveFines [] 1 db' = (Ok tt, db').
Proof.
  apply (proj2 (proj2 (waiveFines_spec [] 1 store_with_two_fines))
           (mkUser 1 (Some 7)) 7 (mkUserFineGroup 1 None)).
  - reflexivity.
  - reflexivity.
  - apply not_elem_of_nil.
Defined.

(** ** Handing out fines *)




Lemma user_currentFines_unlinked v user :
  currentFines user = None -> user_currentFines v user = None.
Proof. unfold user_currentFines. by intros ->. Qed.






Lemma insertFines_ok (fs : list (Fine * Z)) :
  forall db, exists rows,
    mapM insertFine fs db
    = (Ok (zip_with (fun (row : Z * Fine) (f : Fine * Z) =>
                       mkFineResponse row.1 f.2 (fine_amount f.1)) rows fs),
       mkDB (clock db) (users db) (userFineGroups db) (transfers db)
            (transactions db) (fines db ++ rows) (fineHandoutEvents db))
    /\ rows.*2 = fs.*1.
Proof.
  induction fs as [|f fs IH]; intros db.
  - exists []. simpl. rewrite app_nil_r. by destruct db.
  - destruct (IH (set_fines (fun l => l ++ [(next_row_id (fines db), f.1)]) db))
      as (rows & Hrun & Hrows).
    exists ((next_row_id (fines db), f.1) :: rows). split.
    + simpl. unfold bind at 1. unfold insertFine at 1. unfold bind at 1.
      rewrite Hrun. simpl. by rewrite <- app_assoc.
    + rewrite !fmap_cons. by rewrite Hrows.
Qed.

(** ** The callbacks in turn *)

Lemma pendingFrom_app i (done rest : list (BalanceResponse * Stage)) :
  Forall (fun c => pending c.2 = false) done ->
  pendingFrom i (done ++ rest) = pendingFrom (i + length done) rest.
Proof.
  revert i. induction done as [|c done IH]; intros i Hd; simpl.
  - by rewrite Nat.add_0_r.
  - apply Forall_cons in Hd as [Hc Hd]. rewrite Hc. simpl.
    rewrite IH by done. f_equal. lia.
Qed.

Lemma interleave_returned rejected db0 previous eid date fuel order cbs emails t :
  Forall (fun c => pending c.2 = false) cbs ->
  interleave rejected db0 previous eid date fuel order cbs emails t = (Ok (cbs, emails), t).
Proof.
  intros Hd. destruct fuel; [done|]. cbn [interleave].
  rewrite <- (app_nil_r cbs) at 1 2. rewrite pendingFrom_app by done. done.
Qed.

(** With the empty order the first callback that has not returned goes on. *)
Lemma interleave_first rejected db0 previous eid date fuel done b s rest emails t :
  Forall (fun c => pending c.2 = false) done -> pending s = true ->
  interleave rejected db0 previous eid date (S fuel) [] (done ++ (b, s) :: rest) emails t
  = match advance rejected db0 previous eid date b s t with
    | (Ok s', t') =>
        interleave rejected db0 previous eid date fuel []
          (done ++ (b, s') :: rest) (emails ++ pushed s') t'
    | (Err e, t') => (Err e, t')
    end.
Proof.
  intros Hd Hs. cbn [interleave]. rewrite pendingFrom_app by done.
  cbn [pendingFrom snd]. rewrite Hs. cbn [hd tl app].
  rewrite Nat.Div0.mod_0_l. cbn [lookup list_lookup].
  rewrite list_lookup_middle by done.
  destruct (advance rejected db0 previous eid date b s t) as [[s'|e] t']; [|done].
  replace (0 + length done)%nat with (length done + 0)%nat by lia.
  by rewrite insert_app_r.
Qed.

(** A callback that goes from [await] to [await] with no other in between
    is the body [fineUser]. *)
Lemma interleave_fineUser rejected db0 previous eid date fuel done b rest emails t :
  Forall (fun c => pending c.2 = false) done ->
  interleave rejected db0 previous eid date (4 + fuel) []
    (done ++ (b, Started) :: rest) emails t
  = match fineUser rejected db0 previous eid date b t with
    | (Ok out, t') =>
        interleave rejected db0 previous eid date (spare b (view t) + fuel) []
          ((done ++ [(b, Returned out)]) ++ rest) (emails ++ [out.2]) t'
    | (Err e, t') => (Err e, t')
    end.
Proof.
  intros Hd. unfold spare, fineUser.
  cbn [Nat.add]. rewrite interleave_first by done. cbn [advance].
  destruct (users (view t) !! b_id b) as [user|]; [|done].
  unfold bind at 1. unfold groupFor.
  destruct (user_currentFines (view t) user) as [[gid g]|].
  - rewrite interleave_first by done. cbn [advance].
    unfold bind, via_manager, ret. cbn [pushed].
    destruct (createTransfer rejected (Some (b_id b)) None (calculateFine (b_amount b))
                (view t)) as [[tr|e] v]; [|done].
    cbn [pushed Nat.add]. by rewrite <- !app_assoc.
  - rewrite interleave_first by done. cbn [advance].
    unfold bind, via_entity, via_manager, modify, ret.
    cbn [view committed pushed fst snd].
    destruct (0 <? calculateFine (b_amount b)).
    + cbn [pushed]. rewrite interleave_first by done. cbn [advance].
      unfold bind, via_entity, via_manager, modify, ret.
      cbn [view committed pushed fst snd].
      rewrite interleave_first by done. cbn [advance].
      unfold bind, via_entity, via_manager, modify, ret.
      cbn [view committed pushed fst snd].
      destruct (createTransfer rejected (Some (b_id b)) None (calculateFine (b_amount b)) _)
        as [[tr|e] v]; [|done].
      cbn [pushed Nat.add fst snd]. by rewrite <- !app_assoc.
    + cbn [pushed]. rewrite interleave_first by done. cbn [advance].
      unfold bind, via_entity, via_manager, modify, ret.
      cbn [view committed pushed fst snd].
      destruct (createTransfer rejected (Some (b_id b)) None (calculateFine (b_amount b)) _)
        as [[tr|e] v]; [|done].
      cbn [pushed Nat.add fst snd]. by rewrite <- !app_assoc.
Qed.

Lemma interleave_in_turn rejected db0 previous eid date (bs : list BalanceResponse) :
  forall fuel done emails t,
    (4 * length bs <= fuel)%nat ->
    Forall (fun c => pending c.2 = false) done ->
    interleave rejected db0 previous eid date fuel []
      (done ++ ((fun b => (b, Started)) <$> bs)) emails t
    = match mapM (fineUser rejected db0 previous eid date) bs t with
      | (Ok outs, t') =>
          (Ok (done ++ zip_with (fun b out => (b, Returned out)) bs outs,
               emails ++ outs.*2), t')
      | (Err e, t') => (Err e, t')
      end.
Proof.
  induction bs as [|b bs IH]; intros fuel done emails t Hfuel Hd.
  - simpl. rewrite !app_nil_r. by apply interleave_returned.
  - simpl in Hfuel. replace fuel with (4 + (fuel - 4))%nat by lia.
    rewrite fmap_cons, interleave_fineUser by done.
    cbn [mapM]. unfold bind at 1.
    destruct (fineUser rejected db0 previous eid date b t) as [[out|e] t1]; [|done].
    rewrite IH.
    + unfold bind at 1.
      destruct (mapM (fineUser rejected db0 previous eid date) bs t1) as [[outs|e] t2];
        [|done].
      unfold ret. cbn [zip_with fmap list_fmap]. by rewrite <- !app_assoc.
    + lia.
    + apply Forall_app. split; [done|]. by apply Forall_singleton.
Qed.

Lemma mapM_length {S A B : Type} (f : A -> M S B) (l : list A) :
  forall s outs s', mapM f l s = (Ok outs, s') -> length outs = length l.
Proof.
  induction l as [|a l IH]; intros s outs s'; [by intros [= <- _]|].
  simpl. unfold bind at 1. destruct (f a s) as [[b|e] s1]; [|done].
  unfold bind at 1. destruct (mapM f l s1) as [[bs|e] s2] eqn:Hloop; [|done].
  intros [= <- _]. simpl. by rewrite (IH _ _ _ Hloop).
Qed.

Lemma returnedBy_zip (bs : list BalanceResponse) (outs : list (Fine * Z * Email)) :
  length outs = length bs ->
  returnedBy (zip_with (fun b out => (b, Returned out)) bs outs) = outs.
Proof.
  revert outs. induction bs as [|b bs IH]; intros [|out outs] Hlen; try done.
  unfold returnedBy in *. cbn. f_equal. apply IH. simpl in Hlen. lia.
Qed.

Lemma handOutFines_unfold rejected referenceDate userIds createdBy db :
  let date := handoutDate referenceDate db in
  let eid := next_row_id (fineHandoutEvents db) in
  let v0 := set_fineHandoutEvents
              (fun l => l ++ [(eid, mkFineHandoutEvent date createdBy (clock db))]) db in
  handOutFines rejected referenceDate userIds createdBy db
  = match mapM (fineUser rejected db (latestEvent db) eid date)
               (handoutRecords referenceDate userIds db) (mkTx db v0) with
    | (Ok fs, t1) =>
        match mapM insertFine (fs.*1) (view t1) with
        | (Ok saved, v2) =>
            (Ok (mkFineHandoutEventResponse eid date createdBy saved, fs.*2), v2)
        | (Err e, _) => (Err e, committed t1)
        end
    | (Err e, t1) => (Err e, committed t1)
    end.
Proof.
  intros date eid v0. unfold handOutFines, handOutFinesIn, transaction.
  unfold bind at 1. unfold bind at 1. unfold via_manager at 1. unfold insertEvent.
  cbn [view committed]. fold date eid v0.
  unfold bind at 1.
  pose proof (interleave_in_turn rejected db (latestEvent db) eid date
                (handoutRecords referenceDate userIds db) _ [] [] (mkTx db v0)
                (le_n _) (Forall_nil_2 _)) as Hturn.
  cbn [app] in Hturn. rewrite Hturn.
  destruct (mapM _ _ (mkTx db v0)) as [[fs|e] t1] eqn:Hloop; [|done].
  cbn [fst snd app]. rewrite returnedBy_zip by exact (mapM_length _ _ _ _ _ Hloop).
  unfold bind at 1. unfold via_manager.
  destruct (mapM insertFine _ (view t1)) as [[saved|e] v2]; done.
Qed.

Lemma calculateFine_non_debtor (balance : Z) : -500 < balance -> calculateFine balance = 0.
Proof.
  intros Hb. unfold calculateFine.
  assert ((- balance) / 500 <= 0).
  { destruct (Z.le_gt_cases ((- balance) / 500) 0) as [|Hgt]; [done|].
    assert (500 * 1 <= - balance); [|lia].
    etrans; [|apply (Z.mul_div_le (- balance) 500); lia]. lia. }
  lia.
Qed.

(** C10, as stated, fails: a user who is not a debtor on the reference date
    but still has an active fine group gets a fine and a transfer of 0, and
    no fine group is created for them. *)
Lemma handOutFines_group_not_always_created :
  ~ (forall rejected referenceDate userIds createdBy db resp emails db' b,
       handOutFines rejected referenceDate userIds createdBy db = (Ok (resp, emails), db') ->
       b ∈ handoutRecords referenceDate userIds db ->
       -500 < b_amount b ->
       group_created_for db db' (b_id b)).
Proof.
  intros Hclaim.
  destruct (handOutFines [] (Some 100) [1] 9 store_with_active_group) as [r db'] eqn:Hrun.
  vm_compute in Hrun. injection Hrun as <- <-.
  destruct (Hclaim [] (Some 100) [1] 9 store_with_active_group _ _ _
              (mkBalanceResponse 1 (-200)) eq_refl) as (gid & g & Hnew & Hold & _).
  - vm_compute. apply list_elem_of_singleton. reflexivity.
  - simpl. lia.
  - simpl in Hnew, Hold. rewrite Hnew in Hold. discriminate.
Qed.

Lemma kept_refl c : kept c c.
Proof. by unfold kept. Qed.

Lemma kept_trans c1 c2 c3 : kept c1 c2 -> kept c2 c3 -> kept c1 c3.
Proof.
  intros (? & ? & ? & ? & ? & ? & ?) (? & ? & ? & ? & ? & ? & ?).
  unfold kept. split_and!; try congruence. auto.
Qed.

Lemma saveTransfer_no_destination from amt db :
  saveTransfer from None amt db
  = (Ok (next_row_id (transfers db), mkTransfer from None amt (clock db)),
     set_transfers (fun l => l ++ [(next_row_id (transfers db),
                                    mkTransfer from None amt (clock db))]) db).
Proof. reflexivity. Qed.

(** A step of a callback leaves in the store as committed at most a new
    fine group. *)
Lemma advance_kept rejected db0 previous eid date (b : BalanceResponse) s t r t' :
  userFineGroups (committed t) = userFineGroups (view t) ->
  advance rejected db0 previous eid date b s t = (r, t') ->
  kept (committed t) (committed t')
  /\ userFineGroups (committed t') = userFineGroups (view t').
Proof.
  intros Hinv. destruct s as [|user|user gid|gid guser gfines|out]; cbn [advance].
  - destruct (users (view t) !! b_id b) as [user|];
      [|intros [= <- <-]; by split; [apply kept_refl|]].
    destruct (user_currentFines (view t) user) as [[gid g]|];
      intros [= <- <-]; by split; [apply kept_refl|].
  - unfold bind, via_entity, ret. intros [= <- <-]. simpl. split; [|by rewrite Hinv].
    unfold kept. simpl. split_and!; try done. intros gid g Hl.
    rewrite lookup_insert_ne; [done|]. intros <-.
    rewrite Hinv in Hl. by rewrite next_key_fresh in Hl.
  - unfold bind, via_manager, modify, ret. intros [= <- <-]. simpl.
    by split; [apply kept_refl|].
  - unfold bind, via_manager, createTransfer.
    destruct (store_refuses rejected (Some (b_id b)) None).
    + intros [= <- <-]. by split; [apply kept_refl|].
    + rewrite saveTransfer_no_destination. intros [= <- <-].
      by split; [apply kept_refl|].
  - intros [= <- <-]. by split; [apply kept_refl|].
Qed.

Lemma interleave_kept rejected db0 previous eid date fuel :
  forall order cbs emails t r t',
    userFineGroups (committed t) = userFineGroups (view t) ->
    interleave rejected db0 previous eid date fuel order cbs emails t = (r, t') ->
    kept (committed t) (committed t').
Proof.
  induction fuel as [|fuel IH]; intros order cbs emails t r t' Hinv.
  - intros [= <- <-]. apply kept_refl.
  - cbn [interleave].
    destruct (pendingFrom 0 cbs !! _) as [i|]; [|intros [= <- <-]; apply kept_refl].
    destruct (cbs !! i) as [[b s]|]; [|intros [= <- <-]; apply kept_refl].
    destruct (advance rejected db0 previous eid date b s t) as [[s'|e] t1] eqn:Hstep;
      destruct (advance_kept _ _ _ _ _ _ _ _ _ _ Hinv Hstep) as [Hk Hinv1].
    + intros Hrest. exact (kept_trans _ _ _ Hk (IH _ _ _ _ _ _ Hinv1 Hrest)).
    + by intros [= <- <-].
Qed.

(** A failed hand-out leaves no event, fine or transfer and no change to a
    user, whatever the order of its callbacks; what may stay behind are fine
    groups. *)
Lemma handOutFines_failure order rejected referenceDate userIds createdBy db e db' :
  handOutFinesIn order rejected referenceDate userIds createdBy db = (Err e, db') ->
  kept db db'.
Proof.
  unfold handOutFinesIn, transaction.
  unfold bind at 1. unfold bind at 1. unfold via_manager at 1. unfold insertEvent.
  cbn [view committed]. unfold bind at 1.
  destruct (interleave _ _ _ _ _ _ _ _ _ _) as [[all|e'] t1] eqn:Hloop.
  - unfold bind at 1. unfold via_manager.
    destruct (insertFines_ok ((returnedBy all.1).*1) (view t1)) as (rows & -> & _).
    discriminate.
  - intros [= <- <-].
    refine (interleave_kept _ _ _ _ _ _ _ _ _ (mkTx db _) _ _ _ Hloop). reflexivity.
Qed.

(** C3, at the failing input: two debtors without a fine group are fined
    in one call and the store refuses the transfer of user 1.  The call
    fails, and the event, the transfers, the fines and the users'
    [currentFines] are as before; but the fine group that the call saved for
    user 1 with [userFineGroup.save()] stays in the store. *)
Lemma handOutFines_leaves_groups_behind :
  let db := store_with_two_debtors in
  exists db',
    handOutFines [1] None [1; 2] 9 db = (Err StoreFailure, db')
    /\ fineHandoutEvents db' = fineHandoutEvents db
    /\ fines db' = fines db
    /\ transfers db' = transfers db
    /\ users db' = users db
    /\ userFineGroups db = ∅
    /\ group_created_for db db' 1.
Proof.
  eexists. split; [vm_compute; reflexivity|].
  split_and!; [by vm_compute..|].
  exists 2, (mkUserFineGroup 1 None). by vm_compute.
Qed.

(** ** Bounds of the fine *)

(** X1. The fine is a multiple of 100 between 0 and 500, and it is 0
    exactly for a balance above -500. *)
Theorem calculateFine_range (balance : Z) :
  0 <= calculateFine balance <= 500
  /\ (100 | calculateFine balance)
  /\ (calculateFine balance = 0 <-> -500 < balance).
Proof.
  split; [unfold calculateFine; lia|]. split.
  - unfold calculateFine.
    destruct (Z.le_gt_cases ((- balance) / 500 * 100) 500) as [Hle|Hgt].
    + destruct (Z.le_gt_cases 0 ((- balance) / 500 * 100)) as [Hpos|Hneg].
      * rewrite Z.min_l, Z.max_l by lia. by apply Z.divide_factor_r.
      * rewrite Z.min_l, Z.max_r by lia. apply Z.divide_0_r.
    + rewrite Z.min_r, Z.max_l by lia. by exists 5.
  - split; [|apply calculateFine_non_debtor].
    intros Hzero. destruct (Z.le_gt_cases balance (-500)) as [Hle|]; [|lia].
    assert (1 <= (- balance) / 500) by (apply Z.div_le_lower_bound; lia).
    unfold calculateFine in Hzero. lia.
Qed.

(** X2. A deeper debt is never fined less: the fine does not increase with
    the balance. *)
Theorem calculateFine_monotone (b1 b2 : Z) :
  b1 <= b2 -> calculateFine b2 <= calculateFine b1.
Proof.
  intros Hle. unfold calculateFine.
  assert ((- b2) / 500 <= (- b1) / 500) by (apply Z.div_le_mono; lia).
  lia.
Qed.

Lemma calculateFine_monotone_witness : calculateFine (-400) <= calculateFine (-900).
Proof. apply (calculateFine_monotone (-900) (-400)). lia. Defined.

(** X3. Every fine that [calculateFinesOnDate] proposes is at least 100 and
    at most 500: a user who would be fined nothing is never listed. *)
Theorem calculateFinesOnDate_fines_positive db uts uids ref :
  Forall (fun r : UserToFineResponse => 100 <= f_amount r <= 500)
         (calculateFinesOnDate db uts uids ref).
Proof.
  apply Forall_forall. intros r Hr. unfold calculateFinesOnDate in Hr.
  apply list_elem_of_fmap in Hr as (b & -> & Hb).
  apply list_elem_of_filter in Hb as [_ Href].
  apply elem_of_getBalances in Href as (u & _ & _ & _ & Hmax & Hamount).
  simpl in *. apply Is_true_eq_true, Z.leb_le in Hmax. rewrite Hamount.
  assert (1 <= (- getBalance db (b_id b) ref) / 500)
    by (apply Z.div_le_lower_bound; lia).
  unfold calculateFine. lia.
Qed.

(** ** More on a hand-out that the store accepts *)


(** X4. A hand-out for no user, or for user ids that do not exist, still
    succeeds and records an event, without fines, transfers or mails. *)
Theorem handOutFines_without_users rejected referenceDate userIds createdBy db :
  (forall uid, uid ∈ userIds -> users db !! uid = None) ->
  let eid := next_row_id (fineHandoutEvents db) in
  let date := handoutDate referenceDate db in
  handOutFines rejected referenceDate userIds createdBy db
  = (Ok (mkFineHandoutEventResponse eid date createdBy [], []),
     set_fineHandoutEvents
       (fun l => l ++ [(eid, mkFineHandoutEvent date createdBy (clock db))]) db).
Proof.
  intros Hnone eid date. rewrite handOutFines_unfold. cbv zeta.
  assert (Hrec : handoutRecords referenceDate userIds db = []).
  { destruct (handoutRecords referenceDate userIds db) as [|b l] eqn:Hl; [done|].
    assert (Hb : b ∈ handoutRecords referenceDate userIds db)
      by (rewrite Hl; apply list_elem_of_here).
    apply elem_of_getBalances in Hb as (u & Hu & Hids & _). simpl in Hids.
    apply bool_decide_unpack in Hids. by rewrite (Hnone _ Hids) in Hu. }
  rewrite Hrec. reflexivity.
Qed.

Lemma handOutFines_without_users_witness :
  handOutFines [] None [5] 9 store_with_two_debtors
  = (Ok (mkFineHandoutEventResponse 1 100 9 [], []),
     set_fineHandoutEvents (fun l => l ++ [(1, mkFineHandoutEvent 100 9 100)])
       store_with_two_debtors).
Proof.
  apply (handOutFines_without_users [] None [5] 9 store_with_two_debtors).
  intros uid Huid. apply list_elem_of_singleton in Huid. rewrite Huid. reflexivity.
Defined.






(** ** Balances after fines *)

Lemma getBalance_app db db' trs uid date :
  transfers db' = transfers db ++ trs ->
  transactions db' = transactions db ->
  getBalance db' uid date
  = getBalance db uid date
    + sumZ ((fun r : Z * Transfer => transfer_contribution uid r.2)
              <$> filter (fun r : Z * Transfer => dated date (transfer_createdAt r.2)) trs).
Proof.
  intros Ht Hx. unfold getBalance. rewrite Ht, Hx.
  rewrite filter_app, fmap_app, sumZ_app. lia.
Qed.




(** ** Warnings *)

Lemma calculateFinesOnDate_listed db uts uids ref (r : UserToFineResponse) :
  r ∈ calculateFinesOnDate db uts uids ref ->
  exists u, users db !! f_id r = Some u
    /\ listed uids (f_id r)
    /\ getBalance db (f_id r) ref <= -500
    /\ getBalance db (f_id r) None <= -500
    /\ f_amount r = calculateFine (getBalance db (f_id r) ref).
Proof.
  unfold calculateFinesOnDate. rewrite list_elem_of_fmap.
  intros (b & -> & Hb). apply list_elem_of_filter in Hb as [Hnow Href].
  apply list_elem_of_fmap in Hnow as (b' & Hid & Hnow).
  apply elem_of_getBalances in Href as (u & Hu & H1 & _ & H3 & H4).
  apply elem_of_getBalances in Hnow as (u' & _ & _ & _ & H3' & _).
  simpl in *. rewrite <- Hid in H3'.
  apply Is_true_eq_true, Z.leb_le in H3, H3'.
  exists u. rewrite H4. tauto.
Qed.

Lemma collect_inr {E A B : Type} (f : A -> E + B) (P : A -> B -> Prop) (l : list A) :
  (forall a, a ∈ l -> exists b, f a = inr b /\ P a b) ->
  exists bs, collect f l = inr bs /\ Forall2 P l bs.
Proof.
  induction l as [|a l IH]; intros Hall.
  - exists []. by split.
  - destruct (Hall a) as (b & Hb & HP); [by left|].
    destruct IH as (bs & Hbs & HPs); [intros a' Ha'; apply Hall; by right|].
    exists (b :: bs). simpl. rewrite Hb, Hbs. split; [done|]. by constructor.
Qed.

Lemma sendFineWarnings_run referenceDate userIds db :
  let date := handoutDate referenceDate db in
  exists mails,
    sendFineWarnings referenceDate userIds db = inr mails
    /\ Forall2 (fun (f : UserToFineResponse) (w : FineWarning) =>
                  warning_user w = f_id f
                  /\ warning_referenceDate w = date
                  /\ warning_balance w = getBalance db (f_id f) (Some date)
                  /\ warning_fine w = calculateFine (getBalance db (f_id f) referenceDate)
                  /\ getBalance db (f_id f) referenceDate <= -500
                  /\ getBalance db (f_id f) None <= -500
                  /\ mkBalanceResponse (f_id f) (getBalance db (f_id f) (Some date))
                     ∈ handoutRecords referenceDate userIds db)
               (calculateFinesOnDate db None (Some userIds) referenceDate) mails.
Proof.
  intros date. unfold sendFineWarnings. fold date.
  set (balances := handoutRecords referenceDate userIds db).
  apply collect_inr.
  intros f Hf. apply calculateFinesOnDate_listed in Hf as (u & Hu & Hl & Href & Hnow & Hamt).
  unfold warnUser. rewrite Hu.
  assert (Hrec : mkBalanceResponse (f_id f) (getBalance db (f_id f) (Some date))
                 ∈ balances).
  { apply elem_of_getBalances. exists u. simpl. by split_and!. }
  assert (Hin : mkBalanceResponse (f_id f) (getBalance db (f_id f) (Some date))
                ∈ filter (fun b : BalanceResponse => b_id b = f_id f) balances)
    by (by apply list_elem_of_filter).
  destruct (filter (fun b : BalanceResponse => b_id b = f_id f) balances)
    as [|b l] eqn:Hfilter; [by apply elem_of_nil in Hin|].
  assert (Hb : b ∈ filter (fun b : BalanceResponse => b_id b = f_id f) balances)
    by (rewrite Hfilter; apply list_elem_of_here).
  apply list_elem_of_filter in Hb as [Hid Hb].
  apply elem_of_getBalances in Hb as (_ & _ & _ & _ & _ & Hbal). simpl in Hbal.
  eexists. split; [reflexivity|]. simpl. rewrite Hbal, Hid. by split_and!.
Qed.

(** X8. [sendFineWarnings] never fails with 'Missing balance' or on a
    missing user.  It mails, once each and in the order of
    [calculateFinesOnDate], exactly the users that [calculateFinesOnDate]
    returns for the given ids and the reference date as given; the fine in
    the mail is the fine of the balance on that reference date (of the
    current balance when none is given), while the balance in the mail is the
    balance on the date that falls back to the latest hand-out event. *)
Theorem sendFineWarnings_mails referenceDate userIds db :
  let date := handoutDate referenceDate db in
  exists mails,
    sendFineWarnings referenceDate userIds db = inr mails
    /\ warning_user <$> mails
       = f_id <$> calculateFinesOnDate db None (Some userIds) referenceDate
    /\ Forall (fun w : FineWarning =>
                 warning_referenceDate w = date
                 /\ warning_balance w = getBalance db (warning_user w) (Some date)
                 /\ warning_fine w
                    = calculateFine (getBalance db (warning_user w) referenceDate)
                 /\ getBalance db (warning_user w) referenceDate <= -500
                 /\ getBalance db (warning_user w) None <= -500) mails.
Proof.
  intros date.
  destruct (sendFineWarnings_run referenceDate userIds db) as (mails & Hrun & Hall).
  fold date in Hall. exists mails. split; [done|]. split.
  - clear Hrun. induction Hall as [|f w fs ws (Hid & _) _ IH]; [done|].
    rewrite !fmap_cons. by rewrite Hid, IH.
  - clear Hrun. induction Hall as [|f w fs ws (Hid & H1 & H2 & H3 & H4 & H5 & _) _ IH];
      [done|].
    constructor; [|done]. rewrite Hid. by split_and!.
Qed.

(** ** Deleting a fine *)

Lemma head_filter_key {A : Type} (l : list (Z * A)) (k : Z) (v : A) :
  NoDup (l.*1) -> (k, v) ∈ l ->
  head (filter (fun r : Z * A => r.1 = k) l) = Some (k, v).
Proof.
  induction l as [|[k' v'] l IH]; [by intros _ ?%elem_of_nil|].
  rewrite fmap_cons. intros [Hfresh Hnd]%NoDup_cons [Heq|Hin]%elem_of_cons.
  - injection Heq as <- <-. by rewrite filter_cons_True.
  - rewrite filter_cons_False; [by apply IH|].
    simpl. intros ->. apply Hfresh. by apply (list_elem_of_fmap_2 fst) in Hin.
Qed.

Lemma deleteFine_eq id (fine : Fine) (t : Transfer) db :
  NoDup ((fines db).*1) -> (id, fine) ∈ fines db ->
  NoDup ((transfers db).*1) -> (transfer fine, t) ∈ transfers db ->
  is_Some (userFineGroups db !! userFineGroup fine) ->
  deleteFine id db
  = (Ok tt,
     mkDB (clock db) (users db)
       (if bool_decide (length (group_fines db (userFineGroup fine)) = 1%nat)
        then delete (userFineGroup fine) (userFineGroups db)
        else userFineGroups db)
       (filter (fun r : Z * Transfer => r.1 <> transfer fine) (transfers db))
       (transactions db)
       (filter (fun r : Z * Fine => r.1 <> id) (fines db))
       (fineHandoutEvents db)).
Proof.
  intros Hnf Hf Hnt Ht [g Hg]. unfold deleteFine.
  rewrite (head_filter_key _ _ _ Hnf Hf), (head_filter_key _ _ _ Hnt Ht), Hg.
  unfold bind, modify. simpl.
  by destruct (bool_decide (length (group_fines db (userFineGroup fine)) = 1%nat)).
Qed.

(** X10. [deleteFine] of an id that no fine has changes nothing.  For a fine
    of a store with unique keys whose transfer and group exist, it removes
    that fine and that transfer and no other fine or transfer, keeps every
    hand-out event (also one left without fines) and every other group, and
    removes the fine's group exactly when no fine of the group is left. *)
Theorem deleteFine_spec id db :
  ((forall fine, (id, fine) ∉ fines db) -> deleteFine id db = (Ok tt, db))
  /\ (forall fine t,
        NoDup ((fines db).*1) -> (id, fine) ∈ fines db ->
        NoDup ((transfers db).*1) -> (transfer fine, t) ∈ transfers db ->
        is_Some (userFineGroups db !! userFineGroup fine) ->
        exists db', deleteFine id db = (Ok tt, db')
          /\ (forall r, r ∈ fines db' <-> r ∈ fines db /\ r.1 <> id)
          /\ (forall r, r ∈ transfers db' <-> r ∈ transfers db /\ r.1 <> transfer fine)
          /\ fineHandoutEvents db' = fineHandoutEvents db
          /\ (forall gid, gid <> userFineGroup fine ->
                userFineGroups db' !! gid = userFineGroups db !! gid)
          /\ (group_fines db' (userFineGroup fine) = [] ->
                userFineGroups db' !! userFineGroup fine = None)
          /\ (group_fines db' (userFineGroup fine) <> [] ->
                userFineGroups db' !! userFineGroup fine
                = userFineGroups db !! userFineGroup fine)).
Proof.
  split.
  - intros Hnone. unfold deleteFine.
    destruct (filter (fun r : Z * Fine => r.1 = id) (fines db)) as [|[id' fine] l] eqn:Hfilter;
      [done|].
    assert (Hin : (id', fine) ∈ filter (fun r : Z * Fine => r.1 = id) (fines db))
      by (rewrite Hfilter; apply list_elem_of_here).
    apply list_elem_of_filter in Hin as [Hid Hin]. simpl in Hid. subst id'.
    by destruct (Hnone fine).
  - intros fine t Hnf Hf Hnt Ht Hg.
    eexists. split; [exact (deleteFine_eq id fine t db Hnf Hf Hnt Ht Hg)|].
    set (gid := userFineGroup fine).
    assert (Hleft : group_fines db gid
                    = (id, fine) :: [] <->
                    filter (fun r : Z * Fine => r.1 <> id) (group_fines db gid) = []).
    { assert (Hmem : (id, fine) ∈ group_fines db gid)
        by (by apply list_elem_of_filter).
      assert (Hnd : NoDup ((group_fines db gid).*1)).
      { eapply sublist_NoDup; [exact Hnf|]. apply fmap_sublist, sublist_filter. }
      clear -Hmem Hnd. induction (group_fines db gid) as [|[k v] l IH];
        [by apply elem_of_nil in Hmem|].
      rewrite fmap_cons in Hnd. apply NoDup_cons in Hnd as [Hfresh Hnd].
      apply elem_of_cons in Hmem as [Heq|Hin].
      - injection Heq as <- <-. rewrite filter_cons_False by (simpl; tauto).
        split; [intros [= ->]; done|]. intros Hnil. f_equal.
        destruct l as [|[k v] l]; [done|]. exfalso.
        rewrite filter_cons_True in Hnil; [done|]. simpl. intros ->.
        apply Hfresh. rewrite fmap_cons. by left.
      - assert (k <> id).
        { intros ->. apply Hfresh. by apply (list_elem_of_fmap_2 fst) in Hin. }
        rewrite filter_cons_True by done. split; [|done].
        intros [= -> ->]. done. }
    assert (Hcomm : group_fines
               (mkDB (clock db) (users db)
                  (if bool_decide (length (group_fines db gid) = 1%nat)
                   then delete gid (userFineGroups db) else userFineGroups db)
                  (filter (fun r : Z * Transfer => r.1 <> transfer fine) (transfers db))
                  (transactions db)
                  (filter (fun r : Z * Fine => r.1 <> id) (fines db))
                  (fineHandoutEvents db)) gid
             = filter (fun r : Z * Fine => r.1 <> id) (group_fines db gid)).
    { unfold group_fines. simpl. rewrite !list_filter_filter.
      apply list_filter_iff. intros r. tauto. }
    assert (Hone : length (group_fines db gid) = 1%nat
                   <-> group_fines db gid = (id, fine) :: []).
    { split; [|by intros ->]. intros Hlen.
      assert (Hmem : (id, fine) ∈ group_fines db gid) by (by apply list_elem_of_filter).
      destruct (group_fines db gid) as [|r [|r' l]]; [done| |done].
      apply list_elem_of_singleton in Hmem. by rewrite Hmem. }
    split_and!.
    + intros r. simpl. rewrite list_elem_of_filter. tauto.
    + intros r. simpl. rewrite list_elem_of_filter. tauto.
    + done.
    + intros gid' Hne. simpl. case_bool_decide; [|done].
      by rewrite lookup_delete_ne.
    + rewrite Hcomm. intros Hnil. simpl.
      rewrite bool_decide_eq_true_2 by (by apply Hone, Hleft).
      apply lookup_delete_eq.
    + rewrite Hcomm. intros Hsome. simpl.
      rewrite bool_decide_eq_false_2; [done|].
      intros Hlen. by apply Hsome, Hleft, Hone.
Qed.

Lemma deleteFine_spec_witness :
  exists db', deleteFine 2 store_with_two_fines = (Ok tt, db')
    /\ (forall r, r ∈ fines db' <-> r ∈ fines store_with_two_fines /\ r.1 <> 2)
    /\ (forall r, r ∈ transfers db' <-> r ∈ transfers store_with_two_fines /\ r.1 <> 3)
    /\ fineHandoutEvents db' = fineHandoutEvents store_with_two_fines
    /\ (forall gid, gid <> 7 ->
          userFineGroups db' !! gid = userFineGroups store_with_two_fines !! gid)
    /\ (group_fines db' 7 = [] -> userFineGroups db' !! 7 = None)
    /\ (group_fines db' 7 <> [] ->
          userFineGroups db' !! 7 = userFineGroups store_with_two_fines !! 7).
Proof.
  apply (proj2 (deleteFine_spec 2 store_with_two_fines)
           (mkFine 2 7 200 (Some 1) 3) (mkTransfer (Some 1) None 200 30)).
  - apply (bool_decide_unpack _). vm_compute. exact I.
  - apply list_elem_of_further, list_elem_of_here.
  - apply (bool_decide_unpack _). vm_compute. exact I.
  - apply list_elem_of_further, list_elem_of_further, list_elem_of_here.
  - eexists. reflexivity.
Defined.

Lemma sum_without {A : Type} (f : Z * A -> Z) (P : Z * A -> Prop)
    `{!forall r, Decision (P r)} (l : list (Z * A)) (k : Z) (v : A) :
  NoDup (l.*1) -> (k, v) ∈ l ->
  sumZ (f <$> filter P (filter (fun r : Z * A => r.1 <> k) l))
  = sumZ (f <$> filter P l) - (if decide (P (k, v)) then f (k, v) else 0).
Proof.
  induction l as [|[k' v'] l IH]; [by intros _ ?%elem_of_nil|].
  rewrite fmap_cons. intros [Hfresh Hnd]%NoDup_cons [Heq|Hin]%elem_of_cons.
  - injection Heq as <- <-. rewrite filter_cons_False by (simpl; tauto).
    assert (Hsame : filter (fun r : Z * A => r.1 <> k) l = l).
    { clear IH Hnd. induction l as [|[k' v'] l IH]; [done|].
      rewrite fmap_cons in Hfresh. apply not_elem_of_cons in Hfresh as [Hne Hfresh].
      rewrite filter_cons_True by (simpl in *; congruence). by rewrite IH. }
    rewrite Hsame. destruct (decide (P (k, v))).
    + rewrite (filter_cons_True P) by done. rewrite fmap_cons. simpl. lia.
    + rewrite (filter_cons_False P) by done. lia.
  - assert (k' <> k).
    { intros ->. apply Hfresh. by apply (list_elem_of_fmap_2 fst) in Hin. }
    rewrite (filter_cons_True (fun r : Z * A => r.1 <> k)) by done.
    destruct (decide (P (k', v'))).
    + rewrite !(filter_cons_True P) by done. rewrite !fmap_cons. simpl.
      rewrite (IH Hnd Hin). lia.
    + rewrite !(filter_cons_False P) by done. by apply IH.
Qed.

(** X11. Deleting a fine takes its transfer out of the balances: on every
    date from the transfer's on, and now, each account's balance is what it
    was without that transfer, so the debit of a fine is returned to the
    fined account; balances on earlier dates do not change. *)
Theorem deleteFine_restores_balance id (fine : Fine) (t : Transfer) db :
  NoDup ((fines db).*1) -> (id, fine) ∈ fines db ->
  NoDup ((transfers db).*1) -> (transfer fine, t) ∈ transfers db ->
  is_Some (userFineGroups db !! userFineGroup fine) ->
  exists db', deleteFine id db = (Ok tt, db')
    /\ forall uid date,
         getBalance db' uid date
         = getBalance db uid date
           - (if dated date (transfer_createdAt t)
              then transfer_contribution uid t else 0).
Proof.
  intros Hnf Hf Hnt Ht Hg.
  eexists. split; [exact (deleteFine_eq id fine t db Hnf Hf Hnt Ht Hg)|].
  intros uid date. unfold getBalance. simpl.
  rewrite (sum_without (fun r : Z * Transfer => transfer_contribution uid r.2)
             (fun r : Z * Transfer => dated date (transfer_createdAt r.2))
             (transfers db) (transfer fine) t Hnt Ht).
  simpl. destruct (dated date (transfer_createdAt t)) eqn:Hd.
  - destruct (decide _) as [|Hn]; [lia|]. exfalso. apply Hn. exact I.
  - destruct (decide _) as [Hy|]; [destruct Hy|lia].
Qed.

Lemma deleteFine_restores_balance_witness :
  exists db', deleteFine 2 store_with_two_fines = (Ok tt, db')
    /\ forall uid date,
         getBalance db' uid date
         = getBalance store_with_two_fines uid date
           - (if dated date 30
              then transfer_contribution uid (mkTransfer (Some 1) None 200 30) else 0).
Proof.
  apply (deleteFine_restores_balance 2 (mkFine 2 7 200 (Some 1) 3)
           (mkTransfer (Some 1) None 200 30) store_with_two_fines).
  - apply (bool_decide_unpack _). vm_compute. exact I.
  - apply list_elem_of_further, list_elem_of_here.
  - apply (bool_decide_unpack _). vm_compute. exact I.
  - apply list_elem_of_further, list_elem_of_further, list_elem_of_here.
  - eexists. reflexivity.
Defined.

(** ** Balances after a waiver *)

(** X12. When the store takes the transfer, waiving the fines of a user
    with an active fine group raises that user's current balance by the sum
    of the fines of the group, whatever the balance was, and changes no other
    account's balance and no balance on an earlier date. *)
Theorem waiveFines_credits_balance (uid : Z) (user : User) (gid : Z)
    (group : UserFineGroup) (db : DB) :
  users db !! uid = Some user ->
  user_currentFines db user = Some (gid, group) ->
  exists db', waiveFines [] uid db = (Ok tt, db')
    /\ getBalance db' uid None
       = getBalance db uid None
         + sumZ ((fun r : Z * Fine => fine_amount r.2) <$> group_fines db gid)
    /\ (forall other, other <> uid -> getBalance db' other None = getBalance db other None)
    /\ (forall other d, d < clock db ->
          getBalance db' other (Some d) = getBalance db other (Some d)).
Proof.
  intros Hu Hg.
  set (total := sumZ ((fun r : Z * Fine => fine_amount r.2) <$> group_fines db gid)).
  set (t := mkTransfer None (Some uid) total (clock db)).
  assert (Hrun : exists db', waiveFines [] uid db = (Ok tt, db')
            /\ transfers db' = transfers db ++ [(next_row_id (transfers db), t)]
            /\ transactions db' = transactions db).
  { unfold waiveFines. rewrite Hu, Hg. fold total.
    unfold bind, createTransfer, store_refuses.
    rewrite bool_decide_eq_false_2 by apply not_elem_of_nil. simpl.
    rewrite saveTransfer_eq. cbv zeta. rewrite Hu, Hg.
    destruct (0 <=? _); eexists; (split; [reflexivity|]); by simpl. }
  destruct Hrun as (db' & Hrun & Htr & Htx).
  exists db'. split; [exact Hrun|].
  assert (Hbal : forall other date,
            getBalance db' other date
            = getBalance db other date
              + (if dated date (clock db) then transfer_contribution other t else 0)).
  { intros other date. rewrite (getBalance_app db db' _ other date Htr Htx).
    f_equal. destruct (dated date (clock db)) eqn:Hd.
    - rewrite filter_cons_True by (simpl; by rewrite Hd). simpl. lia.
    - rewrite filter_cons_False by (simpl; rewrite Hd; tauto). done. }
  split_and!.
  - rewrite Hbal. simpl. unfold transfer_contribution. simpl.
    rewrite bool_decide_eq_true_2 by done. lia.
  - intros other Hne. rewrite Hbal. simpl. unfold transfer_contribution. simpl.
    rewrite bool_decide_eq_false_2 by congruence. lia.
  - intros other d Hd. rewrite Hbal. simpl.
    destruct (Z.leb_spec (clock db) d); lia.
Qed.

Lemma waiveFines_credits_balance_witness :
  exists db', waiveFines [] 1 store_with_two_fines = (Ok tt, db')
    /\ getBalance db' 1 None
       = getBalance store_with_two_fines 1 None
         + sumZ ((fun r : Z * Fine => fine_amount r.2)
                   <$> group_fines store_with_two_fines 7)
    /\ (forall other, other <> 1 ->
          getBalance db' other None = getBalance store_with_two_fines other None)
    /\ (forall other d, d < clock store_with_two_fines ->
          getBalance db' other (Some d) = getBalance store_with_two_fines other (Some d)).
Proof.
  apply (waiveFines_credits_balance 1 (mkUser 1 (Some 7)) 7 (mkUserFineGroup 1 None)
           store_with_two_fines).
  - reflexivity.
  - reflexivity.
Defined.

(** ** Consecutive hand-outs *)




(** ** The callbacks in any order *)

Lemma bind_insert_Permutation {A B : Type} (f : A -> list B) (l : list A) i x x' :
  l !! i = Some x -> f x = [] -> <[i:=x']> l ≫= f ≡ₚ (l ≫= f) ++ f x'.
Proof.
  revert i. induction l as [|a l IH]; intros [|i] Hi Hf; simpl in Hi; simplify_eq.
  - change (<[0%nat:=x']> (x :: l)) with (x' :: l).
    rewrite !bind_cons, Hf. simpl. apply Permutation_app_comm.
  - change (<[S i:=x']> (a :: l)) with (a :: <[i:=x']> l).
    rewrite !bind_cons, (IH i Hi Hf). by rewrite app_assoc.
Qed.

Lemma remaining_insert (cbs : list (BalanceResponse * Stage)) i b s s' :
  cbs !! i = Some (b, s) -> (remaining s' < remaining s)%nat ->
  (sum_list_with (fun c => remaining c.2) (<[i:=(b, s')]> cbs)
   < sum_list_with (fun c => remaining c.2) cbs)%nat.
Proof.
  revert i. induction cbs as [|c cbs IH]; intros [|i] Hi Hlt; simplify_eq/=.
  - lia.
  - specialize (IH i Hi Hlt). lia.
Qed.

Lemma remaining_none (cbs : list (BalanceResponse * Stage)) :
  sum_list_with (fun c => remaining c.2) cbs = 0%nat ->
  Forall (fun c => pending c.2 = false) cbs.
Proof.
  induction cbs as [|[b s] cbs IH]; simpl; intros Hsum; constructor.
  - destruct s; simpl in *; done || lia.
  - apply IH. lia.
Qed.

Lemma elem_of_pendingFrom k (cbs : list (BalanceResponse * Stage)) i :
  i ∈ pendingFrom k cbs ->
  exists b s, (k <= i)%nat /\ cbs !! (i - k)%nat = Some (b, s) /\ pending s = true.
Proof.
  revert k. induction cbs as [|[b s] cbs IH]; intros k; simpl.
  - by intros ?%elem_of_nil.
  - intros [Hin|Hin]%elem_of_app.
    + destruct (pending s) eqn:Hs; [|by apply elem_of_nil in Hin].
      apply list_elem_of_singleton in Hin as ->. exists b, s.
      rewrite Nat.sub_diag. by split_and!.
    + destruct (IH _ Hin) as (b' & s' & Hle & Hl & Hs). exists b', s'.
      split_and!; [lia| |done].
      replace (i - k)%nat with (S (i - S k)) by lia. done.
Qed.

Lemma pendingFrom_nil k (cbs : list (BalanceResponse * Stage)) :
  pendingFrom k cbs = [] -> Forall (fun c => pending c.2 = false) cbs.
Proof.
  revert k. induction cbs as [|[b s] cbs IH]; intros k; simpl; [done|].
  intros [Hs Hrest]%app_eq_nil. constructor; [|by eapply IH].
  simpl. by destruct (pending s).
Qed.

Lemma user_currentFines_mono v v' user :
  (forall gid g, userFineGroups v !! gid = Some g -> userFineGroups v' !! gid = Some g) ->
  forall x, user_currentFines v user = Some x -> user_currentFines v' user = Some x.
Proof.
  intros Hg x. unfold user_currentFines.
  destruct (currentFines user) as [gid|]; [|done].
  destruct (userFineGroups v !! gid) as [g|] eqn:Hl; [|done].
  by rewrite (Hg _ _ Hl).
Qed.

Lemma placed_frame v0 v v' (b : BalanceResponse) user gid guser total :
  users v' !! b_id b = users v !! b_id b ->
  (forall gid g, userFineGroups v !! gid = Some g -> userFineGroups v' !! gid = Some g) ->
  placed v0 v b user gid guser total -> placed v0 v' b user gid guser total.
Proof.
  intros Hu Hg. unfold placed. rewrite Hu.
  destruct (user_currentFines v0 user) as [[gid0 g0]|]; [done|].
  intros Hp Hnone. destruct (Hp Hnone) as (? & ? & ? & ? & ?). split_and!; auto.
Qed.

(** A step of another callback leaves what a callback relies on. *)
Lemma stage_inv_frame db0 previous eid date v0 v v' (b : BalanceResponse) user s :
  users v' !! b_id b = users v !! b_id b ->
  (forall gid g, userFineGroups v !! gid = Some g -> userFineGroups v' !! gid = Some g) ->
  stage_inv db0 previous eid date v0 v b user s ->
  stage_inv db0 previous eid date v0 v' b user s.
Proof.
  intros Hu Hg. destruct s as [|u|u gid|gid guser gfines|out]; simpl.
  - by rewrite Hu.
  - by rewrite Hu.
  - rewrite Hu. intros (? & ? & ? & ? & ? & ?). split_and!; auto.
  - by apply placed_frame.
  - intros (? & ? & ?). split_and!; [done..|]. by eapply placed_frame.
Qed.

(** Closes the parts of a step that leave the store as it is. *)
Ltac untouched :=
  first [ done | simpl; lia
        | by (unfold inserted; simpl; rewrite app_nil_r)
        | by (intros; left) ].

(** One step of a callback whose transfer the store accepts. *)
Lemma advance_ok rejected db0 previous eid date v0 (b : BalanceResponse) s t user :
  users v0 !! b_id b = Some user ->
  b_id b ∉ rejected ->
  pending s = true ->
  clock (view t) = clock v0 ->
  fines (view t) = fines v0 ->
  (forall gid g, userFineGroups v0 !! gid = Some g ->
                 userFineGroups (view t) !! gid = Some g) ->
  stage_inv db0 previous eid date v0 (view t) b user s ->
  exists s' t',
    advance rejected db0 previous eid date b s t = (Ok s', t')
    /\ (remaining s' < remaining s)%nat
    /\ (forall gid, stage_group s = Some gid -> stage_group s' = Some gid)
    /\ stage_inv db0 previous eid date v0 (view t') b user s'
    /\ clock (view t') = clock (view t)
    /\ transactions (view t') = transactions (view t)
    /\ fines (view t') = fines (view t)
    /\ fineHandoutEvents (view t') = fineHandoutEvents (view t)
    /\ transfers (view t') = transfers (view t) ++ inserted (clock v0) (b, s')
    /\ (forall uid, uid <> b_id b -> users (view t') !! uid = users (view t) !! uid)
    /\ (forall gid g, userFineGroups (view t) !! gid = Some g ->
                      userFineGroups (view t') !! gid = Some g)
    /\ (forall gid g, userFineGroups (view t') !! gid = Some g ->
          userFineGroups (view t) !! gid = Some g
          \/ (userFineGroups (view t) !! gid = None /\ stage_group s' = Some gid
              /\ user_currentFines v0 user = None
              /\ g = mkUserFineGroup (b_id b) None)).
Proof.
  intros Hu0 Hacc Hs Hclock Hfines Hgrow Hinv.
  destruct s as [|u|u gid|gid guser gfines|out]; simpl in Hinv; [| | | |done].
  - (* the user is found *)
    cbn [advance]. rewrite Hinv.
    destruct (user_currentFines (view t) user) as [[gid g]|] eqn:Hg.
    + eexists _, t. split; [reflexivity|]. simpl.
      split_and!; try untouched.
      unfold placed.
      destruct (user_currentFines v0 user) as [[gid0 g0]|] eqn:Hg0.
      * rewrite (user_currentFines_mono _ _ _ Hgrow _ Hg0) in Hg.
        injection Hg as <- <-. unfold group_fines. by rewrite Hfines.
      * intros Hnone. by rewrite (user_currentFines_unlinked _ _ Hnone) in Hg.
    + eexists _, t. split; [reflexivity|]. simpl.
      split_and!; try untouched.
      destruct (user_currentFines v0 user) as [x|] eqn:Hg0; [|done].
      by rewrite (user_currentFines_mono _ _ _ Hgrow _ Hg0) in Hg.
  - (* the new group is saved *)
    destruct Hinv as (-> & Hnone & Huser).
    assert (Hfresh0 : userFineGroups v0 !! next_key (userFineGroups (view t)) = None).
    { destruct (userFineGroups v0 !! next_key (userFineGroups (view t))) as [g|] eqn:Hl;
        [|done].
      apply Hgrow in Hl. by rewrite next_key_fresh in Hl. }
    cbn [advance]. unfold bind, via_entity, ret.
    eexists _, _. split; [reflexivity|]. cbn [view].
    split; [by destruct (0 <? calculateFine (b_amount b)); simpl; lia|].
    split; [done|]. split.
    { destruct (0 <? calculateFine (b_amount b)) eqn:Hpos; simpl.
      - split_and!; try done. by rewrite lookup_insert_eq.
      - unfold placed. rewrite Hnone. intros _. rewrite Hpos. simpl.
        split_and!; try done. by rewrite lookup_insert_eq. }
    split_and!; try done.
    + simpl. by destruct (0 <? calculateFine (b_amount b)); rewrite app_nil_r.
    + intros gid g Hl. simpl. rewrite lookup_insert_ne; [done|].
      intros <-. by rewrite next_key_fresh in Hl.
    + intros gid g. simpl.
      destruct (decide (gid = next_key (userFineGroups (view t)))) as [->|Hne].
      * rewrite lookup_insert_eq. intros [= <-]. right.
        split; [apply next_key_fresh|].
        split; [by destruct (0 <? calculateFine (b_amount b))|done].
      * rewrite lookup_insert_ne by done. by left.
  - (* the user is linked to the new group *)
    destruct Hinv as (-> & Hnone & Huser & Hpos & Hfresh0 & Hgroup).
    cbn [advance]. unfold bind, via_manager, modify, ret.
    eexists _, _. split; [reflexivity|]. cbn [view].
    split; [simpl; lia|]. split; [done|]. split.
    { simpl. unfold placed. rewrite Hnone. intros _. rewrite Hpos. simpl.
      split_and!; try done. by rewrite lookup_insert_eq. }
    split_and!; try untouched.
    intros uid Hne. simpl. by rewrite lookup_insert_ne.
  - (* the transfer is inserted *)
    cbn [advance]. unfold bind, via_manager, createTransfer, store_refuses, ret.
    simpl. rewrite bool_decide_eq_false_2 by done. simpl.
    eexists _, _. split; [reflexivity|]. cbn [view].
    split; [simpl; lia|]. split; [done|]. split.
    { simpl. split_and!; [done..|].
      replace (sumZ ((fun r : Z * Fine => fine_amount r.2) <$> gfines)
               + calculateFine (b_amount b) - calculateFine (b_amount b))
        with (sumZ ((fun r : Z * Fine => fine_amount r.2) <$> gfines)) by lia.
      eapply placed_frame; [| |exact Hinv]; done. }
    split_and!; try untouched.
    simpl. unfold inserted. simpl. by rewrite Hclock.
Qed.

(** A step of one callback, among the others. *)
Lemma between_step rejected db0 previous eid date v0 (records : list BalanceResponse)
    t cbs emails i b s :
  NoDup (b_id <$> records) ->
  (forall b, b ∈ records -> (b_id b ∉ rejected) /\ is_Some (users v0 !! b_id b)) ->
  between db0 previous eid date v0 records (view t) cbs emails ->
  cbs !! i = Some (b, s) -> pending s = true ->
  exists s' t',
    advance rejected db0 previous eid date b s t = (Ok s', t')
    /\ (remaining s' < remaining s)%nat
    /\ between db0 previous eid date v0 records (view t')
         (<[i:=(b, s')]> cbs) (emails ++ pushed s').
Proof.
  intros Hnd Hpre
    (Hrec & Hc & Hx & Hf & He & (trs & Ht & Hperm) & Hmails & Hold & Hnew & Husers & Hstages)
    Hi Hs.
  assert (Hri : records !! i = Some b) by (by rewrite <- Hrec, list_lookup_fmap, Hi).
  assert (Hb : b ∈ records) by (by eapply list_elem_of_lookup_2).
  destruct (Hpre b Hb) as [Hacc [user Hu0]].
  destruct (advance_ok rejected db0 previous eid date v0 b s t user Hu0 Hacc Hs Hc Hf Hold
              (Hstages i b s user Hi Hu0))
    as (s' & t' & Hadv & Hlt & Hgroup & Hinv' & Hc' & Hx' & Hf' & He' & Ht' & Hu' & Hg' & Hn').
  assert (Hlen : (i < length cbs)%nat) by (by eapply lookup_lt_Some).
  exists s', t'. split; [done|]. split; [done|].
  unfold between. split_and!.
  - rewrite list_fmap_insert. simpl. rewrite list_insert_id; [done|].
    by rewrite list_lookup_fmap, Hi.
  - congruence.
  - congruence.
  - congruence.
  - congruence.
  - exists (trs ++ inserted (clock v0) (b, s')). split.
    + by rewrite Ht', Ht, app_assoc.
    + rewrite (bind_insert_Permutation _ _ _ _ _ Hi); [by rewrite Hperm|].
      unfold inserted. by destruct s.
  - rewrite (bind_insert_Permutation (fun c => pushed c.2) _ _ _ _ Hi);
      [by rewrite Hmails|]. by destruct s.
  - auto.
  - intros gid g Hl Hfresh. destruct (Hn' gid g Hl) as [Hl0|(Hl0 & Hsg & Hnone & ->)].
    + destruct (Hnew gid g Hl0 Hfresh) as (j & b1 & s1 & user1 & Hj & Hsg1 & Hrest).
      destruct (decide (j = i)) as [->|Hne].
      * rewrite Hi in Hj. injection Hj as <- <-. exists i, b, s', user1.
        rewrite list_lookup_insert_eq by done. split; [done|]. split; [by apply Hgroup|done].
      * exists j, b1, s1, user1. by rewrite list_lookup_insert_ne.
    + exists i, b, s', user. by rewrite list_lookup_insert_eq.
  - intros uid Hn. rewrite Hu'; [by apply Husers|].
    intros ->. apply Hn. by apply list_elem_of_fmap_2.
  - intros j b1 s1 user1 Hj Hu1. destruct (decide (j = i)) as [->|Hne].
    + rewrite list_lookup_insert_eq in Hj by done. injection Hj as <- <-.
      rewrite Hu0 in Hu1. by injection Hu1 as <-.
    + rewrite list_lookup_insert_ne in Hj by done.
      apply (stage_inv_frame _ _ _ _ _ (view t)); [|done|by eapply Hstages].
      apply Hu'. intros Heq. apply Hne.
      apply (NoDup_lookup (b_id <$> records) j i (b_id b) Hnd).
      * by rewrite <- Hrec, <- list_fmap_compose, list_lookup_fmap, Hj, <- Heq.
      * by rewrite list_lookup_fmap, Hri.
Qed.

(** Whatever the order, the callbacks all return when the store accepts
    their transfers. *)
Lemma interleave_ok rejected db0 previous eid date v0 (records : list BalanceResponse) :
  NoDup (b_id <$> records) ->
  (forall b, b ∈ records -> (b_id b ∉ rejected) /\ is_Some (users v0 !! b_id b)) ->
  forall fuel order cbs emails t,
    between db0 previous eid date v0 records (view t) cbs emails ->
    (sum_list_with (fun c => remaining c.2) cbs <= fuel)%nat ->
    exists cbs' emails' t',
      interleave rejected db0 previous eid date fuel order cbs emails t
      = (Ok (cbs', emails'), t')
      /\ between db0 previous eid date v0 records (view t') cbs' emails'
      /\ Forall (fun c => pending c.2 = false) cbs'.
Proof.
  intros Hnd Hpre. induction fuel as [|fuel IH]; intros order cbs emails t Hinv Hfuel.
  - exists cbs, emails, t. split; [done|]. split; [done|].
    apply remaining_none. lia.
  - cbn [interleave].
    destruct (pendingFrom 0 cbs !! (hd 0%nat order mod length (pendingFrom 0 cbs))%nat)
      as [i|] eqn:Hw.
    + destruct (elem_of_pendingFrom 0 cbs i) as (b & s & _ & Hi & Hs);
        [by eapply list_elem_of_lookup_2|].
      rewrite Nat.sub_0_r in Hi. rewrite Hi.
      destruct (between_step rejected db0 previous eid date v0 records t cbs emails i b s
                  Hnd Hpre Hinv Hi Hs) as (s' & t' & Hadv & Hlt & Hinv').
      rewrite Hadv. apply IH; [done|].
      pose proof (remaining_insert cbs i b s s' Hi Hlt). lia.
    + exists cbs, emails, t. split; [done|]. split; [done|].
      apply (pendingFrom_nil 0).
      destruct (pendingFrom 0 cbs) as [|j l] eqn:Hp; [done|].
      apply lookup_ge_None in Hw.
      pose proof (Nat.mod_upper_bound (hd 0%nat order) (length (j :: l))) as Hlt.
      simpl in Hw, Hlt. lia.
Qed.

Lemma between_start db0 previous eid date v0 (records : list BalanceResponse) :
  between db0 previous eid date v0 records v0 ((fun b => (b, Started)) <$> records) []
  /\ sum_list_with (fun c : BalanceResponse * Stage => remaining c.2)
       ((fun b => (b, Started)) <$> records) = (4 * length records)%nat.
Proof.
  split.
  - unfold between. split_and!; try done.
    + induction records as [|b bs IH]; [done|]. rewrite !fmap_cons. by rewrite IH.
    + exists []. rewrite app_nil_r. split; [done|].
      induction records as [|b bs IH]; [done|]. by rewrite fmap_cons, bind_cons, <- IH.
    + induction records as [|b bs IH]; [done|]. by rewrite fmap_cons, bind_cons, <- IH.
    + intros gid g Hl Hfresh. by rewrite Hl in Hfresh.
    + intros i b s user Hi Hu. rewrite list_lookup_fmap in Hi.
      destruct (records !! i); [|done]. by injection Hi as <- <-.
  - induction records as [|b bs IH]; [done|]. rewrite fmap_cons. simpl in *. lia.
Qed.

Lemma returned_all (cbs : list (BalanceResponse * Stage)) :
  Forall (fun c => pending c.2 = false) cbs ->
  cbs = zip_with (fun b out => (b, Returned out)) (cbs.*1) (returnedBy cbs)
  /\ length (returnedBy cbs) = length cbs.
Proof.
  induction 1 as [|[b s] cbs Hs _ [IH1 IH2]]; [done|].
  destruct s as [| | | |out]; try done.
  unfold returnedBy in *. cbn. split; [by rewrite <- IH1|by rewrite IH2].
Qed.

Lemma inserted_zip clock (bs : list BalanceResponse) (outs : list (Fine * Z * Email)) :
  zip_with (fun b out => (b, Returned out)) bs outs ≫= inserted clock
  = zip_with (fun (b : BalanceResponse) (out : Fine * Z * Email) =>
                (transfer out.1.1,
                 mkTransfer (Some (b_id b)) None (calculateFine (b_amount b)) clock))
             bs outs.
Proof.
  revert outs. induction bs as [|b bs IH]; intros [|out outs]; try done.
  cbn [zip_with]. rewrite bind_cons, IH. done.
Qed.

Lemma pushed_zip (bs : list BalanceResponse) (outs : list (Fine * Z * Email)) :
  length outs = length bs ->
  zip_with (fun b out => (b, Returned out)) bs outs
    ≫= (fun c : BalanceResponse * Stage => pushed c.2) = outs.*2.
Proof.
  revert outs. induction bs as [|b bs IH]; intros [|out outs] Hlen; try done.
  cbn [zip_with]. rewrite bind_cons, IH by (simpl in Hlen; lia). done.
Qed.

(** The whole effect of an accepted hand-out, whatever the order of its
    callbacks; [outs] are the values the callbacks returned, in the order
    of the records. *)
Lemma handOutFinesIn_run order rejected referenceDate userIds createdBy db :
  (forall uid, uid ∈ userIds -> uid ∉ rejected) ->
  let date := handoutDate referenceDate db in
  let records := handoutRecords referenceDate userIds db in
  let eid := next_row_id (fineHandoutEvents db) in
  exists saved emails db' (trs : list (Z * Transfer)) (outs : list (Fine * Z * Email))
         (rows : list (Z * Fine)),
    handOutFinesIn order rejected referenceDate userIds createdBy db
    = (Ok (mkFineHandoutEventResponse eid date createdBy saved, emails), db')
    /\ clock db' = clock db
    /\ transactions db' = transactions db
    /\ fineHandoutEvents db'
       = fineHandoutEvents db ++ [(eid, mkFineHandoutEvent date createdBy (clock db))]
    /\ transfers db' = transfers db ++ trs
    /\ trs ≡ₚ zip_with (fun (b : BalanceResponse) (out : Fine * Z * Email) =>
                          (transfer out.1.1,
                           mkTransfer (Some (b_id b)) None (calculateFine (b_amount b))
                             (clock db)))
                       records outs
    /\ fines db' = fines db ++ rows
    /\ rows.*2 = outs.*1.*1
    /\ saved = zip_with (fun (row : Z * Fine) (f : Fine * Z) =>
                           mkFineResponse row.1 f.2 (fine_amount f.1)) rows (outs.*1)
    /\ emails ≡ₚ outs.*2
    /\ length outs = length records
    /\ (forall gid g, userFineGroups db !! gid = Some g -> userFineGroups db' !! gid = Some g)
    /\ (forall gid g, userFineGroups db !! gid = None -> userFineGroups db' !! gid = Some g ->
          exists i b out user,
            records !! i = Some b /\ outs !! i = Some out
            /\ userFineGroup out.1.1 = gid
            /\ users db !! b_id b = Some user /\ user_currentFines db user = None
            /\ g = mkUserFineGroup (b_id b) None)
    /\ (forall uid, uid ∉ b_id <$> records -> users db' !! uid = users db !! uid)
    /\ (forall i b out user,
          records !! i = Some b -> outs !! i = Some out -> users db !! b_id b = Some user ->
          stage_inv db (latestEvent db) eid date db db' b user (Returned out)).
Proof.
  intros Hacc date records eid.
  set (v0 := set_fineHandoutEvents
               (fun l => l ++ [(eid, mkFineHandoutEvent date createdBy (clock db))]) db).
  assert (Hpre : forall b, b ∈ records ->
            (b_id b ∉ rejected) /\ is_Some (users v0 !! b_id b)).
  { intros b Hb. apply elem_of_getBalances in Hb as (u & Hu & Hl & _). simpl in Hl.
    split; [|by exists u]. apply Hacc. by apply bool_decide_unpack in Hl. }
  destruct (between_start db (latestEvent db) eid date v0 records) as [Hstart Hsteps].
  destruct (interleave_ok rejected db (latestEvent db) eid date v0 records
              (NoDup_getBalances_ids _ _) Hpre (4 * length records) order
              ((fun b => (b, Started)) <$> records) [] (mkTx db v0) Hstart)
    as (cbs & emails & t1 & Hrun & Hinv & Hret); [by rewrite Hsteps|].
  destruct (returned_all cbs Hret) as [Hzip Hlen].
  destruct Hinv
    as (Hrec & Hc & Hx & Hf & He & (trs & Ht & Hperm) & Hmails & Hold & Hnew & Husers & Hstages).
  rewrite Hrec in Hzip.
  assert (Hlo : length (returnedBy cbs) = length records)
    by (by rewrite Hlen, <- Hrec, length_fmap).
  destruct (insertFines_ok ((returnedBy cbs).*1) (view t1)) as (rows & Hsave & Hrows).
  eexists _, emails, _, trs, (returnedBy cbs), rows. split.
  { unfold handOutFinesIn, transaction.
    unfold bind at 1. unfold bind at 1. unfold via_manager at 1. unfold insertEvent.
    cbn [view committed]. fold date eid v0 records.
    unfold bind at 1. rewrite Hrun. cbn [fst snd].
    unfold bind at 1. unfold via_manager. rewrite Hsave. reflexivity. }
  simpl. rewrite Hc, Hx, He, Ht, Hf.
  split_and!; try done.
  - rewrite Hperm. rewrite Hzip at 1. by rewrite inserted_zip.
  - rewrite Hmails. rewrite Hzip at 1. by rewrite pushed_zip.
  - intros gid g Hfresh Hl.
    destruct (Hnew gid g Hl Hfresh) as (i & b & s & user & Hi & Hsg & Hu & Hnone & ->).
    rewrite Hzip in Hi.
    apply lookup_zip_with_Some in Hi as (b' & out & [= <- ->] & Hb & Hout).
    exists i, b, out, user. simpl in Hsg. injection Hsg as <-. by split_and!.
  - intros i b out user Hb Hout Hu.
    assert (Hi : cbs !! i = Some (b, Returned out)).
    { rewrite Hzip. apply lookup_zip_with_Some. by exists b, out. }
    exact (Hstages i b (Returned out) user Hi Hu).
Qed.

Lemma placed_filed v0 v (b : BalanceResponse) gid guser total :
  (forall user, users v0 !! b_id b = Some user -> placed v0 v b user gid guser total) ->
  filed v0 v b gid.
Proof.
  intros Hp user Hu. specialize (Hp user Hu). unfold placed in Hp.
  destruct (user_currentFines v0 user) as [[gid0 g0]|] eqn:Hg.
  - destruct Hp as (-> & _ & _ & Hrow). split.
    + by intros gid1 g1 [= <- <-].
    + intros Hnone. by rewrite (user_currentFines_unlinked _ _ Hnone) in Hg.
  - split; [done|]. intros Hnone. destruct (Hp Hnone) as (_ & _ & ? & ? & ?). done.
Qed.

Lemma returned_mail_of db0 previous eid date v0 v (b : BalanceResponse) user out :
  stage_inv db0 previous eid date v0 v b user (Returned out) ->
  mail_of v0 date b user out.2.
Proof.
  simpl. intros (_ & Hmail & Hp). unfold mail_of. rewrite Hmail. simpl.
  split_and!; try done.
  - intros gid g Hg. unfold placed in Hp. rewrite Hg in Hp.
    destruct Hp as (_ & _ & Htotal & _). lia.
  - intros Hnone. unfold placed in Hp.
    rewrite (user_currentFines_unlinked _ _ Hnone) in Hp.
    destruct (Hp Hnone) as (_ & Htotal & _). lia.
Qed.

Lemma row_of_out (rows : list (Z * Fine)) (outs : list (Fine * Z * Email)) i row :
  rows.*2 = outs.*1.*1 -> rows !! i = Some row ->
  exists out, outs !! i = Some out /\ out.1.1 = row.2.
Proof.
  intros Hrows Hrow.
  assert (Hi : rows.*2 !! i = Some row.2) by (by rewrite list_lookup_fmap, Hrow).
  rewrite Hrows, !list_lookup_fmap in Hi.
  destruct (outs !! i) as [out|]; [|done]. exists out. split; [done|].
  simpl in Hi. by injection Hi.
Qed.

Lemma transfers_of_rows clock (records : list BalanceResponse)
    (rows : list (Z * Fine)) (outs : list (Fine * Z * Email)) :
  rows.*2 = outs.*1.*1 ->
  zip_with (fun (b : BalanceResponse) (out : Fine * Z * Email) =>
              (transfer out.1.1,
               mkTransfer (Some (b_id b)) None (calculateFine (b_amount b)) clock))
           records outs
  = zip_with (fun (b : BalanceResponse) (row : Z * Fine) =>
                (transfer row.2,
                 mkTransfer (Some (b_id b)) None (calculateFine (b_amount b)) clock))
             records rows.
Proof.
  intros Hrows.
  pose (H := fun (b : BalanceResponse) (f : Fine) =>
               (transfer f, mkTransfer (Some (b_id b)) None (calculateFine (b_amount b)) clock)).
  trans (zip_with H records (outs.*1.*1)).
  - by rewrite !zip_with_fmap_r.
  - by rewrite <- Hrows, zip_with_fmap_r.
Qed.

Lemma record_by_id (records : list BalanceResponse) i (b b' : BalanceResponse) :
  NoDup (b_id <$> records) -> records !! i = Some b' -> b ∈ records ->
  b_id b' = b_id b -> b' = b.
Proof.
  intros Hnd Hi [j Hj]%list_elem_of_lookup Heq.
  assert (i = j) as ->; [|by rewrite Hi in Hj; injection Hj].
  apply (NoDup_lookup (b_id <$> records) i j (b_id b) Hnd).
  - by rewrite list_lookup_fmap, Hi, <- Heq.
  - by rewrite list_lookup_fmap, Hj.
Qed.

(** The mails of the callbacks, in the order of the records. *)
Lemma returned_mails db0 previous eid date v0 v (records : list BalanceResponse)
    (outs : list (Fine * Z * Email)) :
  length outs = length records ->
  (forall b, b ∈ records -> is_Some (users v0 !! b_id b)) ->
  (forall i b out user,
     records !! i = Some b -> outs !! i = Some out -> users v0 !! b_id b = Some user ->
     stage_inv db0 previous eid date v0 v b user (Returned out)) ->
  email_user <$> outs.*2 = b_id <$> records
  /\ forall e, e ∈ outs.*2 ->
       exists i b user, records !! i = Some b /\ users v0 !! b_id b = Some user
         /\ email_user e = b_id b /\ mail_of v0 date b user e.
Proof.
  intros Hlen Husers Hall. split.
  - apply list_eq_same_length with (length records); [by rewrite !length_fmap..|].
    intros i x y _. rewrite !list_lookup_fmap.
    destruct (outs !! i) as [out|] eqn:Hout; [|done].
    destruct (records !! i) as [b|] eqn:Hb; [|done].
    destruct (Husers b) as [user Hu]; [by eapply list_elem_of_lookup_2|].
    destruct (Hall i b out user Hb Hout Hu) as (_ & Hmail & _).
    simpl. rewrite Hmail. simpl. congruence.
  - intros e (out & -> & Hin)%list_elem_of_fmap.
    apply list_elem_of_lookup in Hin as [i Hout].
    destruct (lookup_lt_is_Some_2 records i) as [b Hb].
    { rewrite <- Hlen. by eapply lookup_lt_Some. }
    destruct (Husers b) as [user Hu]; [by eapply list_elem_of_lookup_2|].
    pose proof (Hall i b out user Hb Hout Hu) as Hinv.
    exists i, b, user. split_and!; [done..| |by eapply returned_mail_of].
    destruct Hinv as (_ & Hmail & _). by rewrite Hmail.
Qed.

(** An accepted hand-out, whatever the order of its callbacks. *)
Lemma handOutFines_success order rejected referenceDate userIds createdBy db :
  (forall uid, uid ∈ userIds -> uid ∉ rejected) ->
  handed_out order rejected referenceDate userIds createdBy db.
Proof.
  intros Hacc. unfold handed_out.
  set (date := handoutDate referenceDate db).
  set (records := handoutRecords referenceDate userIds db).
  destruct (handOutFinesIn_run order rejected referenceDate userIds createdBy db Hacc)
    as (saved & emails & db' & trs & outs & rows & Hrun & Hc & Hx & He & Ht & Hperm & Hf
        & Hrows & _ & Hmails & Hlen & Hold & Hnew & Husers & Hall).
  fold date records in Hrun, Hperm, Hlen, Hnew, Husers, Hall, He.
  assert (Hex : forall b, b ∈ records -> is_Some (users db !! b_id b)).
  { intros b Hb. apply elem_of_getBalances in Hb as (u & Hu & _). by exists u. }
  destruct (returned_mails db (latestEvent db) _ date db db' records outs Hlen Hex Hall)
    as [Hids Hmail].
  eexists _, emails, db', trs, rows. split; [exact Hrun|]. simpl.
  split_and!; try done.
  - rewrite <- Hlen, <- (length_fmap snd rows), Hrows. by rewrite !length_fmap.
  - by rewrite Hperm, (transfers_of_rows _ _ rows outs Hrows).
  - intros i b row Hb Hrow.
    destruct (row_of_out rows outs i row Hrows Hrow) as (out & Hout & Hof).
    destruct (Hex b) as [user Hu]; [by eapply list_elem_of_lookup_2|].
    destruct (Hall i b out user Hb Hout Hu) as (Hfine & _ & _).
    rewrite Hof in Hfine. split; [done|].
    apply (placed_filed db db' b _ out.1.2
             (email_totalFine out.2 - calculateFine (b_amount b))).
    intros user' Hu'. destruct (Hall i b out user' Hb Hout Hu') as (_ & _ & Hp).
    by rewrite Hof in Hp.
  - intros gid g Hfresh Hl.
    destruct (Hnew gid g Hfresh Hl)
      as (i & b & out & user & Hb & Hout & Hg & Hu & Hnone & Hgroup).
    destruct (lookup_lt_is_Some_2 rows i) as [row Hrow].
    { rewrite <- (length_fmap snd rows), Hrows, !length_fmap. by eapply lookup_lt_Some. }
    destruct (row_of_out rows outs i row Hrows Hrow) as (out' & Hout' & Hof).
    rewrite Hout in Hout'. injection Hout' as <-.
    exists i, b, row, user. rewrite <- Hof. by split_and!.
  - by rewrite Hmails, Hids.
  - intros b e Hb He' Hid. rewrite Hmails in He'.
    destruct (Hmail e He') as (i & b' & user & Hb' & _ & Hid' & _ & Hfine & _).
    rewrite Hid in Hid'.
    rewrite (record_by_id records i b b' (NoDup_getBalances_ids _ _) Hb' Hb) in Hfine;
      done.
Qed.

(** C10, amended. [handOutFines] does not check eligibility: the balance
    records are those of all the users passed in, whatever their balance, and
    when the store accepts the writes, whatever the order in which the
    callbacks go on, every record gets one transfer from the user and one
    fine, both of [calculateFine] of the reference-date balance, which is 0
    for a user above -500.  A user without an active fine group gets a new
    group, made their [currentFines] only when the fine is positive; the
    fine of a user with an active group is filed there, and no group is
    created for them: every new group holds the fine of a record whose user
    had no active group. *)
Theorem handOutFines_no_eligibility_check order rejected referenceDate userIds createdBy db :
  (forall uid, uid ∈ userIds -> uid ∉ rejected) ->
  let date := handoutDate referenceDate db in
  let records := handoutRecords referenceDate userIds db in
  (forall b, b ∈ records
     <-> b_id b ∈ userIds /\ is_Some (users db !! b_id b)
         /\ b_amount b = getBalance db (b_id b) (Some date))
  /\ (forall b, b ∈ records -> -500 < b_amount b -> calculateFine (b_amount b) = 0)
  /\ handed_out order rejected referenceDate userIds createdBy db.
Proof.
  intros Hacc date records. split_and!.
  - intros b. unfold records, handoutRecords. rewrite elem_of_getBalances. simpl.
    fold date. split.
    + intros (u & Hu & Hl & _ & _ & Hb). split_and!; [|by exists u|done].
      by apply bool_decide_unpack in Hl.
    + intros (Hin & [u Hu] & Hb). exists u. split_and!; try done.
      by apply bool_decide_pack.
  - intros b _. apply calculateFine_non_debtor.
  - by apply handOutFines_success.
Qed.

Lemma handOutFines_no_eligibility_check_witness :
  handed_out [1%nat; 0%nat; 1%nat] [] None [1; 2; 3] 9 store_with_two_debtors.
Proof.
  apply (handOutFines_no_eligibility_check [1%nat; 0%nat; 1%nat] [] None [1; 2; 3] 9
           store_with_two_debtors).
  intros uid _ Hin. by apply elem_of_nil in Hin.
Defined.

(** ** Warnings and the hand-out *)

(** X9. With a reference date given, a warning announces what the
    hand-out then does, whatever the order in which its callbacks go on: on
    the same store, ids and reference date, every user that
    [sendFineWarnings] mails is fined by the hand-out.  The store gets a new
    fine of the announced amount, which is at least 100, in the new event
    and filed under the user's fine group, and a new transfer of that amount
    out of the user's account, to which the fine points; and a mail of the
    hand-out tells the user that fine. *)
Theorem sendFineWarnings_announces_handOutFines order (d : Z) userIds createdBy db :
  exists mails resp emails db' (trs : list (Z * Transfer)) (rows : list (Z * Fine)),
    sendFineWarnings (Some d) userIds db = inr mails
    /\ handOutFinesIn order [] (Some d) userIds createdBy db = (Ok (resp, emails), db')
    /\ transfers db' = transfers db ++ trs
    /\ fines db' = fines db ++ rows
    /\ Forall (fun w : FineWarning =>
                 100 <= warning_fine w
                 /\ exists row tr e,
                      row ∈ rows /\ tr ∈ trs /\ e ∈ emails
                      /\ row.2 = mkFine (r_id resp) (userFineGroup row.2) (warning_fine w)
                                   (previousFineOf db (latestEvent db) (warning_user w))
                                   tr.1
                      /\ tr.2 = mkTransfer (Some (warning_user w)) None (warning_fine w)
                                  (clock db)
                      /\ filed db db'
                           (mkBalanceResponse (warning_user w) (warning_balance w))
                           (userFineGroup row.2)
                      /\ email_user e = warning_user w
                      /\ email_fine e = warning_fine w) mails.
Proof.
  destruct (sendFineWarnings_run (Some d) userIds db) as (mails & Hwarn & Hall).
  destruct (handOutFinesIn_run order [] (Some d) userIds createdBy db)
    as (saved & emails & db' & trs & outs & rows & Hrun & _ & _ & _ & Ht & Hperm & Hf
        & Hrows & _ & Hmails & Hlen & _ & _ & _ & Hinv);
    [intros uid _; apply not_elem_of_nil|].
  set (records := handoutRecords (Some d) userIds db) in *.
  assert (Hex : forall b, b ∈ records -> is_Some (users db !! b_id b)).
  { intros b Hb. apply elem_of_getBalances in Hb as (u & Hu & _). by exists u. }
  eexists mails, _, emails, db', trs, rows.
  split; [done|]. split; [exact Hrun|]. split; [done|]. split; [done|].
  clear Hwarn. simpl.
  induction Hall as [|f w fs ws (Hid & _ & Hbal & Hfine & Hdebt & _ & Hrec) _ IH]; [done|].
  constructor; [|done]. simpl in Hbal, Hfine.
  split.
  { rewrite Hfine.
    assert (1 <= (- getBalance db (f_id f) (Some d)) / 500)
      by (apply Z.div_le_lower_bound; lia).
    unfold calculateFine. lia. }
  apply list_elem_of_lookup in Hrec as [i Hb].
  destruct (lookup_lt_is_Some_2 outs i) as [out Hout].
  { rewrite Hlen. by eapply lookup_lt_Some. }
  destruct (lookup_lt_is_Some_2 rows i) as [row Hrow].
  { rewrite <- (length_fmap snd rows), Hrows, !length_fmap. by eapply lookup_lt_Some. }
  destruct (row_of_out rows outs i row Hrows Hrow) as (out' & Hout' & Hof).
  rewrite Hout in Hout'. injection Hout' as <-.
  destruct (Hex _ (list_elem_of_lookup_2 _ _ _ Hb)) as [user Hu].
  pose proof (Hinv i _ out user Hb Hout Hu) as (Hrowfine & Hmail & _). simpl in *.
  exists row,
    (transfer out.1.1,
     mkTransfer (Some (f_id f)) None (calculateFine (getBalance db (f_id f) (Some d)))
       (clock db)),
    out.2.
  rewrite Hid, Hbal, Hfine. split_and!.
  - by eapply list_elem_of_lookup_2.
  - rewrite Hperm. apply (list_elem_of_lookup_2 _ i).
    apply lookup_zip_with_Some. eexists _, out. split; [|by split]. done.
  - rewrite Hmails. apply list_elem_of_fmap_2. by eapply list_elem_of_lookup_2.
  - by rewrite <- Hof.
  - done.
  - rewrite <- Hof.
    apply (placed_filed db db' _ _ out.1.2
             (email_totalFine out.2
              - calculateFine (getBalance db (f_id f) (Some d)))).
    intros user' Hu'. by destruct (Hinv i _ out user' Hb Hout Hu') as (_ & _ & Hp).
  - by rewrite Hmail.
  - by rewrite Hmail.
Qed.

(** ** The mails of a hand-out *)

(** X14. An accepted hand-out mails every fined user once, whatever the
    order in which its callbacks go on, and the mail tells the user the
    fine, the balance it was computed from and the date of that balance; the
    total it states is the new fine plus the fines already in the user's
    active fine group, and the new fine alone for a user without one. *)
Theorem handOutFines_mails order referenceDate userIds createdBy db :
  exists resp emails db',
    handOutFinesIn order [] referenceDate userIds createdBy db = (Ok (resp, emails), db')
    /\ email_user <$> emails ≡ₚ b_id <$> handoutRecords referenceDate userIds db
    /\ forall b e user,
         b ∈ handoutRecords referenceDate userIds db ->
         e ∈ emails ->
         email_user e = b_id b ->
         users db !! b_id b = Some user ->
         mail_of db (handoutDate referenceDate db) b user e.
Proof.
  destruct (handOutFinesIn_run order [] referenceDate userIds createdBy db)
    as (saved & emails & db' & trs & outs & rows & Hrun & _ & _ & _ & _ & _ & _
        & _ & _ & Hmails & Hlen & _ & _ & _ & Hinv);
    [intros uid _; apply not_elem_of_nil|].
  set (records := handoutRecords referenceDate userIds db) in *.
  assert (Hex : forall b, b ∈ records -> is_Some (users db !! b_id b)).
  { intros b Hb. apply elem_of_getBalances in Hb as (u & Hu & _). by exists u. }
  destruct (returned_mails db (latestEvent db) _ (handoutDate referenceDate db) db db'
              records outs Hlen Hex Hinv) as [Hids Hmail].
  eexists _, emails, db'. split; [exact Hrun|]. split; [by rewrite Hmails, Hids|].
  intros b e user Hb He Hid Hu. rewrite Hmails in He.
  destruct (Hmail e He) as (i & b' & user' & Hb' & Hu' & Hid' & Hof).
  rewrite Hid in Hid'.
  pose proof (record_by_id records i b b' (NoDup_getBalances_ids _ _) Hb' Hb
                (eq_sym Hid')) as ->.
  rewrite Hu in Hu'. by injection Hu' as <-.
Qed.

(** The order of the callbacks shows in the transfers and in the mails, not
    in the fines: three accounts, the callback of the second record going on
    first. *)
Example handOutFinesIn_another_order :
  exists resp emails db',
    handOutFinesIn [1; 1; 1; 1; 1; 0; 0; 0]%nat [] None [1; 2; 3] 9 store_with_two_debtors
    = (Ok (resp, emails), db')
    /\ b_id <$> handoutRecords None [1; 2; 3] store_with_two_debtors = [3; 2; 1]
    /\ fr_user <$> r_fines resp = [3; 2; 1]
    /\ email_user <$> emails = [2; 3; 1]
    /\ (fun t : Z * Transfer => fromId t.2) <$> drop 3 (transfers db')
       = [Some 2; Some 3; Some 1].
Proof. eexists _, _, _. split; [vm_compute; reflexivity|]. by vm_compute. Qed.

End DebtorProps.

Module RevisionsProps.
Import Revisions.

(** ** Approving a product *)

Lemma next_revision_above (n : Z) : n < next_revision (Some n).
Proof. unfold next_revision. case_bool_decide; lia. Qed.

Lemma approveProductUpdate_eq p s base u :
  products s !! p = Some base -> updatedProducts s !! p = Some u ->
  let n := next_revision (product_currentRevision base) in
  let rev := mkProductRevision (up_name u) (up_price u) (up_category u) in
  let resp := mkProductResponse p (Some n) (up_name u) (up_price u) (up_category u) in
  approveProductUpdate p s
  = match productRevisions s !! (p, n) with
    | None =>
        (Ok (Some resp), approved_store s p base (<[(p, n) := rev]> (productRevisions s)))
    | Some old =>
        if bool_decide (old = rev)
        then (Ok (Some resp), approved_store s p base (productRevisions s))
        else (Err ImmutableError, s)
    end.
Proof.
  intros Hb Hu n rev resp. unfold approveProductUpdate. rewrite Hb, Hu. fold n rev.
  unfold bind at 1. unfold saveProductRevision.
  destruct (productRevisions s !! (p, n)) as [old|] eqn:Hr.
  - case_bool_decide as Heq; [|done]. subst old.
    unfold bind, modify, getProduct. simpl.
    rewrite lookup_insert_eq. simpl. by rewrite Hr.
  - unfold bind, modify, getProduct. simpl.
    rewrite lookup_insert_eq. simpl. by rewrite lookup_insert_eq.
Qed.

Lemma approveProductUpdate_undefined p s :
  products s !! p = None \/ updatedProducts s !! p = None ->
  approveProductUpdate p s = (Ok None, s).
Proof.
  unfold approveProductUpdate. intros [->| ->]; [done|].
  by destruct (products s !! p).
Qed.


(** The three ways an approval of [p] can end. *)
Lemma approveProductUpdate_cases p s :
  approveProductUpdate p s = (Ok None, s)
  \/ approveProductUpdate p s = (Err ImmutableError, s)
     /\ (exists base, products s !! p = Some base
           /\ is_Some (productRevisions s
                         !! (p, next_revision (product_currentRevision base))))
  \/ exists base u resp revs,
       products s !! p = Some base /\ updatedProducts s !! p = Some u
       /\ approveProductUpdate p s = (Ok (Some resp), approved_store s p base revs)
       /\ p_id resp = p
       /\ p_revision resp = Some (next_revision (product_currentRevision base))
       /\ is_Some (revs !! (p, next_revision (product_currentRevision base)))
       /\ (revs = productRevisions s
           \/ productRevisions s !! (p, next_revision (product_currentRevision base)) = None
              /\ revs = <[(p, next_revision (product_currentRevision base))
                          := mkProductRevision (up_name u) (up_price u) (up_category u)]>
                          (productRevisions s)).
Proof.
  destruct (products s !! p) as [base|] eqn:Hb;
    [|left; apply approveProductUpdate_undefined; by left].
  destruct (updatedProducts s !! p) as [u|] eqn:Hu;
    [|left; apply approveProductUpdate_undefined; by right].
  rewrite (approveProductUpdate_eq p s base u Hb Hu). cbv zeta.
  destruct (productRevisions s !! _) as [old|] eqn:Hr.
  - case_bool_decide as Heq.
    + right. right. eexists base, u, _, _.
      split_and!; first [done | by rewrite Hr | by left].
    + right. left. split; [done|]. exists base. by rewrite Hr.
  - right. right. eexists base, u, _, _.
    split_and!; first [done | by rewrite lookup_insert_eq | by right].
Qed.

Lemma revisions_behind_fresh_product s p base :
  revisions_behind s -> products s !! p = Some base ->
  productRevisions s !! (p, next_revision (product_currentRevision base)) = None.
Proof.
  intros [Hp _] Hb.
  destruct (productRevisions s !! _) as [r|] eqn:Hr; [|done].
  destruct (Hp p _ (mk_is_Some _ _ Hr)) as (base' & n & Hb' & Hn & Hle).
  rewrite Hb in Hb'. injection Hb' as <-. rewrite Hn in Hle.
  pose proof (next_revision_above n). lia.
Qed.

Lemma revisions_behind_fresh_container s c base :
  revisions_behind s -> containers s !! c = Some base ->
  containerRevisions s !! (c, next_revision (container_currentRevision base)) = None.
Proof.
  intros [_ Hc] Hb.
  destruct (containerRevisions s !! _) as [r|] eqn:Hr; [|done].
  destruct (Hc c _ (mk_is_Some _ _ Hr)) as (base' & n & Hb' & Hn & Hle).
  rewrite Hb in Hb'. injection Hb' as <-. rewrite Hn in Hle.
  pose proof (next_revision_above n). lia.
Qed.

Lemma revisions_behind_approved s p base u :
  revisions_behind s -> products s !! p = Some base ->
  revisions_behind
    (approved_store s p base
       (<[(p, next_revision (product_currentRevision base))
          := mkProductRevision (up_name u) (up_price u) (up_category u)]>
          (productRevisions s))).
Proof.
  intros [Hp Hc] Hb. split; [|exact Hc].
  intros q r. simpl. destruct (decide (q = p)) as [->|Hne].
  - rewrite lookup_insert_eq. intros Hs. eexists _, _. split_and!; try done. simpl.
    destruct (decide (r = next_revision (product_currentRevision base))) as [->|Hr]; [done|].
    rewrite lookup_insert_ne in Hs by congruence.
    destruct (Hp p r Hs) as (base' & n & Hb' & Hn & Hle).
    rewrite Hb in Hb'. injection Hb' as <-. rewrite Hn.
    pose proof (next_revision_above n). lia.
  - rewrite lookup_insert_ne by congruence. rewrite lookup_insert_ne by done. apply Hp.
Qed.

Lemma approveProductUpdate_effect p s r s' :
  approveProductUpdate p s = (r, s') ->
  same_containers s s'
  /\ (forall q, q <> p ->
        products s' !! q = products s !! q
        /\ updatedProducts s' !! q = updatedProducts s !! q
        /\ forall n, productRevisions s' !! (q, n) = productRevisions s !! (q, n))
  /\ (forall k v, productRevisions s !! k = Some v -> productRevisions s' !! k = Some v)
  /\ (revisions_behind s -> revisions_behind s' /\ r <> Err ImmutableError).
Proof.
  intros Hrun.
  destruct (approveProductUpdate_cases p s)
    as [Hu|[[He (base & Hb & Hs)]|(base & u & resp & revs & Hb & Hd & Hok & _ & _ & _ & Hrevs)]];
    rewrite Hrun in *.
  - injection Hu as -> ->. by split_and!.
  - injection He as -> ->. split_and!; try done.
    intros Hbeh. by rewrite (revisions_behind_fresh_product _ _ _ Hbeh Hb) in Hs.
  - injection Hok as -> ->. split_and!.
    + done.
    + intros q Hq. simpl. rewrite lookup_insert_ne, lookup_delete_ne by done.
      split_and!; try done. intros n. destruct Hrevs as [->|[_ ->]]; [done|].
      rewrite lookup_insert_ne; [done|congruence].
    + intros k v Hk. simpl. destruct Hrevs as [->|[Hfresh ->]]; [done|].
      rewrite lookup_insert_ne; [done|]. intros <-. by rewrite Hfresh in Hk.
    + intros Hbeh. split; [|done]. destruct Hrevs as [->|[_ ->]].
      * pose proof (revisions_behind_fresh_product _ _ _ Hbeh Hb) as Hfresh.
        pose proof (approveProductUpdate_eq p s base u Hb Hd) as Heq.
        cbv zeta in Heq. rewrite Hfresh, Hrun in Heq. injection Heq as _ Hst.
        rewrite Hst. by apply revisions_behind_approved.
      * by apply revisions_behind_approved.
Qed.

(** ** Approving a container *)

Lemma reviseContainer_eq (lax : bool) c base raw pids s :
  let n := next_revision (container_currentRevision base) in
  let rev := mkContainerRevision (uc_name raw) (findProductRevisions s pids) in
  let resp := mkContainerResponse (if lax then public_column base else c) (Some n)
                (uc_name raw) in
  reviseContainer lax c base raw pids s
  = match containerRevisions s !! (c, n) with
    | None =>
        (Ok (Some resp), revised_store s c base (<[(c, n) := rev]> (containerRevisions s)))
    | Some old =>
        if bool_decide (old = rev)
        then (Ok (Some resp), revised_store s c base (containerRevisions s))
        else (Err ImmutableError, s)
    end.
Proof.
  intros n rev resp. unfold reviseContainer. fold n rev.
  unfold bind at 1. unfold saveContainerRevision.
  destruct (containerRevisions s !! (c, n)) as [old|] eqn:Hr.
  - case_bool_decide as Heq; [|done]. subst old.
    unfold bind, modify, getProductsResponse, getProductsResponse_lax, public_column.
    destruct lax; simpl; rewrite lookup_insert_eq; simpl; by rewrite Hr.
  - unfold bind, modify, getProductsResponse, getProductsResponse_lax, public_column.
    destruct lax; simpl; rewrite lookup_insert_eq; simpl; by rewrite lookup_insert_eq.
Qed.


Lemma same_containers_trans s1 s2 s3 :
  same_containers s1 s2 -> same_containers s2 s3 -> same_containers s1 s3.
Proof. unfold same_containers. intros (? & ? & ?) (? & ? & ?). split_and!; congruence. Qed.

Lemma approveAndPush_effect p s r s' :
  approveAndPush p s = (r, s') ->
  same_containers s s'
  /\ (forall q, q <> p ->
        products s' !! q = products s !! q
        /\ updatedProducts s' !! q = updatedProducts s !! q
        /\ forall n, productRevisions s' !! (q, n) = productRevisions s !! (q, n))
  /\ (forall k v, productRevisions s !! k = Some v -> productRevisions s' !! k = Some v)
  /\ (revisions_behind s -> revisions_behind s' /\ r <> Err ImmutableError).
Proof.
  unfold approveAndPush, bind.
  destruct (approveProductUpdate p s) as [r0 s1] eqn:Hrun.
  destruct (approveProductUpdate_effect p s r0 s1 Hrun) as (Hc & Hf & Hm & Hb).
  destruct r0 as [[up|]|e]; intros [= <- <-]; split_and!; try done;
    intros Hbeh; destruct (Hb Hbeh) as [? Hne]; (split; [done|]);
    first [done | intros [= ->]; by apply Hne].
Qed.

Lemma pushes_effect (pids : list Z) :
  forall s r s',
    mapM approveAndPush pids s = (r, s') ->
    same_containers s s'
    /\ (forall q, q ∉ pids ->
          products s' !! q = products s !! q
          /\ updatedProducts s' !! q = updatedProducts s !! q
          /\ forall n, productRevisions s' !! (q, n) = productRevisions s !! (q, n))
    /\ (forall k v, productRevisions s !! k = Some v -> productRevisions s' !! k = Some v)
    /\ (revisions_behind s -> revisions_behind s' /\ r <> Err ImmutableError).
Proof.
  induction pids as [|p pids IH]; intros s r s'.
  - intros [= <- <-]. by split_and!.
  - simpl. unfold bind at 1.
    destruct (approveAndPush p s) as [r1 s1] eqn:Hstep.
    destruct (approveAndPush_effect p s r1 s1 Hstep) as (Hc1 & Hf1 & Hm1 & Hb1).
    destruct r1 as [x|e].
    + unfold bind at 1. destruct (mapM approveAndPush pids s1) as [r2 s2] eqn:Hloop.
      destruct (IH s1 r2 s2 Hloop) as (Hc2 & Hf2 & Hm2 & Hb2).
      assert (Hgoal : same_containers s s2
        /\ (forall q, q ∉ p :: pids ->
              products s2 !! q = products s !! q
              /\ updatedProducts s2 !! q = updatedProducts s !! q
              /\ forall n, productRevisions s2 !! (q, n) = productRevisions s !! (q, n))
        /\ (forall k v, productRevisions s !! k = Some v -> productRevisions s2 !! k = Some v)).
      { split_and!.
        - by eapply same_containers_trans.
        - intros q Hq. apply not_elem_of_cons in Hq as [Hqp Hq].
          destruct (Hf1 q Hqp) as (E1 & E2 & E3). destruct (Hf2 q Hq) as (F1 & F2 & F3).
          split_and!; [congruence|congruence|]. intros n. by rewrite F3, E3.
        - auto. }
      destruct Hgoal as (? & ? & ?).
      destruct r2 as [xs|e]; intros [= <- <-]; split_and!; try done;
        intros Hbeh; destruct (Hb1 Hbeh) as [Hbeh1 _];
        destruct (Hb2 Hbeh1) as [? Hne]; (split; [done|]);
        first [done | intros [= ->]; by apply Hne].
    + intros [= <- <-]. split_and!; try done.
      * intros q Hq. apply not_elem_of_cons in Hq as [Hqp Hq]. by apply Hf1.
      * intros Hbeh. destruct (Hb1 Hbeh) as [? Hne]. split; [done|].
        intros [= ->]. by apply Hne.
Qed.

Lemma reviseContainer_effect (lax : bool) c base raw pids s r s' :
  containers s !! c = Some base ->
  reviseContainer lax c base raw pids s = (r, s') ->
  same_products s s'
  /\ (forall c', c' <> c ->
        containers s' !! c' = containers s !! c'
        /\ updatedContainers s' !! c' = updatedContainers s !! c'
        /\ forall n, containerRevisions s' !! (c', n) = containerRevisions s !! (c', n))
  /\ (forall k v, containerRevisions s !! k = Some v -> containerRevisions s' !! k = Some v)
  /\ (revisions_behind s -> revisions_behind s' /\ r <> Err ImmutableError).
Proof.
  intros Hb. rewrite reviseContainer_eq. cbv zeta.
  destruct (containerRevisions s !! _) as [old|] eqn:Hr.
  - case_bool_decide as Heq.
    + intros [= <- <-]. split_and!; try done.
      * intros c' Hc'. simpl. by rewrite lookup_insert_ne, lookup_delete_ne.
      * intros Hbeh. by rewrite (revisions_behind_fresh_container _ _ _ Hbeh Hb) in Hr.
    + intros [= <- <-]. split_and!; try done.
      intros Hbeh. by rewrite (revisions_behind_fresh_container _ _ _ Hbeh Hb) in Hr.
  - intros [= <- <-]. split_and!; try done.
    + intros c' Hc'. simpl. rewrite lookup_insert_ne, lookup_delete_ne by done.
      split_and!; try done. intros n. rewrite lookup_insert_ne; [done|congruence].
    + intros k v Hk. simpl. rewrite lookup_insert_ne; [done|].
      intros <-. by rewrite Hr in Hk.
    + intros [Hp Hc]. split; [|done]. split; [exact Hp|].
      intros c' n. simpl. destruct (decide (c' = c)) as [->|Hne].
      * rewrite lookup_insert_eq. intros Hs. eexists _, _. split_and!; try done. simpl.
        destruct (decide (n = next_revision (container_currentRevision base)))
          as [->|Hn]; [done|].
        rewrite lookup_insert_ne in Hs by congruence.
        destruct (Hc c n Hs) as (base' & m & Hb' & Hm & Hle).
        rewrite Hb in Hb'. injection Hb' as <-. rewrite Hm.
        pose proof (next_revision_above m). lia.
      * rewrite lookup_insert_ne by congruence. rewrite lookup_insert_ne by done.
        apply Hc.
Qed.


(** ** What each public operation does to the tables *)

Lemma updateContainer_eq c update s :
  updateContainer c update s
  = match containers s !! c with
    | None => (Ok None, s)
    | Some _ =>
        (Ok (Some (mkContainerResponse c None (creq_name update))),
         set_updatedContainers
           (insert c (mkUpdatedContainer (creq_name update)
                        (list_to_set (filter (fun id => is_Some (products s !! id))
                                             (creq_products update))))) s)
    end.
Proof.
  unfold updateContainer. destruct (containers s !! c) as [base|] eqn:Hb; [|done].
  unfold bind, modify, getProductsResponse. simpl.
  rewrite Hb, lookup_insert_eq. done.
Qed.

Lemma strict_cases c s :
  approveContainerUpdate_strict c s = (Ok None, s)
  \/ approveContainerUpdate_strict c s = (Err UnapprovedProductError, s)
  \/ exists base raw,
       containers s !! c = Some base /\ updatedContainers s !! c = Some raw
       /\ approveContainerUpdate_strict c s
          = reviseContainer false c base raw (draftProductIds s raw) s.
Proof.
  unfold approveContainerUpdate_strict.
  destruct (containers s !! c) as [base|]; [|by left].
  destruct (updatedContainers s !! c) as [raw|]; [|by left].
  destruct (findUpdatedProducts s (draftProductIds s raw)); [|right; by left].
  right. right. by exists base, raw.
Qed.

Lemma lax_cases c s :
  approveContainerUpdate_lax c s = (Ok None, s)
  \/ exists base raw,
       containers s !! c = Some base /\ updatedContainers s !! c = Some raw
       /\ approveContainerUpdate_lax c s
          = match mapM approveAndPush
                    (findUpdatedProducts s (draftProductIds s raw)) s with
            | (Ok pushed, s1) =>
                reviseContainer true c base raw (draftProductIds s raw ++ pushed) s1
            | (Err e, s1) => (Err e, s1)
            end.
Proof.
  unfold approveContainerUpdate_lax.
  destruct (containers s !! c) as [base|]; [|by left].
  destruct (updatedContainers s !! c) as [raw|]; [|by left].
  right. by exists base, raw.
Qed.

Lemma outcome_of_threw {A : Type} (r : result (option A)) e :
  outcome_of r = Threw e <-> r = Err e.
Proof. destruct r as [[?|]|?]; simpl; split; congruence. Qed.

(** Every public operation keeps the revision rows behind their bases,
    never runs into [denyUpdate] from such a store, and never changes or
    removes a revision row. *)
Lemma run_op_behind o s r s' :
  run_op o s = (r, s') ->
  (forall k v, productRevisions s !! k = Some v -> productRevisions s' !! k = Some v)
  /\ (forall k v, containerRevisions s !! k = Some v -> containerRevisions s' !! k = Some v)
  /\ (revisions_behind s -> revisions_behind s' /\ r <> Threw ImmutableError).
Proof.
  destruct o as [owner req|p req|p|owner req|c req|c|c]; simpl.
  - (* createProduct *)
    intros [= <- <-]. split_and!; try done. intros [Hp Hc].
    split; [|by destruct (getUpdatedProduct _ _)].
    split; [|exact Hc]. intros q n Hs. simpl in *.
    destruct (Hp q n Hs) as (base & m & Hb & Hm & Hle).
    exists base, m. split_and!; try done. rewrite lookup_insert_ne; [done|].
    intros <-. by rewrite next_key_fresh in Hb.
  - (* updateProduct *)
    unfold updateProduct. destruct (products s !! p); intros [= <- <-];
      split_and!; try done; intros Hw; (split; [done|]);
      by destruct (getUpdatedProduct _ _).
  - (* approveProductUpdate *)
    destruct (approveProductUpdate p s) as [r0 s0] eqn:Hrun. intros [= <- <-].
    destruct (approveProductUpdate_effect p s r0 s0 Hrun) as ((_ & _ & Hc) & _ & Hm & Hb).
    split_and!; try done.
    + intros k v. by rewrite Hc.
    + intros Hbeh. destruct (Hb Hbeh) as [? Hne]. split; [done|].
      by intros ?%outcome_of_threw.
  - (* createContainer *)
    unfold createContainer. rewrite updateContainer_eq. simpl.
    rewrite lookup_insert_eq. intros [= <- <-]. split_and!; try done.
    intros [Hp Hc]. split; [|done]. split; [exact Hp|]. intros q n Hs. simpl in *.
    destruct (Hc q n Hs) as (base & m & Hb & Hm & Hle).
    exists base, m. split_and!; try done. rewrite lookup_insert_ne; [done|].
    intros <-. by rewrite next_key_fresh in Hb.
  - (* updateContainer *)
    rewrite updateContainer_eq.
    destruct (containers s !! c); intros [= <- <-]; by split_and!.
  - (* approveContainerUpdate, strict *)
    destruct (approveContainerUpdate_strict c s) as [r0 s0] eqn:Hrun. intros [= <- <-].
    destruct (strict_cases c s) as [Hu|[Hu|(base & raw & Hb & Hd & Heq)]];
      rewrite Hrun in *.
    + injection Hu as -> ->. by split_and!.
    + injection Hu as -> ->. by split_and!.
    + symmetry in Heq.
      destruct (reviseContainer_effect _ _ _ _ _ _ _ _ Hb Heq) as ((_ & _ & Hp) & _ & Hm & Hbeh).
      split_and!; try done.
      * intros k v. by rewrite Hp.
      * intros Hw. destruct (Hbeh Hw) as [? Hne]. split; [done|].
        by intros ?%outcome_of_threw.
  - (* approveContainerUpdate, lax *)
    destruct (approveContainerUpdate_lax c s) as [r0 s0] eqn:Hrun. intros [= <- <-].
    destruct (lax_cases c s) as [Hu|(base & raw & Hb & Hd & Heq)]; rewrite Hrun in *.
    + injection Hu as -> ->. by split_and!.
    + destruct (mapM approveAndPush _ s) as [r1 s1] eqn:Hloop.
      destruct (pushes_effect _ _ _ _ Hloop) as (Hsame & _ & Hm1 & Hb1).
      destruct r1 as [pushed|e].
      * symmetry in Heq. pose proof Hsame as (Hcs & _ & Hcr).
        assert (Hb' : containers s1 !! c = Some base) by (by rewrite Hcs).
        destruct (reviseContainer_effect _ _ _ _ _ _ _ _ Hb' Heq)
          as ((_ & _ & Hp) & _ & Hm & Hbeh).
        split_and!.
        -- intros k v Hk. rewrite Hp. by apply Hm1.
        -- intros k v Hk. apply Hm. by rewrite Hcr.
        -- intros Hw. destruct (Hb1 Hw) as [Hw1 _]. destruct (Hbeh Hw1) as [? Hne].
           split; [done|]. by intros ?%outcome_of_threw.
      * injection Heq as -> ->. pose proof Hsame as (_ & _ & Hcr). split_and!; try done.
        -- intros k v. by rewrite Hcr.
        -- intros Hw. destruct (Hb1 Hw) as [? Hne]. split; [done|].
           intros [= ->]. by apply Hne.
Qed.


Lemma run_cons o ops s :
  run (o :: ops) s
  = ((run_op o s).1 :: (run ops (run_op o s).2).1, (run ops (run_op o s).2).2).
Proof.
  simpl. destruct (run_op o s) as [r s1]. simpl. by destruct (run ops s1).
Qed.

Lemma run_behind ops :
  forall s,
    (forall k v, productRevisions s !! k = Some v ->
       productRevisions (run ops s).2 !! k = Some v)
    /\ (forall k v, containerRevisions s !! k = Some v ->
          containerRevisions (run ops s).2 !! k = Some v)
    /\ (revisions_behind s ->
          revisions_behind (run ops s).2
          /\ Forall (fun r => r <> Threw ImmutableError) (run ops s).1).
Proof.
  induction ops as [|o ops IH]; intros s.
  - simpl. by split_and!.
  - rewrite run_cons. simpl.
    destruct (run_op o s) as [r s1] eqn:Hop.
    destruct (run_op_behind o s r s1 Hop) as (Hp1 & Hc1 & Hb1).
    destruct (IH s1) as (Hp2 & Hc2 & Hb2). simpl. split_and!; [auto..|].
    intros Hw. destruct (Hb1 Hw) as [Hw1 Hne]. destruct (Hb2 Hw1) as [Hw2 Hall].
    split; [done|]. by constructor.
Qed.

Lemma revisions_behind_empty : revisions_behind emptyStore.
Proof.
  split; intros k r [v Hv]; simpl in Hv; by rewrite lookup_empty in Hv.
Qed.

(** ** Counting approvals *)

Lemma next_revision_pointer (n : nat) : next_revision (pointer n) = Z.of_nat n + 1.
Proof.
  destruct n as [|n]; [done|]. unfold pointer, next_revision.
  rewrite bool_decide_eq_false_2; lia.
Qed.

Lemma pointer_succ (n : nat) : Some (Z.of_nat n + 1) = pointer (S n).
Proof. unfold pointer. f_equal. lia. Qed.

(** A store that agrees with [s] on product [p] and on its revisions. *)
Lemma product_at_frame s s' p n :
  products s' !! p = products s !! p ->
  (forall r, productRevisions s' !! (p, r) = productRevisions s !! (p, r)) ->
  product_at s p n -> product_at s' p n.
Proof.
  intros Hb Hr [Hbase Hrevs]. split; [by rewrite Hb|]. intros r. by rewrite Hr.
Qed.

Lemma container_at_frame s s' c n :
  containers s' !! c = containers s !! c ->
  (forall r, containerRevisions s' !! (c, r) = containerRevisions s !! (c, r)) ->
  container_at s c n -> container_at s' c n.
Proof.
  intros Hb Hr [Hbase Hrevs]. split; [by rewrite Hb|]. intros r. by rewrite Hr.
Qed.

Lemma same_products_at s s' p n :
  same_products s s' -> product_at s p n -> product_at s' p n.
Proof. intros (Hp & _ & Hr). apply product_at_frame; by rewrite ?Hp, ?Hr. Qed.

Lemma same_containers_at s s' c n :
  same_containers s s' -> container_at s c n -> container_at s' c n.
Proof. intros (Hc & _ & Hr). apply container_at_frame; by rewrite ?Hc, ?Hr. Qed.

Lemma approveProductUpdate_at p s r s' n :
  product_at s p n ->
  approveProductUpdate p s = (r, s') ->
  product_at s' p (n + (if returned (outcome_of r) then 1 else 0)).
Proof.
  intros Hat Hrun. pose proof Hat as [(base & Hb & Hcr) Hrevs].
  assert (Hfresh : productRevisions s !! (p, next_revision (product_currentRevision base)) = None).
  { rewrite Hcr, next_revision_pointer.
    destruct (productRevisions s !! _) as [v|] eqn:Hv; [|done].
    destruct (Hrevs (Z.of_nat n + 1)) as [Hin _]. specialize (Hin (mk_is_Some _ _ Hv)). lia. }
  destruct (approveProductUpdate_cases p s)
    as [Hu|[[He (base' & Hb' & Hs)]|(base' & u & resp & revs & Hb' & Hd & Hok & _ & _ & Hs & Hr)]];
    rewrite Hrun in *.
  - injection Hu as -> ->. simpl. by rewrite Nat.add_0_r.
  - rewrite Hb in Hb'. injection Hb' as <-. rewrite Hfresh in Hs. by destruct Hs.
  - rewrite Hb in Hb'. injection Hb' as <-. injection Hok as -> ->. simpl.
    destruct Hr as [->|[_ ->]]; [rewrite Hfresh in Hs; by destruct Hs|].
    rewrite Nat.add_1_r. split.
    + eexists. simpl. rewrite lookup_insert_eq. split; [done|]. simpl.
      by rewrite Hcr, next_revision_pointer, pointer_succ.
    + intros k. simpl. rewrite Hcr, next_revision_pointer.
      destruct (decide (k = Z.of_nat n + 1)) as [->|Hk].
      * rewrite lookup_insert_eq. split; [lia|done].
      * rewrite lookup_insert_ne by congruence. rewrite Hrevs. lia.
Qed.

Lemma approveProductUpdate_other p q s r s' n :
  q <> p -> product_at s p n -> approveProductUpdate q s = (r, s') -> product_at s' p n.
Proof.
  intros Hne Hat Hrun.
  destruct (approveProductUpdate_effect q s r s' Hrun) as (_ & Hf & _).
  destruct (Hf p (not_eq_sym Hne)) as (Hb & _ & Hr). by apply (product_at_frame s).
Qed.

Lemma reviseContainer_at (lax : bool) c base raw pids s r s' n :
  container_at s c n -> containers s !! c = Some base ->
  reviseContainer lax c base raw pids s = (r, s') ->
  r = Ok (Some (mkContainerResponse (if lax then public_column base else c)
                  (Some (Z.of_nat n + 1)) (uc_name raw)))
  /\ container_at s' c (S n).
Proof.
  intros [(base' & Hb' & Hcr) Hrevs] Hb. rewrite Hb in Hb'. injection Hb' as <-.
  rewrite reviseContainer_eq. cbv zeta. rewrite Hcr, next_revision_pointer.
  destruct (containerRevisions s !! _) as [v|] eqn:Hv.
  { destruct (Hrevs (Z.of_nat n + 1)) as [Hin _]. specialize (Hin (mk_is_Some _ _ Hv)). lia. }
  intros [= <- <-]. split; [done|]. split.
  - eexists. simpl. rewrite lookup_insert_eq. split; [done|]. simpl.
    by rewrite Hcr, next_revision_pointer, pointer_succ.
  - intros k. simpl.
    destruct (decide (k = Z.of_nat n + 1)) as [->|Hk].
    + rewrite lookup_insert_eq. split; [lia|done].
    + rewrite lookup_insert_ne by congruence. rewrite Hrevs. lia.
Qed.

Lemma reviseContainer_other (lax : bool) c c' base raw pids s r s' n :
  c' <> c -> containers s !! c' = Some base -> container_at s c n ->
  reviseContainer lax c' base raw pids s = (r, s') -> container_at s' c n.
Proof.
  intros Hne Hb Hat Hrun.
  destruct (reviseContainer_effect _ _ _ _ _ _ _ _ Hb Hrun) as (_ & Hf & _).
  destruct (Hf c (not_eq_sym Hne)) as (Hb' & _ & Hr). by apply (container_at_frame s).
Qed.

Lemma run_op_product_at o s r s' p n :
  cascades o = false ->
  product_at s p n ->
  run_op o s = (r, s') ->
  product_at s' p (n + (if approves_product p o && returned r then 1 else 0)).
Proof.
  intros Hcas Hat.
  destruct o as [owner req|q req|q|owner req|c req|c|c]; simpl; try done.
  - intros [= <- <-]. rewrite Nat.add_0_r. apply (product_at_frame s); [|done..].
    simpl. rewrite lookup_insert_ne; [done|].
    intros Heq. destruct Hat as [(base & Hb & _) _].
    by rewrite <- Heq, next_key_fresh in Hb.
  - unfold updateProduct. rewrite Nat.add_0_r.
    destruct (products s !! q); intros [= <- <-]; by apply (product_at_frame s).
  - destruct (approveProductUpdate q s) as [r0 s0] eqn:Hrun. intros [= <- <-].
    case_bool_decide as Hq; simpl.
    + subst q. by apply (approveProductUpdate_at p s r0).
    + rewrite Nat.add_0_r. by apply (approveProductUpdate_other p q s r0).
  - unfold createContainer. rewrite updateContainer_eq. simpl.
    rewrite lookup_insert_eq. intros [= <- <-]. rewrite Nat.add_0_r.
    by apply (product_at_frame s).
  - rewrite updateContainer_eq. rewrite Nat.add_0_r.
    destruct (containers s !! c); intros [= <- <-]; by apply (product_at_frame s).
  - destruct (approveContainerUpdate_strict c s) as [r0 s0] eqn:Hrun. intros [= <- <-].
    rewrite Nat.add_0_r.
    destruct (strict_cases c s) as [Hu|[Hu|(base & raw & Hb & Hd & Heq)]];
      rewrite Hrun in *.
    + by injection Hu as -> ->.
    + by injection Hu as -> ->.
    + symmetry in Heq.
      destruct (reviseContainer_effect _ _ _ _ _ _ _ _ Hb Heq) as (Hsame & _).
      by apply (same_products_at s).
Qed.

Lemma run_op_container_at o s r s' c n :
  container_at s c n ->
  run_op o s = (r, s') ->
  container_at s' c (n + (if approves_container c o && returned r then 1 else 0)).
Proof.
  intros Hat.
  destruct o as [owner req|q req|q|owner req|q req|q|q]; simpl.
  - intros [= <- <-]. rewrite Nat.add_0_r. by apply (container_at_frame s).
  - unfold updateProduct. rewrite Nat.add_0_r.
    destruct (products s !! q); intros [= <- <-]; by apply (container_at_frame s).
  - destruct (approveProductUpdate q s) as [r0 s0] eqn:Hrun. intros [= <- <-].
    rewrite Nat.add_0_r.
    destruct (approveProductUpdate_effect q s r0 s0 Hrun) as (Hsame & _).
    by apply (same_containers_at s).
  - unfold createContainer. rewrite updateContainer_eq. simpl.
    rewrite lookup_insert_eq. intros [= <- <-]. rewrite Nat.add_0_r.
    apply (container_at_frame s); [|done..].
    simpl. rewrite lookup_insert_ne; [done|].
    intros Heq. destruct Hat as [(base & Hb & _) _].
    by rewrite <- Heq, next_key_fresh in Hb.
  - rewrite updateContainer_eq. rewrite Nat.add_0_r.
    destruct (containers s !! q); intros [= <- <-]; by apply (container_at_frame s).
  - destruct (approveContainerUpdate_strict q s) as [r0 s0] eqn:Hrun. intros [= <- <-].
    destruct (strict_cases q s) as [Hu|[Hu|(base & raw & Hb & Hd & Heq)]];
      rewrite Hrun in *.
    + injection Hu as -> ->. simpl. by rewrite andb_false_r, Nat.add_0_r.
    + injection Hu as -> ->. simpl. by rewrite andb_false_r, Nat.add_0_r.
    + symmetry in Heq. case_bool_decide as Hq; simpl.
      * subst q. destruct (reviseContainer_at _ _ _ _ _ _ _ _ _ Hat Hb Heq) as [-> Hat'].
        simpl. by rewrite Nat.add_1_r.
      * rewrite Nat.add_0_r. by eapply (reviseContainer_other _ c q).
  - destruct (approveContainerUpdate_lax q s) as [r0 s0] eqn:Hrun. intros [= <- <-].
    destruct (lax_cases q s) as [Hu|(base & raw & Hb & Hd & Heq)]; rewrite Hrun in *.
    + injection Hu as -> ->. simpl. by rewrite andb_false_r, Nat.add_0_r.
    + destruct (mapM approveAndPush _ s) as [r1 s1] eqn:Hloop.
      destruct (pushes_effect _ _ _ _ Hloop) as (Hsame & _).
      pose proof (same_containers_at _ _ _ _ Hsame Hat) as Hat1.
      assert (Hb1 : containers s1 !! q = Some base)
        by (destruct Hsame as (-> & _); done).
      destruct r1 as [pushed|e].
      * symmetry in Heq. case_bool_decide as Hq; simpl.
        -- subst q. destruct (reviseContainer_at _ _ _ _ _ _ _ _ _ Hat1 Hb1 Heq) as [-> Hat'].
           simpl. by rewrite Nat.add_1_r.
        -- rewrite Nat.add_0_r. by eapply (reviseContainer_other _ c q).
      * injection Heq as -> ->. simpl. by rewrite andb_false_r, Nat.add_0_r.
Qed.

Lemma run_product_at ops p :
  forall s n,
    Forall (fun o => cascades o = false) ops ->
    product_at s p n ->
    product_at (run ops s).2 p (n + approvals (approves_product p) ops (run ops s).1).
Proof.
  induction ops as [|o ops IH]; intros s n Hall Hat.
  - simpl. by rewrite Nat.add_0_r.
  - apply Forall_cons in Hall as [Ho Hall]. rewrite run_cons.
    destruct (run_op o s) as [r s1] eqn:Hop. simpl.
    rewrite Nat.add_assoc. apply IH; [done|]. by apply (run_op_product_at o s).
Qed.

Lemma run_container_at ops c :
  forall s n,
    container_at s c n ->
    container_at (run ops s).2 c (n + approvals (approves_container c) ops (run ops s).1).
Proof.
  induction ops as [|o ops IH]; intros s n Hat.
  - simpl. by rewrite Nat.add_0_r.
  - rewrite run_cons. destruct (run_op o s) as [r s1] eqn:Hop. simpl.
    rewrite Nat.add_assoc. apply IH. by apply (run_op_container_at o s).
Qed.

(** With container approvals that approve products on the side, the
    revisions of a product still run from 1 to the pointer of its base. *)
Lemma pushes_at (pids : list Z) p :
  forall s r s' n,
    product_at s p n -> mapM approveAndPush pids s = (r, s') ->
    exists n', (n <= n')%nat /\ product_at s' p n'.
Proof.
  induction pids as [|q pids IH]; intros s r s' n Hat.
  - intros [= <- <-]. by exists n.
  - simpl. unfold bind at 1. unfold approveAndPush at 1. unfold bind at 1.
    destruct (approveProductUpdate q s) as [r0 s1] eqn:Hrun.
    assert (Hat1 : exists n1, (n <= n1)%nat /\ product_at s1 p n1).
    { destruct (decide (q = p)) as [->|Hne].
      - eexists. split; [|by apply (approveProductUpdate_at p s r0)]. lia.
      - exists n. split; [lia|]. by apply (approveProductUpdate_other p q s r0). }
    destruct Hat1 as (n1 & Hle & Hat1).
    destruct r0 as [[up|]|e]; simpl.
    + unfold bind at 1. destruct (mapM approveAndPush pids s1) as [r2 s2] eqn:Hloop.
      destruct (IH s1 r2 s2 n1 Hat1 Hloop) as (n2 & Hle2 & Hat2).
      destruct r2; intros [= <- <-]; exists n2; split; (lia || done).
    + intros [= <- <-]. by exists n1.
    + intros [= <- <-]. by exists n1.
Qed.

Lemma run_op_contiguous o s r s' p n :
  product_at s p n -> run_op o s = (r, s') ->
  exists n', (n <= n')%nat /\ product_at s' p n'.
Proof.
  intros Hat Hop. destruct (cascades o) eqn:Hcas.
  - destruct o as [| | | | | |c]; try done. simpl in Hop.
    destruct (approveContainerUpdate_lax c s) as [r0 s0] eqn:Hrun.
    injection Hop as <- <-.
    destruct (lax_cases c s) as [Hu|(base & raw & Hb & Hd & Heq)]; rewrite Hrun in *.
    + injection Hu as -> ->. by exists n.
    + destruct (mapM approveAndPush _ s) as [r1 s1] eqn:Hloop.
      destruct (pushes_at _ p _ _ _ _ Hat Hloop) as (n1 & Hle & Hat1).
      destruct (pushes_effect _ _ _ _ Hloop) as ((Hcs & _) & _).
      destruct r1 as [pushed|e].
      * symmetry in Heq. rewrite <- Hcs in Hb.
        destruct (reviseContainer_effect _ _ _ _ _ _ _ _ Hb Heq) as (Hsame & _).
        exists n1. split; [done|]. by apply (same_products_at s1).
      * injection Heq as -> ->. by exists n1.
  - eexists. split; [|by apply (run_op_product_at o s r s')]. lia.
Qed.

Lemma run_contiguous ops p :
  forall s n, product_at s p n ->
    exists n', (n <= n')%nat /\ product_at (run ops s).2 p n'.
Proof.
  induction ops as [|o ops IH]; intros s n Hat.
  - by exists n.
  - rewrite run_cons. destruct (run_op o s) as [r s1] eqn:Hop. simpl.
    destruct (run_op_contiguous o s r s1 p n Hat Hop) as (n1 & Hle1 & Hat1).
    destruct (IH s1 n1 Hat1) as (n2 & Hle2 & Hat2). exists n2. split; [lia|done].
Qed.

Lemma approveProductUpdate_returned p s resp s' :
  approveProductUpdate p s = (Ok (Some resp), s') ->
  exists base, products s !! p = Some base
    /\ let n := next_revision (product_currentRevision base) in
       p_revision resp = Some n
       /\ is_Some (productRevisions s' !! (p, n))
       /\ product_currentRevision <$> products s' !! p = Some (Some n).
Proof.
  intros Hrun.
  destruct (approveProductUpdate_cases p s)
    as [Hu|[[He _]|(base & u & resp' & revs & Hb & Hd & Hok & _ & Hrev & Hs & _)]];
    rewrite Hrun in *; try done.
  injection Hok as -> ->. exists base. split; [done|]. cbv zeta. split_and!; try done.
  simpl. by rewrite lookup_insert_eq.
Qed.

Lemma reviseContainer_returned (lax : bool) c base raw pids s resp s' :
  reviseContainer lax c base raw pids s = (Ok (Some resp), s') ->
  let n := next_revision (container_currentRevision base) in
  c_revision resp = Some n
  /\ is_Some (containerRevisions s' !! (c, n))
  /\ container_currentRevision <$> containers s' !! c = Some (Some n).
Proof.
  rewrite reviseContainer_eq. cbv zeta.
  destruct (containerRevisions s !! _) as [old|] eqn:Hr.
  - case_bool_decide; [|done]. intros [= <- <-]. simpl.
    rewrite lookup_insert_eq, Hr. by split_and!.
  - intros [= <- <-]. simpl. rewrite !lookup_insert_eq. by split_and!.
Qed.

Lemma approveContainerUpdate_returned c s resp s' :
  approveContainerUpdate_strict c s = (Ok (Some resp), s')
  \/ approveContainerUpdate_lax c s = (Ok (Some resp), s') ->
  exists base, containers s !! c = Some base
    /\ let n := next_revision (container_currentRevision base) in
       c_revision resp = Some n
       /\ is_Some (containerRevisions s' !! (c, n))
       /\ container_currentRevision <$> containers s' !! c = Some (Some n).
Proof.
  intros [Hrun|Hrun].
  - destruct (strict_cases c s) as [Hu|[Hu|(base & raw & Hb & Hd & Heq)]];
      rewrite Hrun in *; try done.
    exists base. split; [done|]. symmetry in Heq. by eapply reviseContainer_returned.
  - destruct (lax_cases c s) as [Hu|(base & raw & Hb & Hd & Heq)];
      rewrite Hrun in *; try done.
    destruct (mapM approveAndPush _ s) as [[pushed|e] s1]; [|done].
    exists base. split; [done|]. symmetry in Heq. by eapply reviseContainer_returned.
Qed.

(** ** The drafts of the products a container draft lists *)

Lemma draftProductIds_ids s raw :
  (draftProductIds s raw).*2
  = filter (fun id => is_Some (products s !! id)) (elements (uc_products raw)).
Proof.
  unfold draftProductIds. induction (elements (uc_products raw)) as [|id l IH]; [done|].
  simpl. destruct (products s !! id) as [pr|] eqn:Hp; simpl.
  - rewrite filter_cons_True by (by rewrite Hp). f_equal. exact IH.
  - rewrite filter_cons_False; [exact IH|]. rewrite Hp. by intros [? ?].
Qed.

Lemma elem_of_findUpdatedProducts s raw q :
  q ∈ findUpdatedProducts s (draftProductIds s raw)
  <-> q ∈ uc_products raw /\ is_Some (products s !! q) /\ is_Some (updatedProducts s !! q).
Proof.
  unfold findUpdatedProducts. rewrite draftProductIds_ids.
  rewrite !list_elem_of_filter, elem_of_elements. tauto.
Qed.

Lemma NoDup_findUpdatedProducts s raw :
  NoDup (findUpdatedProducts s (draftProductIds s raw)).
Proof.
  unfold findUpdatedProducts. rewrite draftProductIds_ids.
  apply NoDup_filter, NoDup_filter, NoDup_elements.
Qed.

(** From a store whose revisions are behind their bases, approving a list
    of distinct products that all have a draft succeeds for each of them. *)
Lemma pushes_ok (pids : list Z) :
  forall s,
    NoDup pids -> revisions_behind s ->
    (forall q, q ∈ pids -> is_Some (products s !! q) /\ is_Some (updatedProducts s !! q)) ->
    exists pushed s',
      mapM approveAndPush pids s = (Ok pushed, s')
      /\ revisions_behind s' /\ same_containers s s'
      /\ forall q, q ∈ pids ->
           exists base, products s !! q = Some base
             /\ let n := next_revision (product_currentRevision base) in
                productRevisions s !! (q, n) = None
                /\ is_Some (productRevisions s' !! (q, n))
                /\ product_currentRevision <$> products s' !! q = Some (Some n)
                /\ updatedProducts s' !! q = None
                /\ (Some n, q) ∈ pushed.
Proof.
  induction pids as [|p pids IH]; intros s Hnd Hw Hall.
  - exists [], s. split_and!; try done. intros q Hq. by apply elem_of_nil in Hq.
  - apply NoDup_cons in Hnd as [Hfresh Hnd].
    destruct (Hall p) as [[base Hb] [u Hu]]; [apply elem_of_cons; by left|].
    pose proof (revisions_behind_fresh_product _ _ _ Hw Hb) as Hnone.
    pose proof (approveProductUpdate_eq p s base u Hb Hu) as Heq. cbv zeta in Heq.
    rewrite Hnone in Heq.
    set (n := next_revision (product_currentRevision base)) in *.
    set (s1 := approved_store s p base _) in Heq.
    assert (Hstep : approveAndPush p s = (Ok (Some n, p), s1)).
    { unfold approveAndPush, bind. by rewrite Heq. }
    destruct (approveAndPush_effect p s _ _ Hstep) as (Hc1 & Hf1 & _ & Hb1).
    destruct (Hb1 Hw) as [Hw1 _].
    destruct (IH s1 Hnd Hw1) as (pushed & s' & Hloop & Hw' & Hc2 & Hq).
    { intros q Hq. destruct (Hall q) as [? ?]; [apply elem_of_cons; by right|].
      destruct (Hf1 q) as (-> & -> & _); [|done]. intros ->. done. }
    destruct (pushes_effect _ _ _ _ Hloop) as (_ & Hf2 & _).
    exists ((Some n, p) :: pushed), s'. split_and!.
    + simpl. unfold bind at 1. rewrite Hstep. unfold bind at 1. by rewrite Hloop.
    + done.
    + by eapply same_containers_trans.
    + intros q [->|Hin]%elem_of_cons.
      * exists base. split; [done|]. cbv zeta. fold n.
        destruct (Hf2 p Hfresh) as (-> & -> & ->).
        unfold s1. simpl. rewrite !lookup_insert_eq, lookup_delete_eq.
        split_and!; try done. apply elem_of_cons. by left.
      * destruct (Hq q Hin) as (qbase & Hqb & Hn0 & Hs & Hcr & Hd & Hp).
        assert (Hne : q <> p) by (intros ->; done).
        destruct (Hf1 q Hne) as (E1 & _ & E3).
        exists qbase. split; [by rewrite <- E1|]. cbv zeta in *.
        split_and!; try done; [by rewrite <- E3|]. apply elem_of_cons. by right.
Qed.

Lemma elem_of_findProductRevisions s pids q n :
  (Some n, q) ∈ pids -> is_Some (productRevisions s !! (q, n)) ->
  (q, n) ∈ findProductRevisions s pids.
Proof.
  intros Hin Hs. unfold findProductRevisions.
  apply elem_of_list_to_set, list_elem_of_omap. exists (Some n, q). split; [done|].
  simpl. by rewrite bool_decide_eq_true_2.
Qed.

(** ** An approval of a base that has a draft *)

Lemma product_at_fresh s p n :
  product_at s p n -> productRevisions s !! (p, Z.of_nat n + 1) = None.
Proof.
  intros [_ Hrevs]. destruct (productRevisions s !! _) as [v|] eqn:Hv; [|done].
  destruct (Hrevs (Z.of_nat n + 1)) as [Hin _]. specialize (Hin (mk_is_Some _ _ Hv)). lia.
Qed.

Lemma container_at_fresh s c n :
  container_at s c n -> containerRevisions s !! (c, Z.of_nat n + 1) = None.
Proof.
  intros [_ Hrevs]. destruct (containerRevisions s !! _) as [v|] eqn:Hv; [|done].
  destruct (Hrevs (Z.of_nat n + 1)) as [Hin _]. specialize (Hin (mk_is_Some _ _ Hv)). lia.
Qed.

Lemma approveProductUpdate_draft p s n u :
  product_at s p n -> updatedProducts s !! p = Some u ->
  exists s',
    approveProductUpdate p s
    = (Ok (Some (mkProductResponse p (Some (Z.of_nat n + 1))
                   (up_name u) (up_price u) (up_category u))), s')
    /\ productRevisions s' !! (p, Z.of_nat n + 1)
       = Some (mkProductRevision (up_name u) (up_price u) (up_category u))
    /\ product_at s' p (S n)
    /\ updatedProducts s' !! p = None.
Proof.
  intros Hat Hu. pose proof Hat as [(base & Hb & Hcr) _].
  pose proof (approveProductUpdate_eq p s base u Hb Hu) as Heq. cbv zeta in Heq.
  rewrite Hcr, next_revision_pointer, (product_at_fresh _ _ _ Hat) in Heq.
  eexists. split; [exact Heq|].
  pose proof (approveProductUpdate_at p s _ _ n Hat Heq) as Hat'.
  simpl in Hat'. rewrite Nat.add_1_r in Hat'.
  simpl. by rewrite lookup_insert_eq, lookup_delete_eq.
Qed.

Lemma reviseContainer_draft (lax : bool) c base raw pids s n :
  container_at s c n -> containers s !! c = Some base ->
  exists s',
    reviseContainer lax c base raw pids s
    = (Ok (Some (mkContainerResponse (if lax then public_column base else c)
                   (Some (Z.of_nat n + 1)) (uc_name raw))), s')
    /\ containerRevisions s' !! (c, Z.of_nat n + 1)
       = Some (mkContainerRevision (uc_name raw) (findProductRevisions s pids))
    /\ container_at s' c (S n)
    /\ updatedContainers s' !! c = None
    /\ same_products s s'.
Proof.
  intros Hat Hb. pose proof Hat as [(base' & Hb' & Hcr) _].
  rewrite Hb in Hb'. injection Hb' as <-.
  destruct (reviseContainer lax c base raw pids s) as [r s'] eqn:Hrun.
  destruct (reviseContainer_at _ _ _ _ _ _ _ _ _ Hat Hb Hrun) as [-> Hat'].
  destruct (reviseContainer_effect _ _ _ _ _ _ _ _ Hb Hrun) as (Hsame & _).
  exists s'. split; [done|].
  rewrite reviseContainer_eq in Hrun. cbv zeta in Hrun.
  rewrite Hcr, next_revision_pointer, (container_at_fresh _ _ _ Hat) in Hrun.
  injection Hrun as <-. simpl. by rewrite lookup_insert_eq, lookup_delete_eq.
Qed.

Lemma strict_approval_draft c s n raw :
  container_at s c n -> updatedContainers s !! c = Some raw ->
  findUpdatedProducts s (draftProductIds s raw) = [] ->
  exists s',
    approveContainerUpdate_strict c s
    = (Ok (Some (mkContainerResponse c (Some (Z.of_nat n + 1)) (uc_name raw))), s')
    /\ containerRevisions s' !! (c, Z.of_nat n + 1)
       = Some (mkContainerRevision (uc_name raw)
                 (findProductRevisions s (draftProductIds s raw)))
    /\ container_at s' c (S n)
    /\ updatedContainers s' !! c = None
    /\ same_products s s'.
Proof.
  intros Hat Hd Hnone. pose proof Hat as [(base & Hb & _) _].
  unfold approveContainerUpdate_strict. rewrite Hb, Hd, Hnone.
  apply (reviseContainer_draft false); done.
Qed.

Lemma lax_approval_draft c s n raw :
  container_at s c n -> updatedContainers s !! c = Some raw -> revisions_behind s ->
  exists resp s' crev,
    approveContainerUpdate_lax c s = (Ok (Some resp), s')
    /\ c_revision resp = Some (Z.of_nat n + 1)
    /\ c_name resp = uc_name raw
    /\ containerRevisions s' !! (c, Z.of_nat n + 1) = Some crev
    /\ cr_name crev = uc_name raw
    /\ container_at s' c (S n)
    /\ updatedContainers s' !! c = None.
Proof.
  intros Hat Hd Hw. pose proof Hat as [(base & Hb & _) _].
  destruct (pushes_ok (findUpdatedProducts s (draftProductIds s raw)) s)
    as (pushed & s1 & Hloop & _ & Hsame & _);
    [apply NoDup_findUpdatedProducts|done| |].
  { intros q Hq%elem_of_findUpdatedProducts. tauto. }
  pose proof (same_containers_at _ _ _ _ Hsame Hat) as Hat1.
  assert (Hb1 : containers s1 !! c = Some base) by (destruct Hsame as (-> & _); done).
  destruct (reviseContainer_draft true c base raw (draftProductIds s raw ++ pushed) s1 n
              Hat1 Hb1) as (s' & Hrun & Hrow & Hat' & Hgone & _).
  eexists _, s', _. split.
  { unfold approveContainerUpdate_lax. rewrite Hb, Hd. unfold bind. rewrite Hloop.
    exact Hrun. }
  by split_and!.
Qed.

Lemma updateProduct_draft p update s base :
  products s !! p = Some base ->
  run_op (UpdateProduct p update) s
  = (Returned,
     set_updatedProducts
       (insert p (mkUpdatedProduct (req_name update) (req_price update)
                                   (req_category update))) s).
Proof.
  intros Hb. simpl. unfold updateProduct, getUpdatedProduct. rewrite Hb. simpl.
  by rewrite Hb, lookup_insert_eq.
Qed.

(** Rounds of draft and approval of a product. *)
Lemma approve_each_run p (reqs : list ProductRequest) :
  forall s n,
    product_at s p n ->
    Forall (fun r => r = Returned) (run (approve_each p reqs) s).1
    /\ product_at (run (approve_each p reqs) s).2 p (n + length reqs)
    /\ forall k req, reqs !! k = Some req ->
         productRevisions (run (approve_each p reqs) s).2 !! (p, Z.of_nat (n + k) + 1)
         = Some (mkProductRevision (req_name req) (req_price req) (req_category req)).
Proof.
  induction reqs as [|req reqs IH]; intros s n Hat.
  - simpl. rewrite Nat.add_0_r. by split_and!.
  - unfold approve_each. rewrite bind_cons. fold (approve_each p reqs).
    cbn [app]. rewrite !run_cons.
    pose proof Hat as [(base & Hb & _) _].
    rewrite (updateProduct_draft p req s base Hb). cbn [fst snd].
    set (s1 := set_updatedProducts _ s).
    assert (Hat1 : product_at s1 p n) by (by apply (product_at_frame s)).
    destruct (approveProductUpdate_draft p s1 n _ Hat1 (lookup_insert_eq _ _ _))
      as (s2 & Hrun & Hrow & Hat2 & _).
    cbn [run_op]. rewrite Hrun. cbn [fst snd outcome_of].
    destruct (IH s2 (S n) Hat2) as (Hall & Hat' & Hrows).
    split_and!.
    + by repeat constructor.
    + by replace (n + length (req :: reqs))%nat with (S n + length reqs)%nat
        by (simpl; lia).
    + intros [|k] req' Hk; simpl in Hk.
      * injection Hk as <-. rewrite Nat.add_0_r.
        by apply (proj1 (run_behind (approve_each p reqs) s2)).
      * replace (n + S k)%nat with (S n + k)%nat by lia. by apply Hrows.
Qed.

Lemma findUpdatedProducts_none s pids :
  updatedProducts s = ∅ -> findUpdatedProducts s pids = [].
Proof.
  intros Hnone. unfold findUpdatedProducts. rewrite Hnone.
  induction (pids.*2) as [|q l IH]; [done|].
  rewrite filter_cons_False; [done|]. rewrite lookup_empty. by intros [? ?].
Qed.

(** Rounds of draft and approval of a container, where no product has a
    draft. *)
Lemma approve_each_container_run c (reqs : list ContainerRequest) :
  forall s n,
    container_at s c n -> updatedProducts s = ∅ ->
    Forall (fun r => r = Returned) (run (approve_each_container c reqs) s).1
    /\ container_at (run (approve_each_container c reqs) s).2 c (n + length reqs)
    /\ forall k req, reqs !! k = Some req ->
         exists crev,
           containerRevisions (run (approve_each_container c reqs) s).2
             !! (c, Z.of_nat (n + k) + 1) = Some crev
           /\ cr_name crev = creq_name req.
Proof.
  induction reqs as [|req reqs IH]; intros s n Hat Hnone.
  - simpl. rewrite Nat.add_0_r. by split_and!.
  - unfold approve_each_container. rewrite bind_cons. fold (approve_each_container c reqs).
    cbn [app]. rewrite !run_cons.
    pose proof Hat as [(base & Hb & _) _].
    cbn [run_op]. rewrite updateContainer_eq, Hb. cbn [fst snd outcome_of].
    set (raw := mkUpdatedContainer _ _). set (s1 := set_updatedContainers _ s).
    assert (Hat1 : container_at s1 c n) by (by apply (container_at_frame s)).
    destruct (strict_approval_draft c s1 n raw Hat1 (lookup_insert_eq _ _ _)
                (findUpdatedProducts_none s1 _ Hnone))
      as (s2 & Hrun & Hrow & Hat2 & _ & (_ & Hup & _)).
    rewrite Hrun. cbn [fst snd outcome_of].
    destruct (IH s2 (S n) Hat2) as (Hall & Hat' & Hrows); [by rewrite Hup|].
    split_and!.
    + by repeat constructor.
    + by replace (n + length (req :: reqs))%nat with (S n + length reqs)%nat
        by (simpl; lia).
    + intros [|k] req' Hk; simpl in Hk.
      * injection Hk as <-. rewrite Nat.add_0_r.
        exists (mkContainerRevision (uc_name raw)
                  (findProductRevisions s1 (draftProductIds s1 raw))).
        split; [|done].
        by apply (proj1 (proj2 (run_behind (approve_each_container c reqs) s2))).
      * replace (n + S k)%nat with (S n + k)%nat by lia. by apply Hrows.
Qed.

(** C4. An approval of a base that has a draft and the revisions 1 to [n]
    writes the revision numbered [n + 1] (that is [currentRevision + 1], or 1
    without a current revision) from the draft, points the base to it and
    deletes the draft; this holds for a product and for a container, in
    either variant (the strict one where no listed product has a draft, the
    other from a store whose revisions are behind their bases).  So from a
    base without revisions, [N] rounds of draft and approval all return and
    leave the base pointing to [N], with exactly the revisions 1 to [N], the
    k-th holding the k-th draft.  More generally, after a run of public
    operations in which [n] approvals of a base without revisions returned a
    revision, the base points to revision [n] and its revisions are exactly
    those numbered 1 to [n] (for a product in runs where no container
    approval approves products on the side; with those, the revisions of a
    product still run from 1 to the pointer of its base); and each approval
    that returns has written, or found, the revision numbered
    [currentRevision + 1], or 1 without a current revision, and left the base
    pointing to it. *)
Theorem approvals_number_revisions :
  (forall ops s p,
      product_at s p 0 ->
      Forall (fun o => cascades o = false) ops ->
      product_at (run ops s).2 p (approvals (approves_product p) ops (run ops s).1))
  /\ (forall ops s c,
        container_at s c 0 ->
        container_at (run ops s).2 c (approvals (approves_container c) ops (run ops s).1))
  /\ (forall ops s p n,
        product_at s p n -> exists n', (n <= n')%nat /\ product_at (run ops s).2 p n')
  /\ (forall p s resp s',
        approveProductUpdate p s = (Ok (Some resp), s') ->
        exists base, products s !! p = Some base
          /\ let n := next_revision (product_currentRevision base) in
             p_revision resp = Some n
             /\ is_Some (productRevisions s' !! (p, n))
             /\ product_currentRevision <$> products s' !! p = Some (Some n))
  /\ (forall c s resp s',
        approveContainerUpdate_strict c s = (Ok (Some resp), s')
        \/ approveContainerUpdate_lax c s = (Ok (Some resp), s') ->
        exists base, containers s !! c = Some base
          /\ let n := next_revision (container_currentRevision base) in
             c_revision resp = Some n
             /\ is_Some (containerRevisions s' !! (c, n))
             /\ container_currentRevision <$> containers s' !! c = Some (Some n))
  /\ (forall p s n u,
        product_at s p n -> updatedProducts s !! p = Some u ->
        exists s',
          approveProductUpdate p s
          = (Ok (Some (mkProductResponse p (Some (Z.of_nat n + 1))
                         (up_name u) (up_price u) (up_category u))), s')
          /\ productRevisions s' !! (p, Z.of_nat n + 1)
             = Some (mkProductRevision (up_name u) (up_price u) (up_category u))
          /\ product_at s' p (S n)
          /\ updatedProducts s' !! p = None)
  /\ (forall c s n raw,
        container_at s c n -> updatedContainers s !! c = Some raw ->
        findUpdatedProducts s (draftProductIds s raw) = [] ->
        exists s',
          approveContainerUpdate_strict c s
          = (Ok (Some (mkContainerResponse c (Some (Z.of_nat n + 1)) (uc_name raw))), s')
          /\ containerRevisions s' !! (c, Z.of_nat n + 1)
             = Some (mkContainerRevision (uc_name raw)
                       (findProductRevisions s (draftProductIds s raw)))
          /\ container_at s' c (S n)
          /\ updatedContainers s' !! c = None)
  /\ (forall c s n raw,
        container_at s c n -> updatedContainers s !! c = Some raw ->
        revisions_behind s ->
        exists resp s' crev,
          approveContainerUpdate_lax c s = (Ok (Some resp), s')
          /\ c_revision resp = Some (Z.of_nat n + 1)
          /\ c_name resp = uc_name raw
          /\ containerRevisions s' !! (c, Z.of_nat n + 1) = Some crev
          /\ cr_name crev = uc_name raw
          /\ container_at s' c (S n)
          /\ updatedContainers s' !! c = None)
  /\ (forall p s reqs,
        product_at s p 0 ->
        Forall (fun r => r = Returned) (run (approve_each p reqs) s).1
        /\ product_at (run (approve_each p reqs) s).2 p (length reqs)
        /\ forall k req, reqs !! k = Some req ->
             productRevisions (run (approve_each p reqs) s).2 !! (p, Z.of_nat k + 1)
             = Some (mkProductRevision (req_name req) (req_price req) (req_category req)))
  /\ (forall c s reqs,
        container_at s c 0 -> updatedProducts s = ∅ ->
        Forall (fun r => r = Returned) (run (approve_each_container c reqs) s).1
        /\ container_at (run (approve_each_container c reqs) s).2 c (length reqs)
        /\ forall k req, reqs !! k = Some req ->
             exists crev,
               containerRevisions (run (approve_each_container c reqs) s).2
                 !! (c, Z.of_nat k + 1) = Some crev
               /\ cr_name crev = creq_name req).
Proof.
  split_and!.
  - intros ops s p Hat Hall. by apply (run_product_at ops p s 0%nat).
  - intros ops s c Hat. by apply (run_container_at ops c s 0%nat).
  - intros ops s p n. apply run_contiguous.
  - apply approveProductUpdate_returned.
  - apply approveContainerUpdate_returned.
  - apply approveProductUpdate_draft.
  - intros c s n raw Hat Hd Hnone.
    destruct (strict_approval_draft c s n raw Hat Hd Hnone) as (s' & ? & ? & ? & ? & _).
    by exists s'.
  - apply lax_approval_draft.
  - intros p s reqs Hat. exact (approve_each_run p reqs s 0%nat Hat).
  - intros c s reqs Hat Hnone. exact (approve_each_container_run c reqs s 0%nat Hat Hnone).
Qed.

(** C5. Approving a product or a container whose base row or whose draft
    does not exist returns [undefined], which the caller reports as not
    found, and leaves the store as it was. *)
Theorem approve_without_draft_changes_nothing (id : Z) (s : Store) :
  (products s !! id = None \/ updatedProducts s !! id = None ->
   approveProductUpdate id s = (Ok None, s))
  /\ (containers s !! id = None \/ updatedContainers s !! id = None ->
      approveContainerUpdate_strict id s = (Ok None, s)
      /\ approveContainerUpdate_lax id s = (Ok None, s)).
Proof.
  split; [apply approveProductUpdate_undefined|].
  unfold approveContainerUpdate_strict, approveContainerUpdate_lax.
  intros [->| ->]; [done|]. by destruct (containers s !! id).
Qed.

(** ** The two variants of container approval *)

(** Where no listed product has a draft, the two variants leave the same
    store and answer with the same revision; the [id] of the answer is the
    container's in the one and the column [public] in the other. *)
Lemma container_approval_variants_agree s c :
  (forall raw, updatedContainers s !! c = Some raw ->
     findUpdatedProducts s (draftProductIds s raw) = []) ->
  (approveContainerUpdate_lax c s).2 = (approveContainerUpdate_strict c s).2
  /\ match (approveContainerUpdate_lax c s).1, (approveContainerUpdate_strict c s).1 with
     | Ok (Some l), Ok (Some r) => c_revision l = c_revision r /\ c_name l = c_name r
     | Ok None, Ok None => True
     | Err e, Err e' => e = e'
     | _, _ => False
     end.
Proof.
  intros Hnone. unfold approveContainerUpdate_lax, approveContainerUpdate_strict.
  destruct (containers s !! c) as [base|]; [|done].
  destruct (updatedContainers s !! c) as [raw|]; [|done].
  rewrite (Hnone raw eq_refl). unfold bind. simpl. rewrite app_nil_r.
  rewrite !reviseContainer_eq. cbv zeta.
  destruct (containerRevisions s !! _) as [old|]; [|done].
  by case_bool_decide.
Qed.

(** C7. On a container whose draft lists a product that has a draft of
    its own, the strict variant throws [UnapprovedProductError] and leaves the
    store as it is, whereas the lax variant, from a store whose revisions are
    behind their bases, returns the new container revision: it has approved
    every such product, writing its next revision and deleting its draft, and
    the container revision it then writes lists those new product revisions.
    So the two variants differ on every such input. *)
Theorem container_approval_variants_disagree s c base raw :
  revisions_behind s ->
  containers s !! c = Some base ->
  updatedContainers s !! c = Some raw ->
  (exists q, q ∈ uc_products raw /\ is_Some (products s !! q)
             /\ is_Some (updatedProducts s !! q)) ->
  let n := next_revision (container_currentRevision base) in
  approveContainerUpdate_strict c s = (Err UnapprovedProductError, s)
  /\ (exists resp s' crev,
        approveContainerUpdate_lax c s = (Ok (Some resp), s')
        /\ c_revision resp = Some n
        /\ containerRevisions s !! (c, n) = None
        /\ containerRevisions s' !! (c, n) = Some crev
        /\ forall q, q ∈ uc_products raw -> is_Some (products s !! q) ->
             is_Some (updatedProducts s !! q) ->
             exists pbase, products s !! q = Some pbase
               /\ let m := next_revision (product_currentRevision pbase) in
                  productRevisions s !! (q, m) = None
                  /\ is_Some (productRevisions s' !! (q, m))
                  /\ product_currentRevision <$> products s' !! q = Some (Some m)
                  /\ updatedProducts s' !! q = None
                  /\ (q, m) ∈ cr_products crev)
  /\ approveContainerUpdate_lax c s <> approveContainerUpdate_strict c s.
Proof.
  intros Hw Hb Hd (q0 & Hq0) n.
  assert (Hstrict : approveContainerUpdate_strict c s = (Err UnapprovedProductError, s)).
  { unfold approveContainerUpdate_strict. rewrite Hb, Hd.
    apply elem_of_findUpdatedProducts in Hq0.
    destruct (findUpdatedProducts s (draftProductIds s raw)); [|done].
    by apply elem_of_nil in Hq0. }
  assert (Hlax : exists resp s' crev,
        approveContainerUpdate_lax c s = (Ok (Some resp), s')
        /\ c_revision resp = Some n
        /\ containerRevisions s !! (c, n) = None
        /\ containerRevisions s' !! (c, n) = Some crev
        /\ forall q, q ∈ uc_products raw -> is_Some (products s !! q) ->
             is_Some (updatedProducts s !! q) ->
             exists pbase, products s !! q = Some pbase
               /\ let m := next_revision (product_currentRevision pbase) in
                  productRevisions s !! (q, m) = None
                  /\ is_Some (productRevisions s' !! (q, m))
                  /\ product_currentRevision <$> products s' !! q = Some (Some m)
                  /\ updatedProducts s' !! q = None
                  /\ (q, m) ∈ cr_products crev).
  { destruct (pushes_ok (findUpdatedProducts s (draftProductIds s raw)) s)
      as (pushed & s1 & Hloop & Hw1 & Hsame & Hall);
      [apply NoDup_findUpdatedProducts|done| |].
    { intros q Hq%elem_of_findUpdatedProducts. tauto. }
    pose proof Hsame as (Hcs & _ & Hcr).
    pose proof (revisions_behind_fresh_container _ _ _ Hw Hb) as Hnone. fold n in Hnone.
    unfold approveContainerUpdate_lax. rewrite Hb, Hd. unfold bind. rewrite Hloop.
    rewrite reviseContainer_eq. cbv zeta. fold n. rewrite Hcr, Hnone.
    eexists _, _, _. split; [reflexivity|]. simpl. rewrite lookup_insert_eq.
    split_and!; try done.
    intros q Hq Hqp Hqu.
    destruct (Hall q) as (pbase & Hpb & Hfresh & Hs & Hp & Hu & Hpushed);
      [apply elem_of_findUpdatedProducts; tauto|].
    exists pbase. split_and!; try done. cbv zeta.
    apply elem_of_findProductRevisions; [|done]. apply elem_of_app. by right. }
  split_and!; try done.
  destruct Hlax as (resp & s' & crev & -> & _). by rewrite Hstrict.
Qed.

(** C9, as stated, fails: the static [update] writes new contents over a
    persisted revision and returns without an error. *)
Lemma revision_changed_by_static_update :
  ~ (forall how s key old r,
       productRevisions s !! key = Some old -> r <> old ->
       exists e s', mutate how key r s = (Err e, s')).
Proof.
  intros Hclaim.
  destruct (Hclaim ByUpdate store_with_nested_draft (1, 1)
              (mkProductRevision "beer" 150 1) (mkProductRevision "beer" 120 1))
    as (e & s' & Hrun); [by vm_compute|discriminate|].
  unfold mutate, updateProductRevision, modify in Hrun. discriminate.
Qed.

(** C9, amended. Saving over a persisted product revision with different
    contents throws and writes nothing.  The static [update] and [delete] of
    the entity run no listener: [update] of a persisted revision writes the
    new contents over it and [delete] removes it, both without an error and
    leaving every other row as it is.  The public operations use neither: a
    run of them never changes or removes a persisted revision, and from the
    empty store, or from any store whose revisions are behind their bases, no
    public operation ever runs into the error of the save. *)
Theorem revisions_are_immutable :
  (forall s key old r,
      productRevisions s !! key = Some old -> r <> old ->
      saveProductRevision key r s = (Err ImmutableError, s))
  /\ (forall ops s key v,
        productRevisions s !! key = Some v ->
        productRevisions (run ops s).2 !! key = Some v)
  /\ (forall ops s,
        revisions_behind s ->
        Forall (fun r => r <> Threw ImmutableError) (run ops s).1)
  /\ (forall ops, Forall (fun r => r <> Threw ImmutableError) (run ops emptyStore).1)
  /\ (forall s key old r,
        productRevisions s !! key = Some old ->
        updateProductRevision key r s
        = (Ok tt, set_productRevisions (insert key r) s))
  /\ (forall s key r,
        productRevisions s !! key = None -> updateProductRevision key r s = (Ok tt, s))
  /\ (forall s key,
        deleteProductRevision key s = (Ok tt, set_productRevisions (delete key) s)).
Proof.
  split_and!.
  - intros s key old r Hold Hne. unfold saveProductRevision. rewrite Hold.
    rewrite bool_decide_eq_false_2; [done|congruence].
  - intros ops s key v. apply run_behind.
  - intros ops s Hw. by apply run_behind.
  - intros ops. apply run_behind, revisions_behind_empty.
  - intros s key old r Hold. unfold updateProductRevision, modify, set_productRevisions.
    by rewrite Hold, bool_decide_eq_true_2.
  - intros s key r Hnone. unfold updateProductRevision, modify, set_productRevisions.
    rewrite Hnone, bool_decide_eq_false_2 by (by intros [? ?]). by destruct s.
  - done.
Qed.


(** ** The theorems at concrete stores *)

Example store_with_nested_draft_rows :
  products store_with_nested_draft !! 1 = Some (mkProduct 7 (Some 1))
  /\ updatedProducts store_with_nested_draft !! 1 = Some (mkUpdatedProduct "beer" 120 1)
  /\ productRevisions store_with_nested_draft !! (1, 1) = Some (mkProductRevision "beer" 150 1)
  /\ containers store_with_nested_draft !! 1 = Some (mkContainer 7 true None)
  /\ updatedContainers store_with_nested_draft !! 1 = Some (mkUpdatedContainer "fridge" {[1]}).
Proof. by vm_compute. Qed.

Lemma approvals_number_revisions_witness :
  product_at
    (run [ApproveProduct 1; UpdateProduct 1 cheaper_beer; ApproveProduct 1;
          ApproveProduct 1] store_with_new_product).2 1 2
  /\ product_at (run (approve_each 1 [cheaper_beer; beer]) store_with_new_product).2 1 2
  /\ productRevisions (run (approve_each 1 [cheaper_beer; beer]) store_with_new_product).2
       !! (1, 2) = Some (mkProductRevision "beer" 150 1).
Proof.
  assert (Hfresh : product_at store_with_new_product 1 0).
  { split.
    - exists (mkProduct 7 None). split; reflexivity.
    - intros r. change (productRevisions store_with_new_product) with
        (∅ : gmap (Z * Z) ProductRevision).
      rewrite lookup_empty. split; [by intros [? ?]|lia]. }
  split_and!.
  - assert (Hcount : approvals (approves_product 1)
                       [ApproveProduct 1; UpdateProduct 1 cheaper_beer; ApproveProduct 1;
                        ApproveProduct 1]
                       (run [ApproveProduct 1; UpdateProduct 1 cheaper_beer;
                             ApproveProduct 1; ApproveProduct 1]
                            store_with_new_product).1 = 2%nat)
      by (vm_compute; reflexivity).
    rewrite <- Hcount. apply (proj1 approvals_number_revisions); [done|].
    repeat constructor.
  - destruct approvals_number_revisions as (_ & _ & _ & _ & _ & _ & _ & _ & Hrounds & _).
    by destruct (Hrounds 1 store_with_new_product [cheaper_beer; beer] Hfresh) as (_ & ? & _).
  - destruct approvals_number_revisions as (_ & _ & _ & _ & _ & _ & _ & _ & Hrounds & _).
    destruct (Hrounds 1 store_with_new_product [cheaper_beer; beer] Hfresh) as (_ & _ & Hrow).
    exact (Hrow 1%nat beer eq_refl).
Defined.

Example approvals_counted :
  let ops := [ApproveProduct 1; UpdateProduct 1 cheaper_beer; ApproveProduct 1;
              ApproveProduct 1] in
  (run ops store_with_new_product).1 = [Returned; Returned; Returned; Undefined]
  /\ approvals (approves_product 1) ops (run ops store_with_new_product).1 = 2%nat.
Proof. by vm_compute. Qed.

Lemma approve_without_draft_changes_nothing_witness :
  approveProductUpdate 1 emptyStore = (Ok None, emptyStore).
Proof.
  apply (proj1 (approve_without_draft_changes_nothing 1 emptyStore)).
  left. reflexivity.
Defined.

Lemma container_approval_variants_disagree_witness :
  approveContainerUpdate_strict 1 store_with_nested_draft
  = (Err UnapprovedProductError, store_with_nested_draft).
Proof.
  refine (proj1 (container_approval_variants_disagree store_with_nested_draft 1
                   (mkContainer 7 true None) (mkUpdatedContainer "fridge" {[1]})
                   _ _ _ _)).
  - apply run_behind, revisions_behind_empty.
  - vm_compute. reflexivity.
  - vm_compute. reflexivity.
  - exists 1. split; [vm_compute; reflexivity|].
    split; eexists; vm_compute; reflexivity.
Defined.

Example lax_variant_approves_nested_draft :
  exists resp s',
    approveContainerUpdate_lax 1 store_with_nested_draft = (Ok (Some resp), s')
    /\ resp = mkContainerResponse 1 (Some 1) "fridge"
    /\ productRevisions s' !! (1, 2) = Some (mkProductRevision "beer" 120 1)
    /\ updatedProducts s' !! 1 = None
    /\ containerRevisions s' !! (1, 1)
       = Some (mkContainerRevision "fridge" {[(1, 1); (1, 2)]}).
Proof. eexists _, _. split; [vm_compute; reflexivity|]. by vm_compute. Qed.

(** The variant that approves the pending products answers with the
    column [public] for an id: 0 for a container that is not public. *)
Example lax_variant_answers_with_public_column :
  exists s',
    approveContainerUpdate_lax 1 store_with_private_draft
    = (Ok (Some (mkContainerResponse 0 (Some 1) "shelf")), s')
    /\ approveContainerUpdate_strict 1 store_with_private_draft
       = (Ok (Some (mkContainerResponse 1 (Some 1) "shelf")), s').
Proof. eexists. split; by vm_compute. Qed.

Lemma revisions_are_immutable_witness :
  saveProductRevision (1, 1) (mkProductRevision "beer" 120 1) store_with_nested_draft
  = (Err ImmutableError, store_with_nested_draft)
  /\ updateProductRevision (1, 1) (mkProductRevision "beer" 120 1) store_with_nested_draft
     = (Ok tt,
        set_productRevisions (insert (1, 1) (mkProductRevision "beer" 120 1))
          store_with_nested_draft).
Proof.
  split.
  - apply (proj1 revisions_are_immutable _ (1, 1) (mkProductRevision "beer" 150 1)).
    + vm_compute. reflexivity.
    + discriminate.
  - destruct revisions_are_immutable as (_ & _ & _ & _ & Hupdate & _).
    apply (Hupdate _ (1, 1) (mkProductRevision "beer" 150 1)).
    vm_compute. reflexivity.
Defined.

(** ** Drafts of products *)

(** X15. [updateProduct] of a product that does not exist returns
    [undefined] and writes nothing.  For an existing product it stores the
    request as the product's one draft and returns it, without a revision
    number; the current view of every product, the revisions and the
    containers stay as they are, and a draft that was there is replaced, so
    only the last update counts. *)
Theorem updateProduct_spec p update s :
  (products s !! p = None -> updateProduct p update s = (Ok None, s))
  /\ (is_Some (products s !! p) ->
      let draft := mkProductResponse p None (req_name update) (req_price update)
                                     (req_category update) in
      exists s', updateProduct p update s = (Ok (Some draft), s')
        /\ getUpdatedProduct p s' = Some draft
        /\ (forall q, getProduct q s' = getProduct q s)
        /\ (forall q, q <> p -> getUpdatedProduct q s' = getUpdatedProduct q s)
        /\ products s' = products s
        /\ productRevisions s' = productRevisions s
        /\ same_containers s s'
        /\ forall update2, updateProduct p update2 s' = updateProduct p update2 s).
Proof.
  split.
  - intros Hnone. unfold updateProduct. by rewrite Hnone.
  - intros [base Hb] draft.
    assert (Hdraft : forall s0 u, products s0 !! p = Some base ->
              getUpdatedProduct p (set_updatedProducts (insert p u) s0)
              = Some (mkProductResponse p None (up_name u) (up_price u) (up_category u))).
    { intros s0 u Hb0. unfold getUpdatedProduct. simpl. by rewrite Hb0, lookup_insert_eq. }
    eexists. split; [|split_and!].
    + unfold updateProduct. rewrite Hb. cbv zeta. rewrite (Hdraft s _ Hb). reflexivity.
    + by rewrite (Hdraft s _ Hb).
    + done.
    + intros q Hq. unfold getUpdatedProduct. simpl. by rewrite lookup_insert_ne.
    + done.
    + done.
    + done.
    + intros update2. unfold updateProduct. simpl. rewrite Hb. cbv zeta.
      rewrite (Hdraft s _ Hb), (Hdraft (set_updatedProducts _ s) _ Hb).
      unfold set_updatedProducts. simpl. by rewrite insert_insert_eq.
Qed.

Lemma updateProduct_spec_witness :
  exists s', updateProduct 1 cheaper_beer store_with_new_product
             = (Ok (Some (mkProductResponse 1 None "beer" 120 1)), s')
    /\ getUpdatedProduct 1 s' = Some (mkProductResponse 1 None "beer" 120 1)
    /\ (forall q, getProduct q s' = getProduct q store_with_new_product)
    /\ (forall q, q <> 1 -> getUpdatedProduct q s' = getUpdatedProduct q store_with_new_product)
    /\ products s' = products store_with_new_product
    /\ productRevisions s' = productRevisions store_with_new_product
    /\ same_containers store_with_new_product s'
    /\ forall update2, updateProduct 1 update2 s'
                       = updateProduct 1 update2 store_with_new_product.
Proof.
  apply (proj2 (updateProduct_spec 1 cheaper_beer store_with_new_product)).
  eexists. vm_compute. reflexivity.
Defined.

(** X16. Update, then approve.  From a store whose revisions are at or
    below their pointers, approving the draft that [updateProduct] stored
    returns the product with exactly the fields of the request and the next
    revision number; that becomes the current view of the product, the draft
    is gone, so a second approval returns [undefined] and writes nothing;
    every earlier revision row and the current view of every other product
    are kept. *)
Theorem update_approve_round_trip p update s base :
  revisions_behind s -> products s !! p = Some base ->
  let n := next_revision (product_currentRevision base) in
  let approved := mkProductResponse p (Some n) (req_name update) (req_price update)
                                    (req_category update) in
  exists s2,
    approveProductUpdate p (updateProduct p update s).2 = (Ok (Some approved), s2)
    /\ getProduct p s2 = Some approved
    /\ getUpdatedProduct p s2 = None
    /\ approveProductUpdate p s2 = (Ok None, s2)
    /\ (forall k v, productRevisions s !! k = Some v -> productRevisions s2 !! k = Some v)
    /\ (forall q, q <> p -> getProduct q s2 = getProduct q s).
Proof.
  intros Hw Hb n approved.
  set (u := mkUpdatedProduct (req_name update) (req_price update) (req_category update)).
  set (s1 := set_updatedProducts (insert p u) s).
  assert (Hs1 : (updateProduct p update s).2 = s1)
    by (unfold updateProduct; by rewrite Hb).
  rewrite Hs1.
  assert (Hb1 : products s1 !! p = Some base) by done.
  assert (Hu1 : updatedProducts s1 !! p = Some u) by (simpl; apply lookup_insert_eq).
  pose proof (approveProductUpdate_eq p s1 base u Hb1 Hu1) as Heq. cbv zeta in Heq.
  assert (Hfresh : productRevisions s1 !! (p, n) = None)
    by apply (revisions_behind_fresh_product s p base Hw Hb).
  fold n in Heq. rewrite Hfresh in Heq.
  eexists. split; [exact Heq|]. split_and!.
  - unfold getProduct. simpl. rewrite lookup_insert_eq. simpl.
    by rewrite lookup_insert_eq.
  - unfold getUpdatedProduct. simpl. by rewrite lookup_insert_eq, lookup_delete_eq.
  - apply approveProductUpdate_undefined. right. simpl. apply lookup_delete_eq.
  - intros k v Hk. simpl. rewrite lookup_insert_ne; [done|].
    intros <-. simpl in Hfresh. by rewrite Hfresh in Hk.
  - intros q Hq. unfold getProduct. simpl. rewrite lookup_insert_ne by done.
    destruct (products s !! q) as [qb|]; [|done].
    destruct (product_currentRevision qb) as [m|]; [|done].
    rewrite lookup_insert_ne; [done|congruence].
Qed.

Lemma update_approve_round_trip_witness :
  exists s2,
    approveProductUpdate 1 (updateProduct 1 cheaper_beer store_with_new_product).2
    = (Ok (Some (mkProductResponse 1 (Some 1) "beer" 120 1)), s2)
    /\ getProduct 1 s2 = Some (mkProductResponse 1 (Some 1) "beer" 120 1)
    /\ getUpdatedProduct 1 s2 = None
    /\ approveProductUpdate 1 s2 = (Ok None, s2)
    /\ (forall k v, productRevisions store_with_new_product !! k = Some v ->
          productRevisions s2 !! k = Some v)
    /\ (forall q, q <> 1 -> getProduct q s2 = getProduct q store_with_new_product).
Proof.
  apply (update_approve_round_trip 1 cheaper_beer store_with_new_product (mkProduct 7 None)).
  - apply run_behind, revisions_behind_empty.
  - vm_compute. reflexivity.
Defined.

(** X17. [createProduct] takes a key that no product has, and leaves every
    other product, every other draft and all revisions as they are.  The new
    product has a draft with the fields of the request and no revision: it
    has no current view until approved.  From a store whose revisions are at
    or below their pointers, approving it then gives revision 1 with the
    fields of the request. *)
Theorem createProduct_spec owner product s :
  revisions_behind s ->
  let id := next_key (products s) in
  let draft := mkProductResponse id None (req_name product) (req_price product)
                                 (req_category product) in
  let approved := mkProductResponse id (Some 1) (req_name product) (req_price product)
                                    (req_category product) in
  exists s1 s2,
    createProduct owner product s = (Ok (Some draft), s1)
    /\ products s !! id = None
    /\ products s1 !! id = Some (mkProduct owner None)
    /\ getProduct id s1 = None
    /\ (forall q, q <> id ->
          products s1 !! q = products s !! q
          /\ updatedProducts s1 !! q = updatedProducts s !! q)
    /\ productRevisions s1 = productRevisions s
    /\ same_containers s s1
    /\ approveProductUpdate id s1 = (Ok (Some approved), s2)
    /\ getProduct id s2 = Some approved.
Proof.
  intros Hw id draft approved.
  pose proof (next_key_fresh (products s)) as Hfresh. fold id in Hfresh.
  set (u := mkUpdatedProduct (req_name product) (req_price product) (req_category product)).
  set (s1 := set_updatedProducts (insert id u)
               (set_products (insert id (mkProduct owner None)) s)).
  assert (Hb1 : products s1 !! id = Some (mkProduct owner None))
    by (simpl; apply lookup_insert_eq).
  assert (Hu1 : updatedProducts s1 !! id = Some u) by (simpl; apply lookup_insert_eq).
  assert (Hrun : createProduct owner product s = (Ok (Some draft), s1)).
  { unfold createProduct. fold id u s1. unfold getUpdatedProduct. by rewrite Hb1, Hu1. }
  pose proof (approveProductUpdate_eq id s1 _ u Hb1 Hu1) as Heq. cbv zeta in Heq.
  simpl in Heq.
  assert (Hnone : productRevisions s !! (id, 1) = None).
  { destruct (productRevisions s !! (id, 1)) as [r|] eqn:Hr; [|done].
    destruct Hw as [Hp _]. destruct (Hp id 1 (mk_is_Some _ _ Hr)) as (b & m & Hb & _).
    by rewrite Hfresh in Hb. }
  rewrite Hnone in Heq.
  eexists s1, _. split; [exact Hrun|]. split_and!.
  - done.
  - done.
  - unfold getProduct. by rewrite Hb1.
  - intros q Hq. simpl. by rewrite !lookup_insert_ne.
  - done.
  - done.
  - exact Heq.
  - unfold getProduct. simpl. rewrite lookup_insert_eq. simpl.
    by rewrite lookup_insert_eq.
Qed.

Lemma createProduct_spec_witness :
  exists s1 s2,
    createProduct 7 beer emptyStore = (Ok (Some (mkProductResponse 1 None "beer" 150 1)), s1)
    /\ products emptyStore !! 1 = None
    /\ products s1 !! 1 = Some (mkProduct 7 None)
    /\ getProduct 1 s1 = None
    /\ (forall q, q <> 1 ->
          products s1 !! q = products emptyStore !! q
          /\ updatedProducts s1 !! q = updatedProducts emptyStore !! q)
    /\ productRevisions s1 = productRevisions emptyStore
    /\ same_containers emptyStore s1
    /\ approveProductUpdate 1 s1
       = (Ok (Some (mkProductResponse 1 (Some 1) "beer" 150 1)), s2)
    /\ getProduct 1 s2 = Some (mkProductResponse 1 (Some 1) "beer" 150 1).
Proof.
  apply (createProduct_spec 7 beer emptyStore). apply revisions_behind_empty.
Defined.

(** ** Drafts of containers *)

(** X18. [updateContainer] of a container that does not exist returns
    [undefined] and writes nothing.  For an existing container it stores the
    one draft of the container, with the name of the request and with the
    requested products that exist: an id that names no product is dropped
    without an error.  The base, the revisions and the products are left as
    they are. *)
Theorem updateContainer_spec c update s :
  (containers s !! c = None -> updateContainer c update s = (Ok None, s))
  /\ (is_Some (containers s !! c) ->
      exists s' draft,
        updateContainer c update s
        = (Ok (Some (mkContainerResponse c None (creq_name update))), s')
        /\ updatedContainers s' !! c = Some draft
        /\ uc_name draft = creq_name update
        /\ (forall q, q ∈ uc_products draft
                      <-> q ∈ creq_products update /\ is_Some (products s !! q))
        /\ (forall c', c' <> c -> updatedContainers s' !! c' = updatedContainers s !! c')
        /\ containers s' = containers s
        /\ containerRevisions s' = containerRevisions s
        /\ same_products s s').
Proof.
  rewrite updateContainer_eq. split.
  - by intros ->.
  - intros [base ->]. eexists _, _. split; [reflexivity|]. simpl.
    rewrite lookup_insert_eq. split_and!; try done.
    + intros q. simpl. rewrite elem_of_list_to_set, list_elem_of_filter. tauto.
    + intros c' Hc'. by rewrite lookup_insert_ne.
Qed.

Lemma updateContainer_spec_witness :
  exists s' draft,
    updateContainer 1 (mkContainerRequest "fridge" [1; 5] true) store_with_nested_draft
    = (Ok (Some (mkContainerResponse 1 None "fridge")), s')
    /\ updatedContainers s' !! 1 = Some draft
    /\ uc_name draft = "fridge"
    /\ (forall q, q ∈ uc_products draft
                  <-> q ∈ [1; 5] /\ is_Some (products store_with_nested_draft !! q))
    /\ (forall c', c' <> 1 ->
          updatedContainers s' !! c' = updatedContainers store_with_nested_draft !! c')
    /\ containers s' = containers store_with_nested_draft
    /\ containerRevisions s' = containerRevisions store_with_nested_draft
    /\ same_products store_with_nested_draft s'.
Proof.
  apply (proj2 (updateContainer_spec 1 (mkContainerRequest "fridge" [1; 5] true)
                  store_with_nested_draft)).
  eexists. vm_compute. reflexivity.
Defined.

(** X19. [createContainer] takes a key that no container has and stores
    the base with the owner and the public flag of the request and without a
    current revision, and a draft with the requested products that exist.
    Every other container, all revisions and the products are left as they
    are.  Until it is approved the container has no current view: reading it
    throws. *)
Theorem createContainer_spec owner container s :
  let id := next_key (containers s) in
  exists s1 draft,
    createContainer owner container s
    = (Ok (Some (mkContainerResponse id None (creq_name container))), s1)
    /\ containers s !! id = None
    /\ containers s1 !! id = Some (mkContainer owner (creq_public container) None)
    /\ updatedContainers s1 !! id = Some draft
    /\ uc_name draft = creq_name container
    /\ (forall q, q ∈ uc_products draft
                  <-> q ∈ creq_products container /\ is_Some (products s !! q))
    /\ (forall c, c <> id ->
          containers s1 !! c = containers s !! c
          /\ updatedContainers s1 !! c = updatedContainers s !! c)
    /\ containerRevisions s1 = containerRevisions s
    /\ same_products s s1
    /\ getProductsResponse id false s1 = (Err TypeError, s1).
Proof.
  intros id. unfold createContainer. fold id. rewrite updateContainer_eq. simpl.
  rewrite lookup_insert_eq. eexists _, _. split; [reflexivity|]. simpl.
  rewrite !lookup_insert_eq. split_and!; try done.
  - apply next_key_fresh.
  - intros q. simpl. rewrite elem_of_list_to_set, list_elem_of_filter. tauto.
  - intros c Hc. by rewrite !lookup_insert_ne.
  - unfold getProductsResponse. simpl. by rewrite lookup_insert_eq.
Qed.

(** ** What a container revision pins *)

Lemma elem_of_draftProductIds s raw (r : option Z) q :
  (r, q) ∈ draftProductIds s raw
  <-> q ∈ uc_products raw
      /\ exists pb, products s !! q = Some pb /\ product_currentRevision pb = r.
Proof.
  unfold draftProductIds. rewrite list_elem_of_omap. split.
  - intros (id & Hid%elem_of_elements & Hsome).
    destruct (products s !! id) as [pb|] eqn:Hp; [|done].
    simpl in Hsome. injection Hsome as <- <-. split; [done|]. by exists pb.
  - intros (Hq & pb & Hp & Hr). exists q. split; [by apply elem_of_elements|].
    rewrite Hp. simpl. by rewrite Hr.
Qed.

Lemma findProductRevisions_spec s pids q n :
  (q, n) ∈ findProductRevisions s pids
  <-> (Some n, q) ∈ pids /\ is_Some (productRevisions s !! (q, n)).
Proof.
  split; [|intros [? ?]; by apply elem_of_findProductRevisions].
  unfold findProductRevisions. rewrite elem_of_list_to_set, list_elem_of_omap.
  intros ([r id] & Hin & Hsome). simpl in Hsome.
  destruct r as [m|]; [|done]. case_bool_decide as Hs; [|done].
  injection Hsome as <- <-. by split.
Qed.

(** X20. The strict approval of a container draft whose listed products
    have no pending draft returns the next container revision and pins, for
    each listed product, the revision the product currently points to, when
    that revision is persisted: at most one revision per product, and none
    for a listed product that was never approved.  The draft is deleted and
    the products are left alone. *)
Theorem strict_approval_pins_current_revisions c base raw s :
  revisions_behind s ->
  containers s !! c = Some base -> updatedContainers s !! c = Some raw ->
  (forall q, q ∈ uc_products raw -> is_Some (products s !! q) ->
             updatedProducts s !! q = None) ->
  let n := next_revision (container_currentRevision base) in
  exists s' pins,
    approveContainerUpdate_strict c s
    = (Ok (Some (mkContainerResponse c (Some n) (uc_name raw))), s')
    /\ containerRevisions s' !! (c, n) = Some (mkContainerRevision (uc_name raw) pins)
    /\ (forall q r, (q, r) ∈ pins <->
          q ∈ uc_products raw
          /\ (exists pb, products s !! q = Some pb /\ product_currentRevision pb = Some r)
          /\ is_Some (productRevisions s !! (q, r)))
    /\ (forall q r1 r2, (q, r1) ∈ pins -> (q, r2) ∈ pins -> r1 = r2)
    /\ updatedContainers s' !! c = None
    /\ same_products s s'.
Proof.
  intros Hw Hb Hd Hnone n.
  assert (Hno : findUpdatedProducts s (draftProductIds s raw) = []).
  { destruct (findUpdatedProducts s (draftProductIds s raw)) as [|q l] eqn:Hl; [done|].
    assert (Hq : q ∈ findUpdatedProducts s (draftProductIds s raw))
      by (rewrite Hl; apply list_elem_of_here).
    apply elem_of_findUpdatedProducts in Hq as (Hq & Hp & [u Hu]).
    by rewrite (Hnone q Hq Hp) in Hu. }
  assert (Hpins : forall q r,
            (q, r) ∈ findProductRevisions s (draftProductIds s raw) <->
            q ∈ uc_products raw
            /\ (exists pb, products s !! q = Some pb /\ product_currentRevision pb = Some r)
            /\ is_Some (productRevisions s !! (q, r))).
  { intros q r. rewrite findProductRevisions_spec, elem_of_draftProductIds. tauto. }
  pose proof (revisions_behind_fresh_container _ _ _ Hw Hb) as Hfresh. fold n in Hfresh.
  eexists _, _. split.
  { unfold approveContainerUpdate_strict. rewrite Hb, Hd, Hno.
    rewrite reviseContainer_eq. cbv zeta. fold n. rewrite Hfresh. reflexivity. }
  simpl. rewrite lookup_insert_eq, lookup_delete_eq. split_and!; try done.
  intros q r1 r2 (_ & (pb1 & Hp1 & Hr1) & _)%Hpins (_ & (pb2 & Hp2 & Hr2) & _)%Hpins.
  congruence.
Qed.

Lemma strict_approval_pins_current_revisions_witness :
  exists s' pins,
    approveContainerUpdate_strict 1
      (run [ApproveProduct 1] store_with_nested_draft).2
    = (Ok (Some (mkContainerResponse 1 (Some 1) "fridge")), s')
    /\ containerRevisions s' !! (1, 1) = Some (mkContainerRevision "fridge" pins)
    /\ (forall q r, (q, r) ∈ pins <->
          q ∈ ({[1]} : gset Z)
          /\ (exists pb, products (run [ApproveProduct 1] store_with_nested_draft).2 !! q
                         = Some pb
                         /\ product_currentRevision pb = Some r)
          /\ is_Some (productRevisions (run [ApproveProduct 1] store_with_nested_draft).2
                        !! (q, r)))
    /\ (forall q r1 r2, (q, r1) ∈ pins -> (q, r2) ∈ pins -> r1 = r2)
    /\ updatedContainers s' !! 1 = None
    /\ same_products (run [ApproveProduct 1] store_with_nested_draft).2 s'.
Proof.
  refine (strict_approval_pins_current_revisions 1 (mkContainer 7 true None)
            (mkUpdatedContainer "fridge" {[1]})
            (run [ApproveProduct 1] store_with_nested_draft).2 _ _ _ _).
  - apply run_behind, run_behind, revisions_behind_empty.
  - vm_compute. reflexivity.
  - vm_compute. reflexivity.
  - intros q Hq _. simpl in Hq. apply elem_of_singleton in Hq. rewrite Hq.
    vm_compute. reflexivity.
Defined.

(** X21. The lax approval pins two revisions of one product: when a
    listed product has a persisted current revision and a pending draft, the
    container revision that the lax variant writes lists both the revision
    the product pointed to before the call and the revision the call created
    by approving the draft. *)
Theorem lax_approval_pins_old_and_new c base raw q pb m s :
  revisions_behind s ->
  containers s !! c = Some base -> updatedContainers s !! c = Some raw ->
  q ∈ uc_products raw -> products s !! q = Some pb ->
  product_currentRevision pb = Some m ->
  is_Some (productRevisions s !! (q, m)) ->
  is_Some (updatedProducts s !! q) ->
  let n := next_revision (container_currentRevision base) in
  exists resp s' crev,
    approveContainerUpdate_lax c s = (Ok (Some resp), s')
    /\ containerRevisions s' !! (c, n) = Some crev
    /\ (q, m) ∈ cr_products crev
    /\ (q, next_revision (Some m)) ∈ cr_products crev
    /\ m <> next_revision (Some m)
    /\ product_currentRevision <$> products s' !! q = Some (Some (next_revision (Some m))).
Proof.
  intros Hw Hb Hd Hq Hp Hm [old Hold] Hu n.
  destruct (pushes_ok (findUpdatedProducts s (draftProductIds s raw)) s)
    as (pushed & s1 & Hloop & Hw1 & Hsame & Hall);
    [apply NoDup_findUpdatedProducts|done| |].
  { intros q' Hq'%elem_of_findUpdatedProducts. tauto. }
  destruct (pushes_effect _ _ _ _ Hloop) as (_ & _ & Hkeep & _).
  pose proof Hsame as (Hcs & _ & Hcr).
  pose proof (revisions_behind_fresh_container _ _ _ Hw Hb) as Hnone. fold n in Hnone.
  destruct (Hall q) as (pb' & Hpb' & _ & Hnew & Hptr & _ & Hpushed).
  { apply elem_of_findUpdatedProducts. split_and!; [done|by exists pb|done]. }
  rewrite Hp in Hpb'. injection Hpb' as <-. rewrite Hm in Hnew, Hptr, Hpushed.
  eexists _, _, _. split.
  { unfold approveContainerUpdate_lax. rewrite Hb, Hd. unfold bind. rewrite Hloop.
    rewrite reviseContainer_eq. cbv zeta. fold n. rewrite Hcr, Hnone. reflexivity. }
  simpl. rewrite lookup_insert_eq. split_and!.
  - done.
  - simpl. apply elem_of_findProductRevisions.
    + apply elem_of_app. left. apply elem_of_draftProductIds. split; [done|]. by exists pb.
    + exists old. by apply Hkeep.
  - simpl. apply elem_of_findProductRevisions; [|done]. apply elem_of_app. by right.
  - case_bool_decide; lia.
  - done.
Qed.

Lemma lax_approval_pins_old_and_new_witness :
  exists resp s' crev,
    approveContainerUpdate_lax 1 store_with_nested_draft = (Ok (Some resp), s')
    /\ containerRevisions s' !! (1, 1) = Some crev
    /\ (1, 1) ∈ cr_products crev
    /\ (1, 2) ∈ cr_products crev
    /\ 1 <> 2
    /\ product_currentRevision <$> products s' !! 1 = Some (Some 2).
Proof.
  apply (lax_approval_pins_old_and_new 1 (mkContainer 7 true None)
           (mkUpdatedContainer "fridge" {[1]}) 1 (mkProduct 7 (Some 1)) 1
           store_with_nested_draft).
  - apply run_behind, revisions_behind_empty.
  - vm_compute. reflexivity.
  - vm_compute. reflexivity.
  - vm_compute. reflexivity.
  - vm_compute. reflexivity.
  - reflexivity.
  - eexists. vm_compute. reflexivity.
  - eexists. vm_compute. reflexivity.
Defined.

(** X22. An approved container revision is frozen.  From a store whose
    revisions are at or below their pointers, whatever public operations
    follow (new drafts and approvals of the container or of its products
    included), the revision row keeps its name and its list of pinned product
    revisions, and every pinned product revision that is persisted keeps its
    contents. *)
Theorem container_revisions_stay_pinned ops s c n crev :
  revisions_behind s ->
  containerRevisions s !! (c, n) = Some crev ->
  containerRevisions (run ops s).2 !! (c, n) = Some crev
  /\ forall pin pv, pin ∈ cr_products crev ->
       productRevisions s !! pin = Some pv ->
       productRevisions (run ops s).2 !! pin = Some pv.
Proof.
  intros _ Hc. destruct (run_behind ops s) as (Hp & Hcr & _).
  split; [by apply Hcr|]. intros pin pv _. apply Hp.
Qed.

Lemma container_revisions_stay_pinned_witness :
  let ops := [UpdateProduct 1 cheaper_beer; ApproveProduct 1;
              UpdateContainer 1 fridge; ApproveContainerLax 1] in
  containerRevisions (run ops store_with_approved_container).2 !! (1, 1)
  = Some (mkContainerRevision "fridge" {[(1, 1)]})
  /\ forall pin pv, pin ∈ cr_products (mkContainerRevision "fridge" {[(1, 1)]}) ->
       productRevisions store_with_approved_container !! pin = Some pv ->
       productRevisions (run ops store_with_approved_container).2 !! pin = Some pv.
Proof.
  apply (container_revisions_stay_pinned _ store_with_approved_container 1 1).
  - apply run_behind, revisions_behind_empty.
  - vm_compute. reflexivity.
Defined.

(** ** References never dangle *)

Lemma well_linked_approve p s r s' :
  well_linked s -> approveProductUpdate p s = (r, s') -> well_linked s'.
Proof.
  intros (H1 & H2 & H3 & H4 & H5 & H6) Hrun.
  destruct (approveProductUpdate_cases p s)
    as [Hu|[[He _]|(base & u & resp & revs & Hb & Hd & Hok & _ & _ & Hnew & Hrevs)]];
    rewrite Hrun in *.
  - injection Hu as -> ->. by split_and!.
  - injection He as -> ->. by split_and!.
  - injection Hok as -> ->.
    assert (Hmono : forall k, is_Some (productRevisions s !! k) -> is_Some (revs !! k)).
    { intros k Hk. destruct Hrevs as [->|[_ ->]]; [done|].
      apply lookup_insert_is_Some'. by right. }
    split_and!; simpl.
    + intros q Hq. apply lookup_delete_is_Some in Hq as [Hne Hq].
      rewrite lookup_insert_ne by done. by apply H1.
    + done.
    + intros c raw q Hc Hq. apply lookup_insert_is_Some'. right. by eapply H3.
    + intros k crev pin Hk Hpin. apply Hmono. by eapply H4.
    + intros q qb n. destruct (decide (q = p)) as [->|Hne].
      * rewrite lookup_insert_eq. intros [= <-] [= <-]. done.
      * rewrite lookup_insert_ne by done. intros Hq Hn. apply Hmono. by eapply H5.
    + done.
Qed.

Lemma well_linked_pushes (pids : list Z) :
  forall s r s', well_linked s -> mapM approveAndPush pids s = (r, s') -> well_linked s'.
Proof.
  induction pids as [|p pids IH]; intros s r s' Hl.
  - by intros [= <- <-].
  - simpl. unfold bind at 1. unfold approveAndPush at 1. unfold bind at 1.
    destruct (approveProductUpdate p s) as [r0 s1] eqn:Hrun.
    pose proof (well_linked_approve p s r0 s1 Hl Hrun) as Hl1.
    destruct r0 as [[up|]|e]; simpl; try (by intros [= <- <-]).
    unfold bind at 1. destruct (mapM approveAndPush pids s1) as [r2 s2] eqn:Hloop.
    pose proof (IH s1 r2 s2 Hl1 Hloop) as Hl2.
    destruct r2; by intros [= <- <-].
Qed.

Lemma well_linked_revise (lax : bool) c base raw pids s r s' :
  well_linked s -> containers s !! c = Some base ->
  reviseContainer lax c base raw pids s = (r, s') -> well_linked s'.
Proof.
  intros (H1 & H2 & H3 & H4 & H5 & H6) Hb. rewrite reviseContainer_eq. cbv zeta.
  set (n := next_revision (container_currentRevision base)).
  assert (Hgoal : forall revs,
            (forall k, is_Some (containerRevisions s !! k) -> is_Some (revs !! k)) ->
            is_Some (revs !! (c, n)) ->
            (forall k crev pin, revs !! k = Some crev -> pin ∈ cr_products crev ->
               is_Some (productRevisions s !! pin)) ->
            well_linked (revised_store s c base revs)).
  { intros revs Hmono Hnew Hpins. split_and!; simpl.
    - done.
    - intros c' Hc'. apply lookup_delete_is_Some in Hc' as [Hne Hc'].
      rewrite lookup_insert_ne by done. by apply H2.
    - intros c' raw' q Hc' Hq. apply lookup_delete_Some in Hc' as [Hne Hc'].
      by eapply H3.
    - exact Hpins.
    - done.
    - intros c' cb m. destruct (decide (c' = c)) as [->|Hne].
      + rewrite lookup_insert_eq. intros [= <-] [= <-]. done.
      + rewrite lookup_insert_ne by done. intros Hc' Hm. apply Hmono. by eapply H6. }
  destruct (containerRevisions s !! (c, n)) as [old|] eqn:Hr.
  - case_bool_decide as Heq.
    + intros [= <- <-]. apply Hgoal; [done|by rewrite Hr|exact H4].
    + intros [= <- <-]. by split_and!.
  - intros [= <- <-]. apply Hgoal.
    + intros k Hk. apply lookup_insert_is_Some'. by right.
    + by rewrite lookup_insert_eq.
    + intros k crev pin Hk Hpin. destruct (decide (k = (c, n))) as [->|Hne].
      * rewrite lookup_insert_eq in Hk. injection Hk as <-. simpl in Hpin.
        destruct pin as [q m]. by apply findProductRevisions_spec in Hpin as [_ ?].
      * rewrite lookup_insert_ne in Hk by done. by eapply H4.
Qed.

Lemma well_linked_updateContainer c update s r s' :
  well_linked s -> updateContainer c update s = (r, s') -> well_linked s'.
Proof.
  intros (H1 & H2 & H3 & H4 & H5 & H6). rewrite updateContainer_eq.
  destruct (containers s !! c) as [base|] eqn:Hb; intros [= <- <-]; [|by split_and!].
  split_and!; simpl; try done.
  - intros c' Hc'. apply lookup_insert_is_Some' in Hc' as [->|Hc']; [by rewrite Hb|].
    by apply H2.
  - intros c' raw q Hc' Hq. destruct (decide (c' = c)) as [->|Hne].
    + rewrite lookup_insert_eq in Hc'. injection Hc' as <-. simpl in Hq.
      by apply elem_of_list_to_set, list_elem_of_filter in Hq as [? _].
    + rewrite lookup_insert_ne in Hc' by done. by eapply H3.
Qed.

Lemma well_linked_run_op o s r s' :
  well_linked s -> run_op o s = (r, s') -> well_linked s'.
Proof.
  intros Hl. pose proof Hl as (H1 & H2 & H3 & H4 & H5 & H6).
  destruct o as [owner req|p req|p|owner req|c req|c|c]; simpl.
  - (* createProduct *)
    intros [= <- <-]. pose proof (next_key_fresh (products s)) as Hfresh.
    split_and!; simpl; try done.
    + intros q Hq. apply lookup_insert_is_Some'.
      apply lookup_insert_is_Some' in Hq as [->|Hq]; [by left|]. right. by apply H1.
    + intros c raw q Hc Hq. apply lookup_insert_is_Some'. right. by eapply H3.
    + intros q qb n Hq Hn. destruct (decide (q = next_key (products s))) as [->|Hne].
      * rewrite lookup_insert_eq in Hq. injection Hq as <-. done.
      * rewrite lookup_insert_ne in Hq by done. by eapply H5.
  - (* updateProduct *)
    unfold updateProduct. destruct (products s !! p) as [base|] eqn:Hb;
      intros [= <- <-]; [|done].
    split_and!; simpl; try done.
    intros q Hq. apply lookup_insert_is_Some' in Hq as [->|Hq]; [by rewrite Hb|].
    by apply H1.
  - (* approveProductUpdate *)
    destruct (approveProductUpdate p s) as [r0 s0] eqn:Hrun. intros [= <- <-].
    by eapply well_linked_approve.
  - (* createContainer *)
    unfold createContainer.
    destruct (updateContainer _ req _) as [r0 s0] eqn:Hrun. intros [= <- <-].
    refine (well_linked_updateContainer _ _ _ _ _ _ Hrun).
    pose proof (next_key_fresh (containers s)) as Hfresh.
    split_and!; simpl; try done.
    + intros c Hc. apply lookup_insert_is_Some'. right. by apply H2.
    + intros c cb n Hc Hn. destruct (decide (c = next_key (containers s))) as [->|Hne].
      * rewrite lookup_insert_eq in Hc. injection Hc as <-. done.
      * rewrite lookup_insert_ne in Hc by done. by eapply H6.
  - (* updateContainer *)
    destruct (updateContainer c req s) as [r0 s0] eqn:Hrun. intros [= <- <-].
    by eapply well_linked_updateContainer.
  - (* approveContainerUpdate, strict *)
    destruct (approveContainerUpdate_strict c s) as [r0 s0] eqn:Hrun. intros [= <- <-].
    destruct (strict_cases c s) as [Hu|[Hu|(base & raw & Hb & Hd & Heq)]];
      rewrite Hrun in *.
    + by injection Hu as -> ->.
    + by injection Hu as -> ->.
    + symmetry in Heq. by eapply well_linked_revise.
  - (* approveContainerUpdate, lax *)
    destruct (approveContainerUpdate_lax c s) as [r0 s0] eqn:Hrun. intros [= <- <-].
    destruct (lax_cases c s) as [Hu|(base & raw & Hb & Hd & Heq)]; rewrite Hrun in *.
    + by injection Hu as -> ->.
    + destruct (mapM approveAndPush _ s) as [r1 s1] eqn:Hloop.
      pose proof (well_linked_pushes _ _ _ _ Hl Hloop) as Hl1.
      destruct (pushes_effect _ _ _ _ Hloop) as ((Hcs & _ & _) & _).
      destruct r1 as [pushed|e].
      * symmetry in Heq. eapply well_linked_revise; [exact Hl1| |exact Heq].
        by rewrite Hcs.
      * by injection Heq as -> ->.
Qed.

(** X23. No run of the public operations makes a reference dangle, whether
    its calls return or throw.  From the empty store, and from every store
    where this holds, after any run every draft belongs to a base, every
    container draft lists only products that exist, every container revision
    pins only product revisions that are persisted, and the current revision
    of every product and container is persisted. *)
Theorem run_well_linked ops :
  (forall s, well_linked s -> well_linked (run ops s).2)
  /\ well_linked (run ops emptyStore).2.
Proof.
  assert (Hrun : forall s, well_linked s -> well_linked (run ops s).2).
  { induction ops as [|o ops IH]; intros s Hl; [done|].
    rewrite run_cons. simpl. destruct (run_op o s) as [r s1] eqn:Hop. simpl.
    apply IH. by eapply well_linked_run_op. }
  split; [exact Hrun|]. apply Hrun.
  unfold well_linked, emptyStore. simpl.
  split_and!; intros *; rewrite ?lookup_empty; try done; by intros [? ?].
Qed.

Lemma run_well_linked_witness :
  well_linked (run [UpdateProduct 1 cheaper_beer; ApproveContainerLax 1]
                 store_with_approved_container).2.
Proof.
  apply (proj1 (run_well_linked [UpdateProduct 1 cheaper_beer; ApproveContainerLax 1])).
  apply (proj2 (run_well_linked [CreateProduct 7 beer; ApproveProduct 1;
                                 CreateContainer 7 fridge; ApproveContainerStrict 1])).
Defined.

(** ** Who can view a container *)

Lemma reviseContainer_visibility (lax : bool) c0 base0 raw pids s r s' c base :
  containers s !! c0 = Some base0 ->
  reviseContainer lax c0 base0 raw pids s = (r, s') ->
  containers s !! c = Some base ->
  exists base', containers s' !! c = Some base'
    /\ container_owner base' = container_owner base
    /\ container_public base' = container_public base.
Proof.
  intros Hb0. rewrite reviseContainer_eq. cbv zeta. intros Hrun Hb.
  assert (Hrevised : forall revs,
            exists base', containers (revised_store s c0 base0 revs) !! c = Some base'
              /\ container_owner base' = container_owner base
              /\ container_public base' = container_public base).
  { intros revs. simpl. destruct (decide (c = c0)) as [->|Hne].
    - rewrite lookup_insert_eq. rewrite Hb0 in Hb. injection Hb as <-. by eexists.
    - rewrite lookup_insert_ne by done. by exists base. }
  destruct (containerRevisions s !! _) as [old|].
  - case_bool_decide; injection Hrun as <- <-; [apply Hrevised|by exists base].
  - injection Hrun as <- <-. apply Hrevised.
Qed.

Lemma run_op_visibility o s r s' c base :
  run_op o s = (r, s') -> containers s !! c = Some base ->
  exists base', containers s' !! c = Some base'
    /\ container_owner base' = container_owner base
    /\ container_public base' = container_public base.
Proof.
  destruct o as [owner req|p req|p|owner req|c0 req|c0|c0]; simpl.
  - intros [= <- <-] Hb. by exists base.
  - unfold updateProduct. destruct (products s !! p); intros [= <- <-] Hb; by exists base.
  - destruct (approveProductUpdate p s) as [r0 s0] eqn:Hrun. intros [= <- <-] Hb.
    destruct (approveProductUpdate_effect p s r0 s0 Hrun) as ((Hcs & _) & _).
    exists base. by rewrite Hcs.
  - unfold createContainer. rewrite updateContainer_eq. simpl.
    rewrite lookup_insert_eq. intros [= <- <-] Hb. exists base. simpl.
    rewrite lookup_insert_ne; [done|]. intros <-.
    by rewrite next_key_fresh in Hb.
  - rewrite updateContainer_eq.
    destruct (containers s !! c0); intros [= <- <-] Hb; by exists base.
  - destruct (approveContainerUpdate_strict c0 s) as [r0 s0] eqn:Hrun.
    intros [= <- <-] Hb.
    destruct (strict_cases c0 s) as [Hu|[Hu|(base0 & raw & Hb0 & Hd & Heq)]];
      rewrite Hrun in *.
    + injection Hu as -> ->. by exists base.
    + injection Hu as -> ->. by exists base.
    + symmetry in Heq. by eapply reviseContainer_visibility.
  - destruct (approveContainerUpdate_lax c0 s) as [r0 s0] eqn:Hrun.
    intros [= <- <-] Hb.
    destruct (lax_cases c0 s) as [Hu|(base0 & raw & Hb0 & Hd & Heq)]; rewrite Hrun in *.
    + injection Hu as -> ->. by exists base.
    + destruct (mapM approveAndPush _ s) as [r1 s1] eqn:Hloop.
      destruct (pushes_effect _ _ _ _ Hloop) as ((Hcs & _ & _) & _).
      destruct r1 as [pushed|e].
      * symmetry in Heq.
        eapply reviseContainer_visibility; [|exact Heq|]; by rewrite Hcs.
      * injection Heq as -> ->. exists base. by rewrite Hcs.
Qed.

(** X24. Who can view a container is fixed when it is created.
    [canViewContainer] says neither own nor public for a container that does
    not exist; for an existing container its answer, for every user, is the
    same after any run of the public operations: drafts and approvals keep
    the owner and the public flag of the base, and the public flag of an
    update request is not used. *)
Theorem canViewContainer_stable ops userId c s :
  (containers s !! c = None ->
   canViewContainer userId c s = mkContainerVisibility false false)
  /\ (is_Some (containers s !! c) ->
      canViewContainer userId c (run ops s).2 = canViewContainer userId c s).
Proof.
  split.
  - intros Hnone. unfold canViewContainer. by rewrite Hnone.
  - revert s. induction ops as [|o ops IH]; intros s [base Hb]; [done|].
    rewrite run_cons. simpl. destruct (run_op o s) as [r s1] eqn:Hop. simpl.
    destruct (run_op_visibility o s r s1 c base Hop Hb) as (base1 & Hb1 & Ho & Hp).
    rewrite IH by (by exists base1).
    unfold canViewContainer. by rewrite Hb, Hb1, Ho, Hp.
Qed.

Lemma canViewContainer_stable_witness :
  canViewContainer 7 1
    (run [UpdateContainer 1 (mkContainerRequest "fridge" [1] false);
          ApproveContainerStrict 1] store_with_approved_container).2
  = canViewContainer 7 1 store_with_approved_container.
Proof.
  apply (proj2 (canViewContainer_stable
                  [UpdateContainer 1 (mkContainerRequest "fridge" [1] false);
                   ApproveContainerStrict 1] 7 1 store_with_approved_container)).
  eexists. vm_compute. reflexivity.
Defined.

(** ** Verifying and listing containers *)

(** X25. [verifyContainer] accepts a request exactly when its name is not
    empty: the listed products play no part, so a request that lists
    products that do not exist is accepted. *)
Theorem verifyContainer_ignores_products containerRequest s :
  verifyContainer containerRequest s
  = bool_decide (creq_name containerRequest <> EmptyString).
Proof.
  unfold verifyContainer.
  assert (Hall : forall (callback : Z -> js_value) (l : list Z),
            (forall q, truthy (callback q) = true) -> every callback l = true).
  { intros callback l Hc. unfold every.
    induction l as [|q l IH]; [done|]. simpl. by rewrite Hc. }
  rewrite Hall by done. apply andb_true_r.
Qed.

Lemma collectRow_keys mapping response :
  (collectRow mapping response).*1
  = if bool_decide (rowKey response ∈ mapping.*1) then mapping.*1
    else mapping.*1 ++ [rowKey response].
Proof.
  unfold collectRow. case_bool_decide.
  - rewrite <- list_fmap_compose. apply list_fmap_ext. intros i e _. simpl.
    by case_bool_decide.
  - by rewrite fmap_app.
Qed.

Lemma collectRow_count mapping response :
  NoDup (mapping.*1) ->
  length (concat (cw_products <$> (collectRow mapping response).*2))
  = S (length (concat (cw_products <$> mapping.*2))).
Proof.
  intros Hnd. unfold collectRow. case_bool_decide as Hin.
  - induction mapping as [|[k e] mapping IH]; [by apply elem_of_nil in Hin|].
    rewrite fmap_cons in Hnd, Hin. apply NoDup_cons in Hnd as [Hfresh Hnd].
    rewrite !fmap_cons. simpl. rewrite !length_app.
    destruct (decide (k = rowKey response)) as [->|Hne].
    + rewrite bool_decide_eq_true_2 by done. simpl. rewrite length_app. simpl.
      assert (Hsame : (fun e0 : (option Z * Z) * ContainerWithProductsResponse =>
                 if bool_decide (e0.1 = rowKey response)
                 then (e0.1, with_products e0.2 (cw_products e0.2 ++ [rowProduct response]))
                 else e0) <$> mapping = mapping).
      { clear IH Hnd Hin. induction mapping as [|[k' e'] mapping IH]; [done|].
        rewrite fmap_cons in Hfresh. apply not_elem_of_cons in Hfresh as [Hne Hfresh].
        simpl in Hne, Hfresh.
        rewrite fmap_cons. simpl. rewrite bool_decide_eq_false_2 by congruence.
        by rewrite IH. }
      rewrite Hsame. lia.
    + rewrite bool_decide_eq_false_2 by done. simpl.
      apply elem_of_cons in Hin as [Heq|Hin]; [simpl in Heq; congruence|].
      rewrite (IH Hnd Hin). lia.
  - rewrite !fmap_app, concat_app, length_app. simpl. lia.
Qed.

(** X26. [combineProducts] groups the rows by container id and revision:
    no key is returned twice, a key is returned exactly when some row has
    it, the entry of a key lists the products of the rows with that key in
    the order of the rows and takes its container fields from the first such
    row, and every row's product is listed exactly once in all. *)
Theorem combineProducts_groups (rawResponse : list RawContainerRow) :
  let mapping := combineMapping rawResponse in
  combineProducts rawResponse = mapping.*2
  /\ NoDup (mapping.*1)
  /\ (forall key, key ∈ mapping.*1 <-> key ∈ rowKey <$> rawResponse)
  /\ (forall key entry, (key, entry) ∈ mapping ->
        cw_products entry
        = rowProduct <$> filter (fun r => rowKey r = key) rawResponse
        /\ exists first,
             head (filter (fun r => rowKey r = key) rawResponse) = Some first
             /\ with_products entry [] = asContainerResponse first)
  /\ length (concat (cw_products <$> combineProducts rawResponse)) = length rawResponse.
Proof.
  unfold combineProducts. cbv zeta. split; [done|].
  unfold combineMapping.
  induction rawResponse as [|response rows IH] using rev_ind.
  - simpl. split_and!; [constructor|done| |done].
    intros key entry Hin. by apply elem_of_nil in Hin.
  - destruct IH as (Hnd & Hkeys & Hentries & Hcount).
    rewrite foldl_snoc. set (mapping := foldl collectRow [] rows) in *.
    split_and!.
    + rewrite collectRow_keys. case_bool_decide as Hin; [done|].
      apply NoDup_app. split_and!; [done| |apply NoDup_singleton].
      intros k Hk ->%list_elem_of_singleton. done.
    + intros key. rewrite collectRow_keys, fmap_app, elem_of_app. simpl.
      rewrite list_elem_of_singleton, <- Hkeys.
      case_bool_decide as Hin.
      * split; [by left|]. intros [?| ->]; done.
      * by rewrite elem_of_app, list_elem_of_singleton.
    + intros key entry Hin. rewrite filter_app, fmap_app.
      unfold collectRow in Hin. case_bool_decide as Hhas.
      * apply list_elem_of_fmap in Hin as ([k e] & Heq & He).
        destruct (Hentries k e He) as (Hprods & first & Hfirst & Hfields).
        simpl in Heq. case_bool_decide as Hk.
        -- injection Heq as -> ->. subst k.
           rewrite filter_cons_True by done. simpl. rewrite Hprods.
           split; [done|]. exists first. split; [|done].
           rewrite head_app, Hfirst. done.
        -- injection Heq as -> ->.
           rewrite filter_cons_False by (simpl; congruence). simpl.
           rewrite !app_nil_r. split; [done|]. by exists first.
      * apply elem_of_app in Hin as [He|Hnew].
        -- destruct (Hentries key entry He) as (Hprods & first & Hfirst & Hfields).
           assert (Hne : rowKey response <> key).
           { intros <-. apply Hhas. by apply (list_elem_of_fmap_2 fst) in He. }
           rewrite filter_cons_False by done. simpl. rewrite !app_nil_r.
           split; [done|]. by exists first.
        -- apply list_elem_of_singleton in Hnew. injection Hnew as -> ->.
           assert (Hnil : filter (fun r => rowKey r = rowKey response) rows = []).
           { destruct (filter _ rows) as [|r l] eqn:Hf; [done|]. exfalso. apply Hhas.
             apply Hkeys. assert (Hr : r ∈ filter (fun r => rowKey r = rowKey response) rows)
               by (rewrite Hf; apply list_elem_of_here).
             apply list_elem_of_filter in Hr as [<- Hr]. by apply list_elem_of_fmap_2. }
           rewrite Hnil, filter_cons_True by done. simpl. split; [done|].
           by exists response.
    + rewrite collectRow_count by done. rewrite Hcount, length_app. simpl. lia.
Qed.

(** ** Listing products *)

Lemma elem_of_getUpdatedProducts params s (r : ProductResponse) :
  r ∈ getUpdatedProducts params s
  <-> applyFilter (param_productId params) (p_id r)
      /\ is_Some (products s !! p_id r)
      /\ exists u, updatedProducts s !! p_id r = Some u
           /\ r = mkProductResponse (p_id r) None (up_name u) (up_price u) (up_category u).
Proof.
  unfold getUpdatedProducts. rewrite list_elem_of_omap. split.
  - intros ([id base] & Hrow & Hsome). apply list_elem_of_filter in Hrow as [Hf Hrow].
    apply elem_of_map_to_list in Hrow. simpl in *.
    destruct (updatedProducts s !! id) as [u|] eqn:Hu; [|done].
    simpl in Hsome. injection Hsome as <-. simpl. split_and!; [done|by exists base|].
    by exists u.
  - intros (Hf & [base Hb] & u & Hu & Hr). exists (p_id r, base). split.
    + apply list_elem_of_filter. split; [done|]. by apply elem_of_map_to_list.
    + simpl. rewrite Hu. simpl. by rewrite <- Hr.
Qed.

Lemma elem_of_getProducts params s (r : ProductResponse) :
  r ∈ getProducts params s
  <-> applyFilter (param_productId params) (p_id r)
      /\ exists base n rev,
           products s !! p_id r = Some base
           /\ applyFilter (param_ownerId params) (product_owner base)
           /\ latest params base = Some n
           /\ productRevisions s !! (p_id r, n) = Some rev
           /\ r = mkProductResponse (p_id r) (Some n) (pr_name rev) (pr_price rev)
                                    (pr_category rev).
Proof.
  unfold getProducts. rewrite list_elem_of_omap. split.
  - intros ([id base] & Hrow & Hsome). apply list_elem_of_filter in Hrow as [[Hf Ho] Hrow].
    apply elem_of_map_to_list in Hrow. simpl in *.
    destruct (latest params base) as [n|] eqn:Hn; [|done].
    destruct (productRevisions s !! (id, n)) as [rev|] eqn:Hrev; [|done].
    simpl in Hsome. injection Hsome as <-. simpl. split; [done|].
    by exists base, n, rev.
  - intros (Hf & base & n & rev & Hb & Ho & Hn & Hrev & Hr). exists (p_id r, base). split.
    + apply list_elem_of_filter. split; [done|]. by apply elem_of_map_to_list.
    + simpl. rewrite Hn, Hrev. simpl. by rewrite <- Hr.
Qed.

Lemma NoDup_omap_keys {A : Type} (f : Z * A -> option ProductResponse) (l : list (Z * A)) :
  (forall row r, f row = Some r -> p_id r = row.1) ->
  NoDup (l.*1) -> NoDup (p_id <$> omap f l).
Proof.
  intros Hkey. induction l as [|row l IH]; [constructor|].
  rewrite fmap_cons. intros [Hfresh Hnd]%NoDup_cons. simpl.
  destruct (f row) as [r|] eqn:Hr; [|by apply IH].
  rewrite fmap_cons. apply NoDup_cons. split; [|by apply IH].
  intros Hin. apply Hfresh. apply list_elem_of_fmap in Hin as (r' & Hid & Hin).
  apply list_elem_of_omap in Hin as (row' & Hrow' & Hr').
  rewrite <- (Hkey _ _ Hr), Hid, (Hkey _ _ Hr'). by apply list_elem_of_fmap_2.
Qed.

Lemma filter_key (m : gmap Z Product) (P : Z * Product -> Prop)
    `{!forall row, Decision (P row)} (p : Z) :
  (forall row, P row <-> row.1 = p) ->
  filter P (map_to_list m)
  = match m !! p with
    | Some base => [(p, base)]
    | None => []
    end.
Proof.
  intros HP.
  assert (Hl : forall l : list (Z * Product), NoDup (l.*1) ->
            (forall base, (p, base) ∈ l -> filter P l = [(p, base)])
            /\ (p ∉ l.*1 -> filter P l = [])).
  { induction l as [|[k v] l IH]; intros Hnd.
    - split; [by intros base ?%elem_of_nil|done].
    - rewrite fmap_cons in Hnd. apply NoDup_cons in Hnd as [Hfresh Hnd].
      destruct (IH Hnd) as [IH1 IH2]. split.
      + intros base [Heq|Hin]%elem_of_cons.
        * injection Heq as <- <-. rewrite filter_cons_True by (by apply HP).
          by rewrite IH2.
        * rewrite filter_cons_False; [by apply IH1|].
          intros Hk%HP. simpl in Hk. subst k. apply Hfresh.
          by apply (list_elem_of_fmap_2 fst) in Hin.
      + rewrite fmap_cons. intros [Hne Hnot]%not_elem_of_cons.
        rewrite filter_cons_False; [by apply IH2|]. intros Hk%HP. simpl in *. congruence. }
  destruct (Hl (map_to_list m) (NoDup_fst_map_to_list m)) as [H1 H2].
  destruct (m !! p) as [base|] eqn:Hp.
  - apply H1. by apply elem_of_map_to_list.
  - apply H2. intros Hin. apply list_elem_of_fmap in Hin as ([k v] & -> & Hin).
    apply elem_of_map_to_list in Hin. simpl in Hp. by rewrite Hp in Hin.
Qed.

(** The single-product reads of [updateProduct] and [approveProductUpdate]
    are the first rows of the listings filtered by product id. *)
Lemma getProducts_single p s :
  head (getProducts (mkProductParameters (Some p) None None) s) = getProduct p s
  /\ head (getUpdatedProducts (mkProductParameters (Some p) None None) s)
     = getUpdatedProduct p s.
Proof.
  unfold getProducts, getUpdatedProducts, getProduct, getUpdatedProduct. simpl. split.
  - rewrite (filter_key (products s) _ p) by (intros row; simpl; tauto).
    destruct (products s !! p) as [base|]; [|done]. simpl. unfold latest. simpl.
    destruct (product_currentRevision base) as [n|]; [|done].
    by destruct (productRevisions s !! (p, n)).
  - rewrite (filter_key (products s) _ p) by (intros row; simpl; tauto).
    destruct (products s !! p) as [base|]; [|done]. simpl.
    by destruct (updatedProducts s !! p).
Qed.

(** X27. [getAllProducts] lists every product at most once.  A product
    that has a draft is listed by the draft, without a revision number and
    whoever owns it, when it passes the product-id filter; a product without
    a draft is listed by the revision asked for (its current one by default)
    when that revision is persisted and the product passes the product-id
    and owner filters. *)
Theorem getAllProducts_spec params s :
  NoDup (p_id <$> getAllProducts params s)
  /\ forall r : ProductResponse,
       r ∈ getAllProducts params s
       <-> applyFilter (param_productId params) (p_id r)
           /\ exists base, products s !! p_id r = Some base
                /\ match updatedProducts s !! p_id r with
                   | Some u =>
                       r = mkProductResponse (p_id r) None (up_name u) (up_price u)
                                             (up_category u)
                   | None =>
                       applyFilter (param_ownerId params) (product_owner base)
                       /\ exists n rev,
                            latest params base = Some n
                            /\ productRevisions s !! (p_id r, n) = Some rev
                            /\ r = mkProductResponse (p_id r) (Some n) (pr_name rev)
                                                     (pr_price rev) (pr_category rev)
                   end.
Proof.
  split.
  - unfold getAllProducts. rewrite fmap_app. apply NoDup_app. split_and!.
    + eapply sublist_NoDup; [|apply fmap_sublist, sublist_filter].
      unfold getProducts. apply NoDup_omap_keys.
      * intros [id base] r. simpl. destruct (latest params base) as [n|]; [|done].
        destruct (productRevisions s !! (id, n)); [|done]. simpl. by intros [= <-].
      * eapply sublist_NoDup; [apply (NoDup_fst_map_to_list (products s))|].
        apply fmap_sublist, sublist_filter.
    + intros id Hin Hup. apply list_elem_of_fmap in Hin as (r & -> & Hr).
      by apply list_elem_of_filter in Hr as [Hnot _].
    + unfold getUpdatedProducts. apply NoDup_omap_keys.
      * intros [id base] r. simpl. destruct (updatedProducts s !! id); [|done].
        simpl. by intros [= <-].
      * eapply sublist_NoDup; [apply (NoDup_fst_map_to_list (products s))|].
        apply fmap_sublist, sublist_filter.
  - intros r. unfold getAllProducts. rewrite elem_of_app, list_elem_of_filter.
    rewrite elem_of_getProducts, elem_of_getUpdatedProducts. split.
    + intros [[Hnot (Hf & base & n & rev & Hb & Ho & Hn & Hrev & Hr)]
             |(Hf & [base Hb] & u & Hu & Hr)].
      * split; [done|]. exists base. split; [done|].
        destruct (updatedProducts s !! p_id r) as [u|] eqn:Hu.
        -- exfalso. apply Hnot. apply list_elem_of_fmap.
           exists (mkProductResponse (p_id r) None (up_name u) (up_price u) (up_category u)).
           split; [done|]. apply elem_of_getUpdatedProducts. simpl.
           split_and!; [done|by exists base|]. by exists u.
        -- split; [done|]. by exists n, rev.
      * split; [done|]. exists base. split; [done|]. by rewrite Hu.
    + intros (Hf & base & Hb & Hcase).
      destruct (updatedProducts s !! p_id r) as [u|] eqn:Hu.
      * right. split_and!; [done|by exists base|]. by exists u.
      * left. destruct Hcase as (Ho & n & rev & Hn & Hrev & Hr). split.
        -- intros Hin. apply list_elem_of_fmap in Hin as (r' & Hid & Hr').
           apply elem_of_getUpdatedProducts in Hr' as (_ & _ & u & Hu' & _).
           rewrite <- Hid in Hu'. by rewrite Hu in Hu'.
        -- split; [done|]. by exists base, n, rev.
Qed.

End RevisionsProps.
